(** * SmartGrade: the grading engine of [app/services/grading_service.py]

    A shallow embedding of the parts of [ExamGrader] and [run_grading_task]
    that decide how a model answer becomes a score: the response parser, the
    per-provider call, the structure analysis fallback, the point-value
    resolution, the score aggregation, the task status and the provider
    listing.

    Conventions of the embedding.
    - A Python [str] is the list of its Unicode code points ([str := list N]);
      literals of the source are written [u "..."] and decoded from UTF-8;
      in [jtext "..."] an apostrophe stands for the double quote of JSON.
    - Python values that travel through [json.loads] and the result
      dictionaries are the type [pyval]; a [dict] is an association list
      in insertion order, as Python keeps it.
    - A Python [float] is an exact rational, or one of [inf], [-inf], [nan]
      ([pyfloat]); the rounding error of binary floating point is not
      modelled.
    - Code that can raise returns in [res]; [try]/[except] is a match on it.
    - Network calls, image processing and the file system are inputs of the
      model (records of outcomes); logging and progress messages are left out.
    - Three pieces of Python that the module only calls are parameters:
      [float] applied to a [str], the regular-expression clean-up of the
      analysis text, and [str()] of floats, lists and dicts. *)

From Stdlib Require Import ZArith NArith QArith Qround Qabs Qminmax List String Ascii Bool Lia Lqa.
From Stdlib Require Import DecimalString DecimalZ.
Import ListNotations.

Local Close Scope Q_scope.
Local Open Scope Z_scope.

(* ===================================================================== *)
(** * Python strings *)
(* ===================================================================== *)

Module PyStr.

(** A character is a code point, a string the list of its characters. *)
Definition char := N.
Definition str := list char.

Definition bytes_of (s : string) : list N :=
  map N_of_ascii (list_ascii_of_string s).

(** UTF-8 decoding of a source literal (well-formed input only). *)
Fixpoint utf8_decode (l : list N) : str :=
  match l with
  | [] => []
  | b :: t =>
    if (b <? 128)%N then b :: utf8_decode t
    else if (b <? 224)%N then
      match t with
      | c1 :: t1 => ((b - 192) * 64 + (c1 - 128))%N :: utf8_decode t1
      | _ => []
      end
    else if (b <? 240)%N then
      match t with
      | c1 :: c2 :: t2 =>
        ((b - 224) * 4096 + (c1 - 128) * 64 + (c2 - 128))%N :: utf8_decode t2
      | _ => []
      end
    else
      match t with
      | c1 :: c2 :: c3 :: t3 =>
        ((b - 240) * 262144 + (c1 - 128) * 4096 + (c2 - 128) * 64 + (c3 - 128))%N
          :: utf8_decode t3
      | _ => []
      end
  end.

Definition u (s : string) : str := utf8_decode (bytes_of s).

(** A literal in which every apostrophe stands for the double quote, for
    the JSON texts of the examples. *)
Definition jtext (s : string) : str :=
  map (fun c => if (c =? 39)%N then 34%N else c) (u s).

Definition chr (s : string) : char :=
  match u s with c :: _ => c | [] => 0%N end.

Fixpoint str_eqb (a b : str) : bool :=
  match a, b with
  | [], [] => true
  | x :: a', y :: b' => (x =? y)%N && str_eqb a' b'
  | _, _ => false
  end.

(** [s.startswith(p)] *)
Fixpoint startswith (p s : str) : bool :=
  match p, s with
  | [], _ => true
  | x :: p', y :: s' => (x =? y)%N && startswith p' s'
  | _ :: _, [] => false
  end.

(** [sub in s] for two strings. *)
Fixpoint contains (sub s : str) : bool :=
  startswith sub s ||
  match s with
  | [] => false
  | _ :: t => contains sub t
  end.

(** [s.find(c)] for a one-character needle: the first index, or -1. *)
Fixpoint find_from (c : char) (s : str) (i : Z) : Z :=
  match s with
  | [] => -1
  | x :: t => if (x =? c)%N then i else find_from c t (i + 1)
  end.

Definition find (c : char) (s : str) : Z := find_from c s 0.

(** [s.rfind(c)]: the last index, or -1. *)
Fixpoint rfind_from (c : char) (s : str) (i : Z) : Z :=
  match s with
  | [] => -1
  | x :: t =>
    let r := rfind_from c t (i + 1) in
    if r =? -1 then (if (x =? c)%N then i else -1) else r
  end.

Definition rfind (c : char) (s : str) : Z := rfind_from c s 0.

(** [s.count(c)] *)
Fixpoint count (c : char) (s : str) : nat :=
  match s with
  | [] => O
  | x :: t => if (x =? c)%N then S (count c t) else count c t
  end.

(** [s[a:b]] and [s[a:]] for indices that are not negative. *)
Definition slice (s : str) (a b : Z) : str :=
  firstn (Z.to_nat (b - a)) (skipn (Z.to_nat a) s).

Definition slice_from (s : str) (a : Z) : str := skipn (Z.to_nat a) s.

(** The characters [str.isspace] accepts; [rstrip()], [strip()] and the
    pattern [\s] all use this set. *)
Definition isspace (c : char) : bool :=
  ((9 <=? c) && (c <=? 13) || (28 <=? c) && (c <=? 32)
   || (c =? 133) || (c =? 160) || (c =? 5760)
   || (8192 <=? c) && (c <=? 8202)
   || (c =? 8232) || (c =? 8233) || (c =? 8239) || (c =? 8287)
   || (c =? 12288))%N.

Fixpoint lstrip (s : str) : str :=
  match s with
  | [] => []
  | c :: t => if isspace c then lstrip t else s
  end.

Fixpoint rstrip (s : str) : str :=
  match s with
  | [] => []
  | c :: t =>
    match rstrip t with
    | [] => if isspace c then [] else [c]
    | t' => c :: t'
    end
  end.

Definition strip (s : str) : str := lstrip (rstrip s).

(** [s.replace(a, b)] for a one-character [a]. *)
Fixpoint replace_char (a : char) (b : str) (s : str) : str :=
  match s with
  | [] => []
  | x :: t => if (x =? a)%N then b ++ replace_char a b t else x :: replace_char a b t
  end.

(** [c * n] *)
Fixpoint repeat_char (c : char) (n : nat) : str :=
  match n with
  | O => []
  | S k => c :: repeat_char c k
  end.

(** [str(n)] for an [int]. *)
Definition str_of_Z (z : Z) : str :=
  bytes_of (NilZero.string_of_int (Z.to_int z)).

Definition str_of_nat (n : nat) : str := str_of_Z (Z.of_nat n).

End PyStr.
Import PyStr.

(* ===================================================================== *)
(** * Exceptions *)
(* ===================================================================== *)

(** The exception classes the modelled code can meet. *)
Inductive exn : Type :=
| KeyError | TypeError | AttributeError | ValueError | OverflowError
| ZeroDivisionError | OSError.

Inductive res (A : Type) : Type :=
| Ok (a : A)
| Raise (e : exn).

Arguments Ok {A} a.
Arguments Raise {A} e.

Definition bind {A B : Type} (c : res A) (k : A -> res B) : res B :=
  match c with
  | Ok a => k a
  | Raise e => Raise e
  end.

Notation "x <- c ;; k" := (bind c (fun x => k))
  (at level 61, c at next level, right associativity).

(** [for x in l: body] where the body can raise and updates an accumulator. *)
Fixpoint for_each {A S : Type} (l : list A) (body : S -> A -> res S) (s : S) : res S :=
  match l with
  | [] => Ok s
  | x :: t => s' <- body s x ;; for_each t body s'
  end.

(* ===================================================================== *)
(** * Python numbers *)
(* ===================================================================== *)

Module PyNum.

(** A [float]: a finite value, or one of the three special values. *)
Inductive pyfloat : Type :=
| Fin (q : Q)
| PInf
| NInf
| NaN.

Definition Qltb (x y : Q) : bool := negb (Qle_bool y x).

(** [a < b] and [a <= b]; every comparison with [nan] is false. *)
Definition pf_ltb (a b : pyfloat) : bool :=
  match a, b with
  | NaN, _ | _, NaN => false
  | Fin x, Fin y => Qltb x y
  | NInf, NInf => false
  | NInf, _ => true
  | _, NInf => false
  | PInf, _ => false
  | Fin _, PInf => true
  end.

Definition pf_leb (a b : pyfloat) : bool :=
  match a, b with
  | NaN, _ | _, NaN => false
  | Fin x, Fin y => Qle_bool x y
  | NInf, _ => true
  | _, NInf => false
  | _, PInf => true
  | PInf, Fin _ => false
  end.

Definition pf_zero : pyfloat := Fin (0 # 1).
Definition pf_of_Z (z : Z) : pyfloat := Fin (inject_Z z).
Definition pf_of_nat (n : nat) : pyfloat := pf_of_Z (Z.of_nat n).

(** The builtins [min(a, b)] and [max(a, b)]: the first argument stays
    unless the second compares strictly better. *)
Definition py_min (a b : pyfloat) : pyfloat := if pf_ltb b a then b else a.
Definition py_max (a b : pyfloat) : pyfloat := if pf_ltb a b then b else a.

Definition pf_add (a b : pyfloat) : pyfloat :=
  match a, b with
  | NaN, _ | _, NaN => NaN
  | Fin x, Fin y => Fin (x + y)%Q
  | PInf, NInf | NInf, PInf => NaN
  | PInf, _ | _, PInf => PInf
  | NInf, _ | _, NInf => NInf
  end.

Definition pf_neg (a : pyfloat) : pyfloat :=
  match a with
  | Fin x => Fin (- x)%Q
  | PInf => NInf
  | NInf => PInf
  | NaN => NaN
  end.

(** Sign of a finite value, used by the products with an infinity. *)
Definition inf_times (pos : bool) (x : Q) : pyfloat :=
  if Qeq_bool x 0 then NaN
  else if Qltb 0 x then (if pos then PInf else NInf)
  else (if pos then NInf else PInf).

Definition pf_mul (a b : pyfloat) : pyfloat :=
  match a, b with
  | NaN, _ | _, NaN => NaN
  | Fin x, Fin y => Fin (x * y)%Q
  | PInf, Fin y => inf_times true y
  | NInf, Fin y => inf_times false y
  | Fin x, PInf => inf_times true x
  | Fin x, NInf => inf_times false x
  | PInf, PInf | NInf, NInf => PInf
  | PInf, NInf | NInf, PInf => NaN
  end.

(** [a / b]; a zero divisor raises. *)
Definition pf_div (a b : pyfloat) : res pyfloat :=
  match a, b with
  | _, Fin y =>
    if Qeq_bool y 0 then Raise ZeroDivisionError
    else match a with
         | Fin x => Ok (Fin (x / y)%Q)
         | PInf => Ok (if Qltb 0 y then PInf else NInf)
         | NInf => Ok (if Qltb 0 y then NInf else PInf)
         | NaN => Ok NaN
         end
  | NaN, _ | _, NaN => Ok NaN
  | Fin _, _ => Ok pf_zero
  | _, _ => Ok NaN
  end.

(** [round(x)] on a finite value: to the nearest integer, ties to even. *)
Definition round_half_even (q : Q) : Z :=
  let f := Qfloor q in
  match Qcompare (q - inject_Z f)%Q (1 # 2) with
  | Lt => f
  | Gt => f + 1
  | Eq => if Z.even f then f else f + 1
  end.

(** [round(x)]: [nan] raises [ValueError], an infinity [OverflowError]. *)
Definition py_round (a : pyfloat) : res Z :=
  match a with
  | Fin q => Ok (round_half_even q)
  | NaN => Raise ValueError
  | PInf | NInf => Raise OverflowError
  end.

End PyNum.
Import PyNum.

(* ===================================================================== *)
(** * Dictionaries and values *)
(* ===================================================================== *)

(** A [dict] with [str] keys, in insertion order. *)
Definition dict (V : Type) : Type := list (str * V).

Fixpoint dict_get {V : Type} (k : str) (d : dict V) : option V :=
  match d with
  | [] => None
  | (k', v) :: t => if str_eqb k k' then Some v else dict_get k t
  end.

(** [d[k] = v]: an existing key keeps its place, a new one goes last. *)
Fixpoint dict_set {V : Type} (k : str) (v : V) (d : dict V) : dict V :=
  match d with
  | [] => [(k, v)]
  | (k', v') :: t =>
    if str_eqb k k' then (k', v) :: t else (k', v') :: dict_set k v t
  end.

Definition dict_mem {V : Type} (k : str) (d : dict V) : bool :=
  match dict_get k d with
  | Some _ => true
  | None => false
  end.

Definition dict_keys {V : Type} (d : dict V) : list str := map fst d.
Definition dict_values {V : Type} (d : dict V) : list V := map snd d.

(** [dict(pairs)] *)
Definition dict_of_pairs {V : Type} (l : list (str * V)) : dict V :=
  fold_left (fun d kv => dict_set (fst kv) (snd kv) d) l [].

(** The values of the model: what [json.loads] builds and what the result
    dictionaries hold. *)
#[warnings="-register-all"]
Inductive pyval : Type :=
| PNone
| PBool (b : bool)
| PInt (z : Z)
| PFloat (f : pyfloat)
| PStr (s : str)
| PList (l : list pyval)
| PDict (d : list (str * pyval)).

(** Truth value of an object, as [if x:] and [not x] test it. *)
Definition truthy (v : pyval) : bool :=
  match v with
  | PNone => false
  | PBool b => b
  | PInt z => negb (z =? 0)
  | PFloat (Fin q) => negb (Qeq_bool q 0)
  | PFloat _ => true
  | PStr s => match s with [] => false | _ => true end
  | PList l => match l with [] => false | _ => true end
  | PDict d => match d with [] => false | _ => true end
  end.

Definition is_none (v : pyval) : bool :=
  match v with PNone => true | _ => false end.

(** [d.get(k)] and [d.get(k, default)] on a dict. *)
Definition get (k : str) (d : dict pyval) : pyval :=
  match dict_get k d with
  | Some v => v
  | None => PNone
  end.

Definition get_default (k : str) (dflt : pyval) (d : dict pyval) : pyval :=
  match dict_get k d with
  | Some v => v
  | None => dflt
  end.

(** [d[k]] *)
Definition subscript (k : str) (d : dict pyval) : res pyval :=
  match dict_get k d with
  | Some v => Ok v
  | None => Raise KeyError
  end.

(** [x.get]: only a dict has the method. *)
Definition as_dict (v : pyval) : res (dict pyval) :=
  match v with
  | PDict d => Ok d
  | _ => Raise AttributeError
  end.

(** The number a value stands for in arithmetic ([bool] is an [int]). *)
Definition num_of (v : pyval) : option pyfloat :=
  match v with
  | PBool b => Some (pf_of_Z (if b then 1 else 0))
  | PInt z => Some (pf_of_Z z)
  | PFloat f => Some f
  | _ => None
  end.

(** [for x in v]: a list gives its items, a str its characters, a dict its
    keys; other values are not iterable. *)
Definition py_iter (v : pyval) : res (list pyval) :=
  match v with
  | PList l => Ok l
  | PStr s => Ok (map (fun c => PStr [c]) s)
  | PDict d => Ok (map (fun kv => PStr (fst kv)) d)
  | _ => Raise TypeError
  end.

(** [key in v] for a str [key]. *)
Definition py_in (key : str) (v : pyval) : res bool :=
  match v with
  | PStr s => Ok (contains key s)
  | PList l =>
    Ok (existsb (fun x => match x with PStr s => str_eqb key s | _ => false end) l)
  | PDict d => Ok (dict_mem key d)
  | _ => Raise TypeError
  end.

(* ===================================================================== *)
(** * [json.loads] *)
(* ===================================================================== *)

(** The decoder of the standard library, as [try_parse] and
    [extract_json_from_text] call it.  [None] stands for [JSONDecodeError].
    Numbers are exact; nesting depth and integer size are not bounded. *)
Module Json.

Definition is_ws (c : char) : bool :=
  ((c =? 32) || (c =? 9) || (c =? 10) || (c =? 13))%N.

Fixpoint skip_ws (s : str) : str :=
  match s with
  | [] => []
  | c :: t => if is_ws c then skip_ws t else s
  end.

Definition is_digit (c : char) : bool := ((48 <=? c) && (c <=? 57))%N.

Fixpoint span_digits (s : str) : list char * str :=
  match s with
  | [] => ([], [])
  | c :: t =>
    if is_digit c then let (ds, r) := span_digits t in (c :: ds, r)
    else ([], s)
  end.

Definition Z_of_digits (ds : list char) : Z :=
  fold_left (fun acc d => acc * 10 + Z.of_N (d - 48)) ds 0.

(** The value of [mant * 10 ^ e]. *)
Definition scale10 (mant e : Z) : Q :=
  if 0 <=? e then inject_Z (mant * 10 ^ e)
  else Qred (Qmake mant (Z.to_pos (10 ^ (- e)))).

(** A number at the head of [s], as [NUMBER_RE] matches it: an optional
    minus sign, then a single zero or a digit string without leading zero;
    then optionally a dot and at least one digit; then optionally [e] or [E],
    an optional sign and at least one digit. *)
Definition scan_number (s : str) : option (pyval * str) :=
  let (neg, s1) :=
    match s with
    | c :: t => if (c =? 45)%N then (true, t) else (false, s)
    | [] => (false, s)
    end in
  let int_part : option (list char * str) :=
    match s1 with
    | c :: t =>
      if (c =? 48)%N then Some ([c], t)
      else if is_digit c then Some (span_digits s1)
      else None
    | [] => None
    end in
  match int_part with
  | None => None
  | Some (ids, r1) =>
    let (fds, r2) :=
      match r1 with
      | c :: t =>
        if (c =? 46)%N then
          match span_digits t with
          | ([], _) => ([], r1)
          | (ds, r) => (ds, r)
          end
        else ([], r1)
      | [] => ([], r1)
      end in
    let '(has_exp, ex, r3) :=
      match r2 with
      | c :: t =>
        if ((c =? 101) || (c =? 69))%N then
          let (sgn, t') :=
            match t with
            | c' :: t'' =>
              if (c' =? 45)%N then (-1, t'')
              else if (c' =? 43)%N then (1, t'')
              else (1, t)
            | [] => (1, t)
            end in
          match span_digits t' with
          | ([], _) => (false, 0, r2)
          | (ds, r) => (true, sgn * Z_of_digits ds, r)
          end
        else (false, 0, r2)
      | [] => (false, 0, r2)
      end in
    let sign := if neg then -1 else 1 in
    match fds, has_exp with
    | [], false => Some (PInt (sign * Z_of_digits ids), r3)
    | _, _ =>
      let mant := sign * Z_of_digits (ids ++ fds) in
      Some (PFloat (Fin (scale10 mant (ex - Z.of_nat (List.length fds)))), r3)
    end
  end.

Definition hex_val (c : char) : option N :=
  if ((48 <=? c) && (c <=? 57))%N then Some (c - 48)%N
  else if ((97 <=? c) && (c <=? 102))%N then Some (c - 87)%N
  else if ((65 <=? c) && (c <=? 70))%N then Some (c - 55)%N
  else None.

Definition hex4 (a b c d : char) : option N :=
  match hex_val a, hex_val b, hex_val c, hex_val d with
  | Some x, Some y, Some z, Some w => Some (x * 4096 + y * 256 + z * 16 + w)%N
  | _, _, _, _ => None
  end.

Definition escape_char (e : char) : option char :=
  if (e =? 34)%N then Some 34%N
  else if (e =? 92)%N then Some 92%N
  else if (e =? 47)%N then Some 47%N
  else if (e =? 98)%N then Some 8%N
  else if (e =? 102)%N then Some 12%N
  else if (e =? 110)%N then Some 10%N
  else if (e =? 114)%N then Some 13%N
  else if (e =? 116)%N then Some 9%N
  else None.

(** The body of a string, after its opening quote; [acc] holds the decoded
    characters in reverse.  In strict mode a control character is an error. *)
Fixpoint scan_string (strict : bool) (s : str) (acc : str) : option (str * str) :=
  match s with
  | [] => None
  | c :: t =>
    if (c =? 34)%N then Some (rev acc, t)
    else if (c =? 92)%N then
      match t with
      | [] => None
      | e :: t' =>
        if (e =? 117)%N then
          match t' with
          | h1 :: h2 :: h3 :: h4 :: t4 =>
            match hex4 h1 h2 h3 h4 with
            | None => None
            | Some uni =>
              if ((55296 <=? uni) && (uni <=? 56319))%N then
                match t4 with
                | b1 :: b2 :: g1 :: g2 :: g3 :: g4 :: t10 =>
                  if ((b1 =? 92) && (b2 =? 117))%N then
                    match hex4 g1 g2 g3 g4 with
                    | None => None
                    | Some lo =>
                      if ((56320 <=? lo) && (lo <=? 57343))%N then
                        scan_string strict t10
                          ((65536 + (uni - 55296) * 1024 + (lo - 56320))%N :: acc)
                      else scan_string strict t4 (uni :: acc)
                    end
                  else scan_string strict t4 (uni :: acc)
                | _ => scan_string strict t4 (uni :: acc)
                end
              else scan_string strict t4 (uni :: acc)
            end
          | _ => None
          end
        else
          match escape_char e with
          | Some x => scan_string strict t' (x :: acc)
          | None => None
          end
      end
    else if (c <? 32)%N then
      if strict then None else scan_string strict t (c :: acc)
    else scan_string strict t (c :: acc)
  end.

(** [scan_once], the object loop and the array loop. *)
Fixpoint parse_value (fuel : nat) (strict : bool) (s : str) : option (pyval * str) :=
  match fuel with
  | O => None
  | S f =>
    match s with
    | [] => None
    | c :: t =>
      if (c =? 34)%N then
        match scan_string strict t [] with
        | Some (x, r) => Some (PStr x, r)
        | None => None
        end
      else if (c =? 123)%N then
        match skip_ws t with
        | c' :: r =>
          if (c' =? 125)%N then Some (PDict [], r)
          else if (c' =? 34)%N then parse_members f strict r []
          else None
        | [] => None
        end
      else if (c =? 91)%N then
        match skip_ws t with
        | c' :: r =>
          if (c' =? 93)%N then Some (PList [], r)
          else parse_elements f strict (c' :: r) []
        | [] => None
        end
      else if startswith (u "null") s then Some (PNone, skipn 4 s)
      else if startswith (u "true") s then Some (PBool true, skipn 4 s)
      else if startswith (u "false") s then Some (PBool false, skipn 5 s)
      else
        match scan_number s with
        | Some r => Some r
        | None =>
          if startswith (u "NaN") s then Some (PFloat NaN, skipn 3 s)
          else if startswith (u "Infinity") s then Some (PFloat PInf, skipn 8 s)
          else if startswith (u "-Infinity") s then Some (PFloat NInf, skipn 9 s)
          else None
        end
    end
  end

with parse_members (fuel : nat) (strict : bool) (s : str)
                   (acc : list (str * pyval)) : option (pyval * str) :=
  match fuel with
  | O => None
  | S f =>
    match scan_string strict s [] with
    | None => None
    | Some (key, r0) =>
      match skip_ws r0 with
      | c :: r1 =>
        if (c =? 58)%N then
          match parse_value f strict (skip_ws r1) with
          | None => None
          | Some (v, r2) =>
            match skip_ws r2 with
            | c' :: r3 =>
              if (c' =? 125)%N then
                Some (PDict (dict_of_pairs (rev ((key, v) :: acc))), r3)
              else if (c' =? 44)%N then
                match skip_ws r3 with
                | q :: r4 =>
                  if (q =? 34)%N then parse_members f strict r4 ((key, v) :: acc)
                  else None
                | [] => None
                end
              else None
            | [] => None
            end
          end
        else None
      | [] => None
      end
    end
  end

with parse_elements (fuel : nat) (strict : bool) (s : str)
                    (acc : list pyval) : option (pyval * str) :=
  match fuel with
  | O => None
  | S f =>
    match parse_value f strict s with
    | None => None
    | Some (v, r0) =>
      match skip_ws r0 with
      | c :: r1 =>
        if (c =? 93)%N then Some (PList (rev (v :: acc)), r1)
        else if (c =? 44)%N then parse_elements f strict (skip_ws r1) (v :: acc)
        else None
      | [] => None
      end
    end
  end.

(** [json.loads(s, strict=...)]: one value, white space around it, nothing
    else; a leading byte-order mark is refused. *)
Definition loads (strict : bool) (s : str) : option pyval :=
  match s with
  | c :: _ => if (c =? 65279)%N then None
              else
                match parse_value (S (List.length s)) strict (skip_ws s) with
                | Some (v, r) => match skip_ws r with [] => Some v | _ => None end
                | None => None
                end
  | [] => None
  end.

End Json.

(* ===================================================================== *)
(** * Fenced code blocks *)
(* ===================================================================== *)

(** [re.findall(code_block_pattern, text, re.IGNORECASE)] for the pattern of
    [parse_grading_response] and [extract_json_from_text]: three backticks,
    an optional [json] in any case, white space, the shortest body that is
    followed by white space and three backticks.  The result lists the
    bodies. *)
Module CodeBlocks.

Definition fence : str := u "```".

Definition is_j (c : char) : bool := ((c =? 106) || (c =? 74))%N.
Definition is_s (c : char) : bool := ((c =? 115) || (c =? 83) || (c =? 383))%N.
Definition is_o (c : char) : bool := ((c =? 111) || (c =? 79))%N.
Definition is_n (c : char) : bool := ((c =? 110) || (c =? 78))%N.

(** The optional language tag. *)
Definition skip_json (s : str) : str :=
  match s with
  | a :: b :: c :: d :: t =>
    if is_j a && is_s b && is_o c && is_n d then t else s
  | _ => s
  end.

(** The text before the first fence of [s], and the text after that fence. *)
Fixpoint split_at_fence (s : str) : option (str * str) :=
  match s with
  | [] => None
  | c :: t =>
    if startswith fence s then Some ([], skipn 3 s)
    else
      match split_at_fence t with
      | Some (a, b) => Some (c :: a, b)
      | None => None
      end
  end.

(** Matches are searched left to right and do not overlap: after a match the
    scan goes on behind its closing fence, otherwise one character on. *)
Fixpoint findall_from (fuel : nat) (s : str) : list str :=
  match fuel with
  | O => []
  | S f =>
    match s with
    | [] => []
    | _ :: t =>
      if startswith fence s then
        match split_at_fence (lstrip (skip_json (skipn 3 s))) with
        | Some (body, rest) => rstrip body :: findall_from f rest
        | None => findall_from f t
        end
      else findall_from f t
    end
  end.

Definition findall (s : str) : list str := findall_from (List.length s) s.

(** [sorted(code_blocks, key=len, reverse=True)]: longest first, blocks of
    equal length in their order of appearance. *)
Fixpoint insert_block (b : str) (l : list str) : list str :=
  match l with
  | [] => [b]
  | x :: t =>
    if (List.length x <=? List.length b)%nat then b :: l
    else x :: insert_block b t
  end.

Definition sorted_blocks (l : list str) : list str := fold_right insert_block [] l.

End CodeBlocks.

(* ===================================================================== *)
(** * ResponseParser: [ExamGrader.parse_grading_response] *)
(* ===================================================================== *)

Definition lbrace : char := chr "{".
Definition rbrace : char := chr "}".
Definition quote : char := 34%N.

Section Parser.

(** [float(s)] for a [str] ([None]: [ValueError]), and the substitutions and
    final [strip()] of [clean_analysis] on a [str]. *)
Variable float_of_str : str -> option pyfloat.
Variable clean_text : str -> str.

(** [float(x)] *)
Definition py_float (v : pyval) : res pyfloat :=
  match v with
  | PBool _ | PInt _ | PFloat _ =>
    match num_of v with
    | Some f => Ok f
    | None => Raise TypeError
    end
  | PStr s =>
    match float_of_str s with
    | Some f => Ok f
    | None => Raise ValueError
    end
  | _ => Raise TypeError
  end.

(** [clean_analysis]: a falsy argument gives the empty string; the
    [replace] method exists on a [str] only. *)
Definition clean_analysis (analysis_text : pyval) : res pyval :=
  if negb (truthy analysis_text) then Ok (PStr [])
  else
    match analysis_text with
    | PStr s => Ok (PStr (clean_text s))
    | _ => Raise AttributeError
    end.

(** [try_parse]: [None] when the decoder refuses the text. *)
Definition try_parse (text : str) : pyval :=
  match Json.loads false (replace_char 9%N (u "\t") text) with
  | Some v => v
  | None => PNone
  end.

(** [max(0, min(score, max_score))] *)
Definition clamp_score (score max_score : pyfloat) : pyval :=
  let m := py_min score max_score in
  if pf_ltb pf_zero m then PFloat m else PInt 0.

(** [process_result]: [PNone] is Python's [None]. *)
Definition process_result (max_score : pyfloat) (result : pyval) : res pyval :=
  if negb (truthy result) then Ok PNone
  else
    match result with
    | PDict d =>
      let d1 :=
        if dict_mem (u "score") d then
          match py_float (get (u "score") d) with
          | Ok score => dict_set (u "score") (clamp_score score max_score) d
          | Raise _ => dict_set (u "score") (PInt 0) d
          end
        else d in
      if dict_mem (u "analysis") d1 then
        a <- clean_analysis (get (u "analysis") d1) ;;
        Ok (PDict (dict_set (u "analysis") a d1))
      else Ok (PDict d1)
    | _ => Ok PNone
    end.

(** The loop over the code blocks; [Some v]: the function returned [v]. *)
Fixpoint try_blocks (max_score : pyfloat) (blocks : list str) : res (option pyval) :=
  match blocks with
  | [] => Ok None
  | block :: rest =>
    let start := find lbrace block in
    let end_ := rfind rbrace block in
    if negb (start =? -1) && (start <? end_) then
      let r := try_parse (slice block start (end_ + 1)) in
      if truthy r then
        valid_res <- process_result max_score r ;;
        if truthy valid_res then Ok (Some valid_res)
        else try_blocks max_score rest
      else try_blocks max_score rest
    else try_blocks max_score rest
  end.

(** The second attempt, inside [try: ... except:]; it either returns a
    value or leaves [json_str] for the repair. *)
Definition outer_braces (max_score : pyfloat) (response_text : str)
  : option pyval * str :=
  let start_idx := find lbrace response_text in
  if negb (start_idx =? -1) then
    let end_idx := rfind rbrace response_text in
    if negb (end_idx =? -1) && (start_idx <? end_idx) then
      let json_str := slice response_text start_idx (end_idx + 1) in
      let r := try_parse json_str in
      if truthy r then
        match process_result max_score r with
        | Ok valid_res =>
          if truthy valid_res then (Some valid_res, json_str) else (None, json_str)
        | Raise _ => (None, response_text)
        end
      else (None, json_str)
    else (None, slice_from response_text start_idx)
  else (None, response_text).

(** The repair of a truncated object: one quote if their number is odd, then
    as many closing braces as are missing. *)
Definition repair (json_str : str) : str :=
  let s1 := rstrip json_str in
  let s2 := if Nat.odd (count quote s1) then s1 ++ [quote] else s1 in
  let open_braces := count lbrace s2 in
  let close_braces := count rbrace s2 in
  if (close_braces <? open_braces)%nat
  then s2 ++ repeat_char rbrace (open_braces - close_braces)
  else s2.

Definition parse_grading_response (response_text : str) (max_score : pyfloat)
  : res pyval :=
  found <- try_blocks max_score
             (CodeBlocks.sorted_blocks (CodeBlocks.findall response_text)) ;;
  match found with
  | Some v => Ok v
  | None =>
    match outer_braces max_score response_text with
    | (Some v, _) => Ok v
    | (None, json_str) =>
      let r := try_parse (repair json_str) in
      if truthy r then process_result max_score r else Ok PNone
    end
  end.

(** [extract_json_from_text]: every [json.loads] here is strict, and every
    failure is swallowed. *)
Definition first_loads (candidates : list str) : option pyval :=
  fold_right (fun c later =>
                match Json.loads true c with
                | Some v => Some v
                | None => later
                end) None candidates.

Definition braces_slice (text : str) : list str :=
  let start := find lbrace text in
  let end_ := rfind rbrace text in
  if negb (start =? -1) && negb (end_ =? -1) && (start <? end_)
  then [slice text start (end_ + 1)]
  else [].

Definition extract_json_from_text (text : str) : pyval :=
  match text with
  | [] => PNone
  | _ =>
    match Json.loads true text with
    | Some v => v
    | None =>
      match first_loads (CodeBlocks.findall text) with
      | Some v => v
      | None =>
        match first_loads (braces_slice text) with
        | Some v => v
        | None =>
          match first_loads (braces_slice (replace_char 65306%N (u ":") text)) with
          | Some v => v
          | None => PNone
          end
        end
      end
    end
  end.

End Parser.

(* ===================================================================== *)
(** * The world outside the process *)
(* ===================================================================== *)

(** What a provider answers to one request: a text, or an exception. *)
Inductive provider_reply : Type :=
| Reply (content : str)
| CallRaises (e : exn).

(** What one [os.remove] does. *)
Inductive rm_outcome : Type :=
| Removed
| PermissionDenied
| RemoveFails (e : exn).

(** The inputs of one call of [grade_with_model]: whether preprocessing the
    image succeeds, the provider's answer, and what successive [os.remove]
    calls would do. *)
Record call_env : Type := {
  preprocess : res unit;
  reply : provider_reply;
  removals : list rm_outcome
}.

(** The processed-image artifact [temp_<image name>] and what happened to
    it, most recent event last. *)
Inductive fs_event : Type :=
| WriteTemp
| RemoveAttempt (o : rm_outcome)
| Sleep
| WarnCleanup.

Record fs : Type := {
  temp_exists : bool;
  trace : list fs_event
}.

Definition fs_init : fs := {| temp_exists := false; trace := [] |}.

Definition log_event (e : fs_event) (w : fs) : fs :=
  {| temp_exists := temp_exists w; trace := trace w ++ [e] |}.

Definition write_temp (w : fs) : fs :=
  {| temp_exists := true; trace := trace w ++ [WriteTemp] |}.

(** [for _ in range(n): try: os.remove(temp_path); break
     except PermissionError: time.sleep(0.5)]
    The result carries the exception that left the loop, if one did.  An
    outcome list that runs out stands for a removal that succeeds. *)
Fixpoint remove_loop (n : nat) (outcomes : list rm_outcome) (w : fs)
  : fs * option exn :=
  match n with
  | O => (w, None)
  | S k =>
    match outcomes with
    | [] | Removed :: _ =>
      ({| temp_exists := false; trace := trace w ++ [RemoveAttempt Removed] |}, None)
    | PermissionDenied :: rest =>
      remove_loop k rest (log_event Sleep (log_event (RemoveAttempt PermissionDenied) w))
    | RemoveFails e :: _ =>
      (log_event (RemoveAttempt (RemoveFails e)) w, Some e)
    end
  end.

(** The clean-up of the [except] branch of [grade_with_model]:
    [try: if os.path.exists(temp_path): <loop> except Exception: warning]. *)
Definition cleanup (outcomes : list rm_outcome) (w : fs) : fs :=
  if temp_exists w then
    match remove_loop 3 outcomes w with
    | (w', None) => w'
    | (w', Some _) => log_event WarnCleanup w'
    end
  else w.

(* ===================================================================== *)
(** * ProviderGateway: [ExamGrader.grade_with_model] *)
(* ===================================================================== *)

Section Gateway.

Variable float_of_str : str -> option pyfloat.
Variable clean_text : str -> str.
(** [str(e)] for an exception. *)
Variable exn_text : exn -> str.

Definition failure_result (error comment : str) : dict pyval :=
  [ (u "success", PBool false);
    (u "error", PStr error);
    (u "score", PInt 0);
    (u "is_correct", PBool false);
    (u "comment", PStr comment) ].

(** The provider families, chosen by the prefix of the model name. *)
Inductive family : Type := Qwen | Claude | Gemini | Glm.

Definition family_of (model_name : str) : option family :=
  if startswith (u "qwen") model_name then Some Qwen
  else if startswith (u "claude") model_name then Some Claude
  else if startswith (u "gemini") model_name then Some Gemini
  else if startswith (u "glm") model_name then Some Glm
  else None.

(** The text a provider call yields.  The Gemini branch catches the
    exceptions of its own request and strips the answer. *)
Definition provider_content (f : family) (r : provider_reply) : res str :=
  match f, r with
  | Gemini, Reply c => Ok (strip c)
  | Gemini, CallRaises _ => Ok []
  | _, Reply c => Ok c
  | _, CallRaises e => Raise e
  end.

(** The body of the [try] block, up to the [return]s; the file-system state
    is returned with the exception when one is raised. *)
Definition grade_try (model_name : str) (max_score : pyfloat) (env : call_env)
                     (w : fs) : res (dict pyval) * fs :=
  match preprocess env with
  | Raise e => (Raise e, w)
  | Ok _ =>
    let w1 := write_temp w in
    match family_of model_name with
    | None =>
      (Ok (failure_result (u "不支持的模型: " ++ model_name) (u "模型不支持")), w1)
    | Some f =>
      match provider_content f (reply env) with
      | Raise e => (Raise e, w1)
      | Ok content =>
        match parse_grading_response float_of_str clean_text content max_score with
        | Raise e => (Raise e, w1)
        | Ok PNone =>
          (Ok (failure_result (u "无法解析模型响应")
                              (u "模型未返回有效的JSON格式结果")), w1)
        | Ok (PDict result) =>
          (Ok (dict_set (u "success") (PBool true)
                 (dict_set (u "max_score") (PFloat max_score)
                    (dict_set (u "model_used") (PStr model_name) result))), w1)
        | Ok _ => (Raise TypeError, w1)
        end
      end
    end
  end.

Definition grade_with_model (api_keys : dict str) (model_name : str)
                            (max_score : pyfloat) (env : call_env) (w : fs)
  : dict pyval * fs :=
  if negb (dict_mem model_name api_keys) then
    (failure_result (u "未找到" ++ model_name ++ u "的API密钥") (u "API密钥未配置"), w)
  else
    match grade_try model_name max_score env w with
    | (Ok result, w') => (result, w')
    | (Raise e, w') =>
      (failure_result (u "批改失败: " ++ exn_text e) (u "模型调用异常: " ++ exn_text e),
       cleanup (removals env) w')
    end.

End Gateway.

(* ===================================================================== *)
(** * StructureAnalyzer: [analyze_exam_structure] and the question list *)
(* ===================================================================== *)

(** The inputs of the one discovery call: whether the image can be read and
    its artifact written, and the provider's answer. *)
Record structure_env : Type := {
  image_ok : res unit;
  s_reply : provider_reply
}.

Section Structure.

Variable float_of_str : str -> option pyfloat.
Variable clean_text : str -> str.
Variable exn_text : exn -> str.
(** [str(x)] for a float, a list or a dict. *)
Variable repr_other : pyval -> str.

Definition structure_failure (error : str) : dict pyval :=
  [ (u "success", PBool false); (u "error", PStr error) ].

(** From the provider's text to the returned dict: the body of the second
    [try] block of [analyze_exam_structure]. *)
Definition structure_of_content (content : str) : res (dict pyval) :=
  r <- parse_grading_response float_of_str clean_text content (pf_of_Z 100) ;;
  let result := if truthy r then r else extract_json_from_text content in
  if negb (truthy result) then Ok (structure_failure (u "无法解析模型响应为JSON"))
  else
    match result with
    | PDict d => Ok (dict_set (u "success") (PBool true) d)
    | _ => Raise TypeError
    end.

(** [analyze_exam_structure]; only a failure on the image escapes it.  The
    discovery call has branches for three families only. *)
Definition analyze_exam_structure (api_keys : dict str) (model_name : option str)
                                  (env : structure_env) : res (dict pyval) :=
  match dict_keys api_keys with
  | [] => Ok (structure_failure (u "没有可用的模型"))
  | first :: _ =>
    let name :=
      match model_name with
      | Some (c :: m) => if dict_mem (c :: m) api_keys then c :: m else first
      | _ => first
      end in
    _ <- image_ok env ;;
    let unsupported := Ok (structure_failure (u "不支持的模型: " ++ name)) in
    match family_of name with
    | None | Some Claude => unsupported
    | Some f =>
      match (content <- provider_content f (s_reply env) ;;
             structure_of_content content) with
      | Ok result => Ok result
      | Raise e => Ok (structure_failure (u "分析试卷结构失败: " ++ exn_text e))
      end
    end
  end.

(** [str(x)], as the f-string of [unique_id] and [str(qn)] use it. *)
Definition py_str (v : pyval) : str :=
  match v with
  | PStr s => s
  | PInt z => str_of_Z z
  | PNone => u "None"
  | PBool true => u "True"
  | PBool false => u "False"
  | _ => repr_other v
  end.

(** [range(a, b)] *)
Definition py_range (a b : Z) : list Z :=
  map (fun k => a + Z.of_nat k) (seq 0 (Z.to_nat (b - a))).

(** An operand that [range] accepts. *)
Definition py_index (v : pyval) : res Z :=
  match v with
  | PInt z => Ok z
  | PBool b => Ok (if b then 1 else 0)
  | _ => Raise TypeError
  end.

(** A synthetic, ungrouped question. *)
Definition numbered_question (label : str) : dict pyval :=
  [ (u "id", PStr label); (u "group", PNone);
    (u "unique_id", PStr label); (u "score", PNone) ].

Definition numbered_questions (n : Z) : list (dict pyval) :=
  map (fun i => numbered_question (str_of_Z i)) (py_range 1 (n + 1)).

(** The scan of the rules taken from the answer key: the first key that
    occurs in the group name gives the value. *)
Fixpoint match_text_scores (text_scores : dict pyfloat) (group_name : pyval)
  : res pyval :=
  match text_scores with
  | [] => Ok PNone
  | (key, score) :: rest =>
    b <- py_in key group_name ;;
    if b then Ok (PFloat score) else match_text_scores rest group_name
  end.

(** The hard-coded values per kind of section. *)
Definition category_default (group_name : pyval) : res pyval :=
  b1 <- py_in (u "选择") group_name ;;
  if b1 then Ok (PInt 3)
  else
    b2 <- py_in (u "填空") group_name ;;
    if b2 then Ok (PInt 2)
    else
      b3 <- py_in (u "判断") group_name ;;
      if b3 then Ok (PInt 2) else Ok PNone.

(** The point value kept in the question item ([q_score] at the end of the
    loop body). *)
Definition question_score (text_scores : dict pyfloat) (group_name : pyval)
                          (group_default_score : pyval) (q : dict pyval)
  : res pyval :=
  let s0 := get (u "score") q in
  let s1 := if is_none s0 then group_default_score else s0 in
  s2 <- (if is_none s1 && truthy group_name
         then match_text_scores text_scores group_name
         else Ok s1) ;;
  if is_none s2 then category_default group_name else Ok s2.

Definition group_question (text_scores : dict pyfloat) (group_name : pyval)
                          (group_default_score : pyval) (qv : pyval)
  : res (dict pyval) :=
  q <- as_dict qv ;;
  let q_id := get_default (u "id") (PStr []) q in
  let box_2d := get (u "box_2d") q in
  q_score <- question_score text_scores group_name group_default_score q ;;
  Ok [ (u "id", q_id); (u "group", group_name);
       (u "unique_id", PStr (py_str group_name ++ u "-" ++ py_str q_id));
       (u "box_2d", box_2d); (u "score", q_score) ].

Definition group_questions (text_scores : dict pyfloat)
                           (acc : list (dict pyval)) (gv : pyval)
  : res (list (dict pyval)) :=
  group <- as_dict gv ;;
  let group_name := get_default (u "name") (PStr (u "未知大题")) group in
  let group_default_score := get (u "default_score") group in
  qs <- py_iter (get_default (u "questions") (PList []) group) ;;
  for_each qs
    (fun acc q =>
       item <- group_question text_scores group_name group_default_score q ;;
       Ok (acc ++ [item]))
    acc.

(** [x > 0] for the value under [total_questions]. *)
Definition py_positive (v : pyval) : res bool :=
  match num_of v with
  | Some f => Ok (pf_ltb pf_zero f)
  | None => Raise TypeError
  end.

(** The question list of a successful analysis. *)
Definition questions_of_structure (text_scores : dict pyfloat)
                                  (structure_result : dict pyval)
  : res (list (dict pyval)) :=
  qs <- (if dict_mem (u "groups") structure_result then
           groups <- py_iter (get (u "groups") structure_result) ;;
           for_each groups (group_questions text_scores) []
         else
           total <- py_index (get_default (u "total_questions") (PInt 10)
                                          structure_result) ;;
           let dflt := PList (map (fun i => PStr (str_of_Z i)) (py_range 1 (total + 1))) in
           numbers <- py_iter (get_default (u "question_numbers") dflt structure_result) ;;
           Ok (map (fun qn => numbered_question (py_str qn)) numbers)) ;;
  match qs with
  | [] =>
    let total_qs := get_default (u "total_questions") (PInt 0) structure_result in
    pos <- py_positive total_qs ;;
    if pos then
      n <- py_index total_qs ;;
      Ok (numbered_questions n)
    else Ok []
  | _ => Ok qs
  end.

(** [questions_to_grade], from the question count or the analysis. *)
Definition questions_to_grade (text_scores : dict pyfloat)
                              (question_count : option Z)
                              (structure_result : res (dict pyval))
  : res (list (dict pyval)) :=
  match question_count with
  | Some n => Ok (numbered_questions n)
  | None =>
    sr <- structure_result ;;
    if negb (truthy (get_default (u "success") (PBool false) sr))
    then Ok (numbered_questions 10)
    else questions_of_structure text_scores sr
  end.

(** The point value a question is graded against: the item's own value as a
    float, or the caller's default when there is none or it is no number. *)
Definition resolve_max_score (score : pyval) (default_max_score : pyfloat) : pyfloat :=
  if is_none score then default_max_score
  else
    match py_float float_of_str score with
    | Ok f => f
    | Raise _ => default_max_score
    end.

End Structure.

(* ===================================================================== *)
(** * ScoreAggregator: [ExamGrader.combine_results_v2] *)
(* ===================================================================== *)

(** One entry of [details]. *)
Record detail : Type := {
  question_id : str;
  score : pyfloat;
  max_score : pyfloat;
  is_correct : bool;
  comment : str;
  analysis : pyval;
  model_scores : dict (dict pyval);
  box_2d : pyval;
  group_name : option str;
  sub_id : option str
}.

(** The returned dict of [combine_results_v2]. *)
Record exam_report : Type := {
  details : dict detail;
  total_score : pyfloat;
  max_total_score : pyfloat;
  accuracy : pyfloat;
  correct_count : nat;
  total_count : nat
}.

Section Aggregator.

Variable float_of_str : str -> option pyfloat.

(** [sum(scores)]: from the int 0, left to right. *)
Definition py_sum (scores : list pyval) : res pyfloat :=
  for_each scores
    (fun acc v =>
       match num_of v with
       | Some f => Ok (pf_add acc f)
       | None => Raise TypeError
       end)
    pf_zero.

(** [round(x * 2) / 2] *)
Definition round_to_half (x : pyfloat) : res pyfloat :=
  n <- py_round (pf_mul x (pf_of_Z 2)) ;;
  pf_div (pf_of_Z n) (pf_of_Z 2).

(** The per-question score, from the list of the providers' scores. *)
Definition final_score_of (scores : list pyval) (current_max_score : pyfloat)
  : res pyfloat :=
  match scores with
  | [] => Ok pf_zero
  | _ =>
    total <- py_sum scores ;;
    avg_score <- pf_div total (pf_of_nat (List.length scores)) ;;
    half <- round_to_half avg_score ;;
    Ok (py_max pf_zero (py_min half current_max_score))
  end.

Definition is_correct_of (final_score current_max_score : pyfloat) : bool :=
  pf_leb (pf_mul current_max_score (Fin (6 # 10))) final_score.

Definition comment_of (final_score current_max_score : pyfloat) : str :=
  if is_correct_of final_score current_max_score then u "正确"
  else if pf_leb (pf_mul current_max_score (Fin (5 # 10))) final_score then u "基本正确"
  else if pf_ltb pf_zero final_score then u "部分正确"
  else u "错误".

(** [len(x)] *)
Definition py_len (v : pyval) : res nat :=
  match v with
  | PStr s => Ok (List.length s)
  | PList l => Ok (List.length l)
  | PDict d => Ok (List.length d)
  | _ => Raise TypeError
  end.

(** The first provider analysis that is not empty. *)
Fixpoint first_analysis (results : list (dict pyval)) : pyval :=
  match results with
  | [] => PStr []
  | r :: rest =>
    if truthy (get (u "analysis") r) then get (u "analysis") r
    else first_analysis rest
  end.

(** Otherwise the longest comment, the earlier one on a tie. *)
Definition longest_comment (results : list (dict pyval)) : res pyval :=
  for_each results
    (fun analysis r =>
       let c := get (u "comment") r in
       if truthy c then
         lc <- py_len c ;;
         la <- py_len analysis ;;
         Ok (if (la <? lc)%nat then c else analysis)
       else Ok analysis)
    (PStr []).

Definition analysis_of (results : list (dict pyval)) : res pyval :=
  let a := first_analysis results in
  if truthy a then Ok a else longest_comment results.

(** [str(q_id).rsplit('-', 1)] when the id holds a dash. *)
Definition split_unique_id (q_id : str) : option str * option str :=
  let i := rfind (chr "-") q_id in
  if i =? -1 then (None, None)
  else (Some (slice q_id 0 i), Some (slice_from q_id (i + 1))).

(** [q_info_map]: the items with a truthy [unique_id], by that id. *)
Definition q_info_map (questions_info : list (dict pyval)) : dict (dict pyval) :=
  fold_left
    (fun m q =>
       match get (u "unique_id") q with
       | PStr (c :: s) => dict_set (c :: s) q m
       | _ => m
       end)
    questions_info [].

(** The scores of one question: [r['score']] for each provider result. *)
Definition scores_of (question_results : dict (dict pyval)) : res (list pyval) :=
  for_each (dict_values question_results)
    (fun acc r => s <- subscript (u "score") r ;; Ok (acc ++ [s]))
    [].

(** One turn of the loop over [all_results]. *)
Definition combine_question (info : dict (dict pyval)) (default_max_score : pyfloat)
                            (q_id : str) (question_results : dict (dict pyval))
  : res detail :=
  let q_info := match dict_get q_id info with Some q => q | None => [] end in
  let current_max_score :=
    resolve_max_score float_of_str (get (u "score") q_info) default_max_score in
  scores <- scores_of question_results ;;
  final_score <- final_score_of scores current_max_score ;;
  analysis <- analysis_of (dict_values question_results) ;;
  let (g, s) := split_unique_id q_id in
  Ok {| question_id := q_id;
        score := final_score;
        max_score := current_max_score;
        is_correct := is_correct_of final_score current_max_score;
        comment := comment_of final_score current_max_score;
        analysis := analysis;
        model_scores := question_results;
        box_2d := get (u "box_2d") q_info;
        group_name := g;
        sub_id := s |}.

(** The loop state: [final_results], [total_score], [max_total_score]. *)
Definition combine_step (info : dict (dict pyval)) (default_max_score : pyfloat)
                        (st : dict detail * pyfloat * pyfloat)
                        (kv : str * dict (dict pyval))
  : res (dict detail * pyfloat * pyfloat) :=
  let '(final_results, total, max_total) := st in
  d <- combine_question info default_max_score (fst kv) (snd kv) ;;
  Ok (dict_set (fst kv) d final_results,
      pf_add total (score d),
      pf_add max_total (max_score d)).

Definition combine_results_v2 (all_results : dict (dict (dict pyval)))
                              (questions_info : list (dict pyval))
                              (default_max_score : pyfloat) : res exam_report :=
  let info := q_info_map questions_info in
  st <- for_each all_results (combine_step info default_max_score)
                 ([], pf_zero, pf_zero) ;;
  let '(final_results, total, max_total) := st in
  acc <- (if pf_ltb pf_zero max_total then pf_div total max_total else Ok pf_zero) ;;
  Ok {| details := final_results;
        total_score := total;
        max_total_score := max_total;
        accuracy := acc;
        correct_count := List.length (filter is_correct (dict_values final_results));
        total_count := List.length final_results |}.

End Aggregator.

(* ===================================================================== *)
(** * GradingOrchestrator: [grade_exam_with_multiple_models] *)
(* ===================================================================== *)

(** Computations that can raise and that change the file system. *)
Definition M (A : Type) : Type := fs -> res A * fs.

Definition retM {A : Type} (a : A) : M A := fun w => (Ok a, w).
Definition liftM {A : Type} (c : res A) : M A := fun w => (c, w).

Definition bindM {A B : Type} (c : M A) (k : A -> M B) : M B :=
  fun w =>
    match c w with
    | (Ok a, w') => k a w'
    | (Raise e, w') => (Raise e, w')
    end.

Notation "x <~ c ;; k" := (bindM c (fun x => k))
  (at level 61, c at next level, right associativity).

Fixpoint for_eachM {A S : Type} (l : list A) (body : S -> A -> M S) (s : S) : M S :=
  match l with
  | [] => retM s
  | x :: t => s' <~ body s x ;; for_eachM t body s'
  end.

(** What the rest of the world answers during one run: the discovery call,
    the provider call for the question and provider of given positions, and
    the drawing of the marked image (its file name, or an exception). *)
Record world : Type := {
  discovery : structure_env;
  calls : nat -> nat -> call_env;
  marked_image : res str
}.

(** The returned dict of a successful run. *)
Record grading_report : Type := {
  marked_image_filename : str;
  report_max_score : pyfloat;
  all_results : dict (dict (dict pyval));
  model_results : dict pyfloat;
  final_results : exam_report
}.

Inductive grade_outcome : Type :=
| NoModel (error : str)
| Graded (r : grading_report).

Section Orchestrator.

Variable float_of_str : str -> option pyfloat.
Variable clean_text : str -> str.
Variable exn_text : exn -> str.
Variable repr_other : pyval -> str.

(** [available_models]; [None] and the empty list, both falsy, are the
    empty [selected_models]. *)
Definition available_models (api_keys : dict str) (selected_models : list str)
  : list str :=
  match selected_models with
  | [] => dict_keys api_keys
  | _ => filter (fun m => dict_mem m api_keys) selected_models
  end.

(** What is stored for a provider whose call did not succeed. *)
Definition zero_entry (result : dict pyval) : dict pyval :=
  [ (u "score", PInt 0);
    (u "is_correct", PBool false);
    (u "comment", get_default (u "error") (PStr (u "失败")) result) ].

(** One turn of the loop over the providers.  The log line of a success
    reads [result['score']] and [result['is_correct']]. *)
Definition grade_one (api_keys : dict str) (current_max_score : pyfloat)
                     (env : call_env) (model_name : str)
                     (question_results : dict (dict pyval))
  : M (dict (dict pyval)) :=
  fun w =>
    let (result, w') :=
      grade_with_model float_of_str clean_text exn_text
                       api_keys model_name current_max_score env w in
    (success <- subscript (u "success") result ;;
     if truthy success then
       _ <- subscript (u "score") result ;;
       _ <- subscript (u "is_correct") result ;;
       Ok (dict_set model_name result question_results)
     else Ok (dict_set model_name (zero_entry result) question_results),
     w').

Fixpoint grade_models (api_keys : dict str) (current_max_score : pyfloat)
                      (envs : nat -> call_env) (models : list str) (pos : nat)
                      (question_results : dict (dict pyval))
  : M (dict (dict pyval)) :=
  match models with
  | [] => retM question_results
  | m :: rest =>
    qr <~ grade_one api_keys current_max_score (envs pos) m question_results ;;
    grade_models api_keys current_max_score envs rest (S pos) qr
  end.

(** [model_results[model_name] += result.get('score', 0)] *)
Definition add_model_scores (question_results : dict (dict pyval))
                            (model_results : dict pyfloat) : res (dict pyfloat) :=
  for_each question_results
    (fun acc kv =>
       match num_of (get_default (u "score") (PInt 0) (snd kv)) with
       | Some f =>
         let old := match dict_get (fst kv) acc with Some x => x | None => pf_zero end in
         Ok (dict_set (fst kv) (pf_add old f) acc)
       | None => Raise TypeError
       end)
    model_results.

(** The key under which a question is stored: [q_item.get('unique_id', q_num)]. *)
Definition unique_id_of (q_item : dict pyval) : res str :=
  match get_default (u "unique_id") (get (u "id") q_item) q_item with
  | PStr s => Ok s
  | _ => Raise TypeError
  end.

(** One turn of the loop over the questions. *)
Definition grade_question (api_keys : dict str) (models : list str)
                          (default_max_score : pyfloat) (w0 : world)
                          (st : nat * dict (dict (dict pyval)) * dict pyfloat)
                          (q_item : dict pyval)
  : M (nat * dict (dict (dict pyval)) * dict pyfloat) :=
  let '(index, all_res, model_res) := st in
  unique_id <~ liftM (unique_id_of q_item) ;;
  let current_max_score :=
    resolve_max_score float_of_str (get (u "score") q_item) default_max_score in
  question_results <~
    grade_models api_keys current_max_score (calls w0 index) models 0 [] ;;
  model_res' <~ liftM (add_model_scores question_results model_res) ;;
  retM (S index, dict_set unique_id question_results all_res, model_res').

(** [details[unique_id]['box_2d'] = box_2d] for every question item. *)
Definition set_boxes (questions : list (dict pyval)) (report : exam_report)
  : exam_report :=
  let upd ds q :=
    match get (u "unique_id") q with
    | PStr uid =>
      match dict_get uid ds with
      | Some d =>
        dict_set uid
          {| question_id := question_id d; score := score d;
             max_score := max_score d; is_correct := is_correct d;
             comment := comment d; analysis := analysis d;
             model_scores := model_scores d; box_2d := get (u "box_2d") q;
             group_name := group_name d; sub_id := sub_id d |} ds
      | None => ds
      end
    | _ => ds
    end in
  {| details := fold_left upd questions (details report);
     total_score := total_score report;
     max_total_score := max_total_score report;
     accuracy := accuracy report;
     correct_count := correct_count report;
     total_count := total_count report |}.

Definition grade_exam_with_multiple_models
    (api_keys : dict str) (question_count : option Z) (max_score : option pyfloat)
    (selected_models : list str) (text_scores : dict pyfloat) (w0 : world)
  : M grade_outcome :=
  let models := available_models api_keys selected_models in
  match models with
  | [] => retM (NoModel (u "没有可用的模型，请检查API Key配置或选择的模型"))
  | first :: _ =>
    let structure_result :=
      match question_count with
      | None => analyze_exam_structure float_of_str clean_text exn_text
                                       api_keys (Some first) (discovery w0)
      | Some _ => Ok []
      end in
    questions <~ liftM (questions_to_grade repr_other text_scores question_count
                                           structure_result) ;;
    let default_max_score :=
      match max_score with Some m => m | None => pf_of_Z 10 end in
    st <~ for_eachM questions
            (grade_question api_keys models default_max_score w0)
            (O, [], []) ;;
    let '(_, all_res, model_res) := st in
    combined <~ liftM (combine_results_v2 float_of_str all_res questions
                                          default_max_score) ;;
    let final := set_boxes questions combined in
    marked <~ liftM (marked_image w0) ;;
    retM (Graded {| marked_image_filename := marked;
                    report_max_score := default_max_score;
                    all_results := all_res;
                    model_results := model_res;
                    final_results := final |})
  end.

End Orchestrator.

(* ===================================================================== *)
(** * Provider credentials and listing: [__init__], [check_available_models] *)
(* ===================================================================== *)

(** [ExamGrader.__init__]: the credentials given by the caller ([None] for a
    Python [None] value) or, when there are none, those of the environment;
    entries without a value are dropped. *)
Definition has_value (v : option str) : bool :=
  match v with
  | Some (_ :: _) => true
  | _ => false
  end.

Definition keep_configured (keys : dict (option str)) : dict str :=
  flat_map (fun kv => match snd kv with
                      | Some (c :: v) => [(fst kv, c :: v)]
                      | _ => []
                      end) keys.

Definition init_api_keys (api_keys : dict (option str)) (environ : dict str)
  : dict str :=
  let given :=
    match api_keys with
    | [] =>
      [ (u "qwen-vl-max", dict_get (u "DASHSCOPE_API_KEY") environ);
        (u "claude", dict_get (u "ANTHROPIC_API_KEY") environ);
        (u "gemini-3-pro", dict_get (u "XHUOAI_API_KEY") environ) ]
    | _ => api_keys
    end in
  keep_configured given.

(** One entry of the listing. *)
Record model_info : Type := {
  id : str;
  name : str;
  status : str;
  available : bool;
  error : option str
}.

Definition listed_models : list (str * str) :=
  [ (u "qwen-vl-max", u "Qwen-VL-Max (阿里云)");
    (u "gemini-3-pro", u "Gemini 3 Pro (XhuoAI)");
    (u "glm-4v", u "GLM-4V (智谱AI)") ].

Definition check_available_models (api_keys : dict str) : list model_info :=
  map (fun m =>
         if dict_mem (fst m) api_keys then
           {| id := fst m; name := snd m; status := u "available";
              available := true; error := None |}
         else
           {| id := fst m; name := snd m; status := u "unavailable";
              available := false; error := Some (u "未配置 API Key") |})
      listed_models.

(* ===================================================================== *)
(** * The task: [run_grading_task] and [grading_tasks] *)
(* ===================================================================== *)

(** [grading_tasks[task_id][k] = v] for the given fields, in order. *)
Definition update_task (task_id : str) (fields : list (str * pyval))
                       (tasks : dict (dict pyval)) : res (dict (dict pyval)) :=
  match dict_get task_id tasks with
  | None => Raise KeyError
  | Some t =>
    Ok (dict_set task_id
          (fold_left (fun d kv => dict_set (fst kv) (snd kv) d) fields t) tasks)
  end.

(** The registry after the run, and the report that was written, if any. *)
Record task_result : Type := {
  tasks_after : dict (dict pyval);
  saved_report : option grading_report
}.

Section Task.

Variable float_of_str : str -> option pyfloat.
Variable clean_text : str -> str.
Variable exn_text : exn -> str.
Variable repr_other : pyval -> str.

(** [run_grading_task].  [save] is the outcome of writing and copying the
    report: the path of the copy, or an exception.  An exception that leaves
    the function is a missing task entry. *)
Definition run_grading_task
    (environ : dict str) (task_id filename : str)
    (question_count : option Z) (max_score : option pyfloat)
    (selected_models : list str) (text_scores : dict pyfloat)
    (w0 : world) (save : res str)
    (tasks : dict (dict pyval)) (w : fs) : res task_result * fs :=
  let api_keys := init_api_keys [] environ in
  let (outcome, w') :=
    grade_exam_with_multiple_models float_of_str clean_text exn_text repr_other
      api_keys question_count max_score selected_models text_scores w0 w in
  let attempt : res task_result :=
    o <- outcome ;;
    match o with
    | Graded r =>
      static_report_path <- save ;;
      t <- update_task task_id
             [ (u "status", PStr (u "completed"));
               (u "progress", PInt 100);
               (u "result_filename", PStr filename);
               (u "report_path", PStr static_report_path);
               (u "marked_image_filename", PStr (marked_image_filename r)) ]
             tasks ;;
      Ok {| tasks_after := t; saved_report := Some r |}
    | NoModel err =>
      t <- update_task task_id
             [ (u "status", PStr (u "error")); (u "error", PStr err) ] tasks ;;
      Ok {| tasks_after := t; saved_report := None |}
    end in
  match attempt with
  | Ok r => (Ok r, w')
  | Raise e =>
    (t <- update_task task_id
            [ (u "status", PStr (u "error")); (u "error", PStr (exn_text e)) ]
            tasks ;;
     Ok {| tasks_after := t; saved_report := None |},
     w')
  end.

End Task.

(* ===================================================================== *)
(** * Regular expressions of the answer key *)
(* ===================================================================== *)

(** [re.search] for patterns that are a sequence of character classes with
    the quantifiers [?], [*], [+] and [*?] and of capturing groups, which is
    all the two patterns of [extract_group_scores_from_text] use.  The
    matcher backtracks as [re] does: a greedy quantifier takes as many
    characters as it can and gives them back one by one, the lazy one takes
    as few as it can; the start positions are tried from left to right. *)
Module Regex.

Inductive atom : Type :=
| One (p : char -> bool)
| Opt (p : char -> bool)
| Star (p : char -> bool)
| LazyStar (p : char -> bool)
| Open (g : nat)
| Close (g : nat).

(** [x+] is [xx*]. *)
Definition Plus (p : char -> bool) : list atom := [One p; Star p].

(** The text each group has matched, the latest first. *)
Definition captures : Type := list (nat * str).

Fixpoint lookup (g : nat) (c : captures) : option str :=
  match c with
  | [] => None
  | (g', s) :: t => if (g =? g')%nat then Some s else lookup g t
  end.

(** [p*] followed by [k]. *)
Fixpoint star (p : char -> bool) (k : str -> option captures) (s : str)
  : option captures :=
  match s with
  | c :: t =>
    if p c then
      match star p k t with
      | Some r => Some r
      | None => k s
      end
    else k s
  | [] => k s
  end.

(** [p*?] followed by [k]. *)
Fixpoint lazy_star (p : char -> bool) (k : str -> option captures) (s : str)
  : option captures :=
  match k s with
  | Some r => Some r
  | None =>
    match s with
    | c :: t => if p c then lazy_star p k t else None
    | [] => None
    end
  end.

(** A match of [atoms] at the head of [s].  [opens] holds, for each group
    that has started, the text from its start on. *)
Fixpoint run (atoms : list atom) (opens closed : captures) (s : str)
  : option captures :=
  match atoms with
  | [] => Some closed
  | One p :: rest =>
    match s with
    | c :: t => if p c then run rest opens closed t else None
    | [] => None
    end
  | Opt p :: rest =>
    match s with
    | c :: t =>
      if p c then
        match run rest opens closed t with
        | Some r => Some r
        | None => run rest opens closed s
        end
      else run rest opens closed s
    | [] => run rest opens closed s
    end
  | Star p :: rest => star p (run rest opens closed) s
  | LazyStar p :: rest => lazy_star p (run rest opens closed) s
  | Open g :: rest => run rest ((g, s) :: opens) closed s
  | Close g :: rest =>
    match lookup g opens with
    | Some s0 =>
      run rest opens ((g, firstn (List.length s0 - List.length s) s0) :: closed) s
    | None => None
    end
  end.

(** [re.search]: the groups of the first match, if there is one. *)
Fixpoint search (atoms : list atom) (s : str) : option captures :=
  match run atoms [] [] s with
  | Some r => Some r
  | None =>
    match s with
    | _ :: t => search atoms t
    | [] => None
    end
  end.

End Regex.

(* ===================================================================== *)
(** * Answer-key rules: [ExamGrader.extract_group_scores_from_text] *)
(* ===================================================================== *)

(** [s.split(sep)] for a one-character separator. *)
Fixpoint split_char (sep : char) (s : str) : list str :=
  match s with
  | [] => [[]]
  | c :: t =>
    if (c =? sep)%N then [] :: split_char sep t
    else
      match split_char sep t with
      | l :: ls => (c :: l) :: ls
      | [] => [[c]]
      end
  end.

Definition newline : char := 10%N.

Section AnswerKey.

Variable float_of_str : str -> option pyfloat.
(** Whether a character that is neither ASCII nor a CJK unified ideograph is
    a decimal digit (category Nd of the Unicode database). *)
Variable decimal_wide : char -> bool.

(** [\d]: ASCII has the ten digits, and no ideograph from U+4E00 to U+9FFF
    is a digit. *)
Definition is_decimal (c : char) : bool :=
  if (c <? 128)%N then Json.is_digit c
  else if ((19968 <=? c) && (c <=? 40959))%N then false
  else decimal_wide c.

Definition one_of (set : str) (c : char) : bool := existsb (N.eqb c) set.
Definition none_of (set : str) (c : char) : bool := negb (one_of set c).

Definition is_numeral : char -> bool := one_of (u "一二三四五六七八九十").
Definition is_name : char -> bool := none_of (newline :: u "（(").
Definition is_paren : char -> bool := one_of (u "（(").
Definition is_dot : char -> bool := one_of (u ".").
(** [.] without [re.DOTALL] *)
Definition any_char : char -> bool := none_of [newline].
Definition not_decimal (c : char) : bool := negb (is_decimal c).

(** The end of both patterns: a parenthesis of either width, as little text
    as possible, the character 每 and one of 题, 空, 小, then characters that
    are no digits, the number (digits, an optional dot, digits) as the group
    [g], and the character 分. *)
Definition per_item (g : nat) : list Regex.atom :=
  [ Regex.One is_paren; Regex.LazyStar any_char;
    Regex.One (one_of (u "每")); Regex.One (one_of (u "题空小"));
    Regex.Star not_decimal; Regex.Open g ]
  ++ Regex.Plus is_decimal
  ++ [ Regex.Opt is_dot; Regex.Star is_decimal; Regex.Close g;
       Regex.One (one_of (u "分")) ].

(** The first pattern: Chinese numerals, an ideographic comma or a dot,
    white space, the section name as group 1 (no line feed and no opening
    parenthesis in it), and the end above with the number as group 2. *)
Definition heading_pattern : list Regex.atom :=
  Regex.Plus is_numeral
  ++ [ Regex.One (one_of (u "、.")); Regex.Star isspace; Regex.Open 1 ]
  ++ Regex.Plus is_name
  ++ [ Regex.Close 1 ]
  ++ per_item 2.

(** The second pattern: digits as group 1, a dot, white space, the section
    name as group 2, and the end above with the number as group 3. *)
Definition numbered_pattern : list Regex.atom :=
  [ Regex.Open 1 ] ++ Regex.Plus is_decimal
  ++ [ Regex.Close 1; Regex.One is_dot; Regex.Star isspace; Regex.Open 2 ]
  ++ Regex.Plus is_name
  ++ [ Regex.Close 2 ]
  ++ per_item 3.

Definition patterns : list (list Regex.atom) := [heading_pattern; numbered_pattern].

(** The section kinds, in the order of the [if]/[elif] chain. *)
Definition keywords : list str :=
  [ u "填空"; u "选择"; u "判断"; u "简答"; u "计算"; u "分析"; u "设计"; u "编程" ].

Definition keyword_of (group_name_raw : str) : option str :=
  List.find (fun k => contains k group_name_raw) keywords.

(** The body of [if matches:].  The bare [except] swallows the [ValueError]
    of [float]; both branches read the groups 1 and 2. *)
Definition apply_match (caps : Regex.captures) (rules : dict pyfloat) : dict pyfloat :=
  match Regex.lookup 1 caps, Regex.lookup 2 caps with
  | Some g1, Some g2 =>
    let group_name_raw := strip g1 in
    match float_of_str g2 with
    | Some score =>
      match keyword_of group_name_raw with
      | Some key => dict_set key score rules
      | None => rules
      end
    | None => rules
    end
  | _, _ => rules
  end.

Definition scan_pattern (line : str) (rules : dict pyfloat) (pat : list Regex.atom)
  : dict pyfloat :=
  match Regex.search pat line with
  | Some caps => apply_match caps rules
  | None => rules
  end.

(** One turn of the loop over the lines. *)
Definition scan_line (rules : dict pyfloat) (line : str) : dict pyfloat :=
  match strip line with
  | [] => rules
  | c :: l => fold_left (scan_pattern (c :: l)) patterns rules
  end.

Definition extract_group_scores_from_text (text : str) : dict pyfloat :=
  match text with
  | [] => []
  | _ => fold_left scan_line (split_char newline text) []
  end.

End AnswerKey.

(* ===================================================================== *)
(** * Uploaded file names: [app/utils/file_utils.py], [upload_file] *)
(* ===================================================================== *)

Definition dot : char := chr ".".

(** [s.rsplit(sep, 1)] for a one-character separator. *)
Definition rsplit1 (sep : char) (s : str) : list str :=
  let i := rfind sep s in
  if i =? -1 then [s] else [slice s 0 i; slice_from s (i + 1)].

Definition is_ascii (s : str) : bool := forallb (fun c => (c <? 128)%N) s.

Definition ascii_lower (c : char) : char :=
  if ((65 <=? c) && (c <=? 90))%N then (c + 32)%N else c.

(** [x in S] for a set of strings. *)
Definition in_set (x : str) (S : list str) : bool := existsb (str_eqb x) S.

(** [Config.ALLOWED_EXTENSIONS] and [Config.ALLOWED_ANSWER_EXTENSIONS] *)
Definition ALLOWED_EXTENSIONS : list str := [u "png"; u "jpg"; u "jpeg"].
Definition ALLOWED_ANSWER_EXTENSIONS : list str := [u "doc"; u "docx"].

Section FileNames.

(** [s.lower()] for a text that has characters outside ASCII. *)
Variable lower_unicode : str -> str.
(** Whether [os.path] is [ntpath], with its two separators, or [posixpath]. *)
Variable windows : bool.

(** [s.lower()]: on ASCII text the letters A to Z move to a to z. *)
Definition lower (s : str) : str :=
  if is_ascii s then map ascii_lower s else lower_unicode s.

(** [allowed_file] and [allowed_answer_file]: [None] stands for the
    [IndexError] of [rsplit(...)[1]]. *)
Definition has_extension_in (S : list str) (filename : str) : option bool :=
  if contains [dot] filename then
    match nth_error (rsplit1 dot filename) 1 with
    | Some ext => Some (in_set (lower ext) S)
    | None => None
    end
  else Some false.

Definition allowed_file : str -> option bool := has_extension_in ALLOWED_EXTENSIONS.
Definition allowed_answer_file : str -> option bool :=
  has_extension_in ALLOWED_ANSWER_EXTENSIONS.

(** [os.path.splitext]: the extension starts at the last dot, if that dot
    comes after the last separator and after a character of the file name
    that is no dot. *)
Definition splitext (p : str) : str * str :=
  let sepIndex :=
    if windows then Z.max (rfind (chr "\") p) (rfind (chr "/") p)
    else rfind (chr "/") p in
  let dotIndex := rfind dot p in
  if (sepIndex <? dotIndex)
     && existsb (fun c => negb (c =? dot)%N) (slice p (sepIndex + 1) dotIndex)
  then (slice p 0 dotIndex, slice_from p dotIndex)
  else (p, []).

(** The extension under which [upload_file] stores an accepted image:
    [ext = os.path.splitext(file.filename)[1].lower()], and [.jpg] when that
    is empty. *)
Definition upload_ext (filename : str) : str :=
  match lower (snd (splitext filename)) with
  | [] => u ".jpg"
  | ext => ext
  end.

End FileNames.

(* ===================================================================== *)
(** * ReportGenerator: the order of the questions in the Word report *)
(* ===================================================================== *)

(** [a < b] for strings: by code points, a proper prefix first. *)
Fixpoint str_ltb (a b : str) : bool :=
  match a, b with
  | _, [] => false
  | [], _ :: _ => true
  | x :: a', y :: b' => (x <? y)%N || ((x =? y)%N && str_ltb a' b')
  end.

(** [a == b] for numbers. *)
Definition pf_eqb (a b : pyfloat) : bool :=
  match a, b with
  | Fin x, Fin y => Qeq_bool x y
  | PInf, PInf | NInf, NInf => true
  | _, _ => false
  end.

(** [group_weights], in the order of the dict literal. *)
Definition group_weights : list (str * Z) :=
  [ (u "一", 1); (u "二", 2); (u "三", 3); (u "四", 4); (u "五", 5);
    (u "六", 6); (u "七", 7); (u "八", 8); (u "九", 9); (u "十", 10);
    (u "填空题", 1); (u "选择题", 2); (u "判断题", 3); (u "简答题", 4);
    (u "计算题", 5); (u "编程题", 6); (u "综合题", 7) ].

(** The weight of the first key that occurs in the section name. *)
Definition group_weight (group_part : str) : Z :=
  match List.find (fun kw => contains (fst kw) group_part) group_weights with
  | Some kw => snd kw
  | None => 999
  end.

Section ReportOrder.

(** [int(s)]; [None] stands for the [ValueError]. *)
Variable int_of_str : str -> option Z.

(** [sort_key] of [generate_word_report], for a key of [details]: the
    weight of the section, the section and the number.  The last branch of
    the first [match] is the [IndexError] of [parts[1]]. *)
Definition sort_key (k : str) : pyfloat * str * pyfloat :=
  if contains [chr "-"] k then
    match rsplit1 (chr "-") k with
    | [group_part; num_part] =>
      let num :=
        match int_of_str num_part with
        | Some z => pf_of_Z z
        | None => PInf
        end in
      (pf_of_Z (group_weight group_part), group_part, num)
    | _ => (PInf, k, pf_zero)
    end
  else
    match int_of_str k with
    | Some z => (pf_zero, [], pf_of_Z z)
    | None => (PInf, k, pf_zero)
    end.

End ReportOrder.

(** [a < b] for two sort keys, as [sorted] compares them: the first
    components that differ decide. *)
Definition key_ltb (a b : pyfloat * str * pyfloat) : bool :=
  let '(w1, g1, n1) := a in
  let '(w2, g2, n2) := b in
  if negb (pf_eqb w1 w2) then pf_ltb w1 w2
  else if negb (str_eqb g1 g2) then str_ltb g1 g2
  else pf_ltb n1 n2.

(* ===================================================================== *)
(** * Notions of the specification and sample inputs *)
(* ===================================================================== *)

(** The definitions the properties below are stated with: the words of the
    specification ([mean], [clamp], [point_value], ...), names for what the
    code stores, and concrete inputs for the examples. *)

(** The credentials [__init__] starts from: those of the caller, or the
    three environment variables when the caller gave none. *)
Definition credential_source (api_keys : dict (option str)) (environ : dict str)
  : dict (option str) :=
  match api_keys with
  | [] =>
    [ (u "qwen-vl-max", dict_get (u "DASHSCOPE_API_KEY") environ);
      (u "claude", dict_get (u "ANTHROPIC_API_KEY") environ);
      (u "gemini-3-pro", dict_get (u "XHUOAI_API_KEY") environ) ]
  | _ => api_keys
  end.

(** What every entry of [details] satisfies. *)
Definition verdict_ok (d : detail) : Prop :=
  is_correct d = is_correct_of (score d) (max_score d)
  /\ comment d = comment_of (score d) (max_score d)
  /\ (exists q, score d = Fin q)
  /\ (pf_ltb pf_zero (score d) = false -> score d = pf_zero).

Definition no_float (_ : str) : option pyfloat := None.
Definition keep_text (s : str) : str := s.
Definition some_text (_ : exn) : str := u "error".
Definition some_repr (_ : pyval) : str := u "?".

(** Question 1 out of 10 points, graded 10 and 6; question 2 out of 10
    points, graded 3 by one provider while the other failed. *)
Definition sample_questions : list (dict pyval) :=
  [ numbered_question (u "1"); numbered_question (u "2") ].

Definition sample_all_results : dict (dict (dict pyval)) :=
  [ (u "1", [ (u "qwen-vl-max", [ (u "score", PFloat (Fin 10)); (u "is_correct", PBool true);
                                  (u "comment", PStr (u "ok")) ]);
              (u "gemini-3-pro", [ (u "score", PFloat (Fin 6)); (u "is_correct", PBool true);
                                   (u "comment", PStr (u "fine")) ]) ]);
    (u "2", [ (u "qwen-vl-max", [ (u "score", PFloat (Fin 3)); (u "is_correct", PBool false);
                                  (u "comment", PStr (u "weak")) ]);
              (u "gemini-3-pro", [ (u "score", PInt 0); (u "is_correct", PBool false);
                                   (u "comment", PStr (u "failed")) ]) ]) ].

Definition empty_report : exam_report :=
  {| details := []; total_score := pf_zero; max_total_score := pf_zero;
     accuracy := pf_zero; correct_count := 0; total_count := 0 |}.

Definition sample_report : exam_report :=
  Eval vm_compute in
    match combine_results_v2 no_float sample_all_results sample_questions (Fin 10) with
    | Ok r => r
    | Raise _ => empty_report
    end.

Definition sample_detail : detail :=
  Eval vm_compute in
    match details sample_report with
    | (_, d) :: _ => d
    | [] => {| question_id := []; score := pf_zero; max_score := pf_zero;
               is_correct := false; comment := []; analysis := PNone;
               model_scores := []; box_2d := PNone; group_name := None;
               sub_id := None |}
    end.

(** [mean], [round_to_nearest_half] and [clamp] as the specification names
    them; the code's own definitions are [final_score_of] and its parts. *)
Definition mean (qs : list Q) : Q :=
  (fold_left Qplus qs 0 / inject_Z (Z.of_nat (List.length qs)))%Q.

Definition is_half_multiple (x : Q) : Prop :=
  exists k : Z, (x == inject_Z k / 2)%Q.

(** [r] is a multiple of one half nearest to [x]. *)
Definition nearest_half (x r : Q) : Prop :=
  is_half_multiple r /\ (Qabs (x - r) <= 1 # 4)%Q.

Definition clamp (x lo hi : Q) : Q := Qmax lo (Qmin x hi).

(** Two inputs the code can receive: a question worth 0.75 points answered
    with full marks by its only provider, and a question worth 0 points
    whose only provider failed. *)
Definition three_quarters : pyfloat := Fin (3 # 4).

Definition odd_point_questions : list (dict pyval) :=
  [ [ (u "id", PStr (u "1")); (u "group", PNone);
      (u "unique_id", PStr (u "1")); (u "score", PFloat three_quarters) ];
    [ (u "id", PStr (u "2")); (u "group", PNone);
      (u "unique_id", PStr (u "2")); (u "score", PInt 0) ] ].

Definition odd_point_results : dict (dict (dict pyval)) :=
  [ (u "1", [ (u "qwen-vl-max",
               [ (u "score", PFloat three_quarters); (u "is_correct", PBool true);
                 (u "comment", PStr (u "ok")) ]) ]);
    (u "2", [ (u "qwen-vl-max",
               [ (u "score", PInt 0); (u "is_correct", PBool false);
                 (u "comment", PStr (u "failed")) ]) ]) ].

Definition rounded_half (x : Q) : Q :=
  (inject_Z (round_half_even (x * inject_Z 2)) / inject_Z 2)%Q.

(** Two configured providers and one question out of 10 points: the first
    provider grades 10, the request to the second one fails. *)
Definition two_keys : dict str :=
  [ (u "DASHSCOPE_API_KEY", u "key-1"); (u "ANTHROPIC_API_KEY", u "key-2") ].

Definition answer (content : string) : call_env :=
  {| preprocess := Ok tt; reply := Reply (jtext content); removals := [] |}.

Definition transport_error : call_env :=
  {| preprocess := Ok tt; reply := CallRaises OSError; removals := [] |}.

Definition one_fails : world :=
  {| discovery := {| image_ok := Ok tt; s_reply := CallRaises OSError |};
     calls := fun _ provider =>
                match provider with
                | O => answer "{'score': 10, 'is_correct': true, 'comment': 'ok'}"
                | _ => transport_error
                end;
     marked_image := Ok (u "marked.jpg") |}.

Definition final_scores (o : res grade_outcome * fs) : list pyfloat :=
  match o with
  | (Ok (Graded r), _) => map (fun kv => score (snd kv)) (details (final_results r))
  | _ => []
  end.

Definition succeeded (r : dict pyval) : bool := truthy (get (u "success") r).

(** What the loop stores for it, and the score the mean takes from it. *)
Definition stored_entry (r : dict pyval) : dict pyval :=
  if succeeded r then r else zero_entry r.

Definition data_point (r : dict pyval) : pyval :=
  if succeeded r then get (u "score") r else PInt 0.

Definition indexed (pos : nat) (models : list str) : list (nat * str) :=
  combine (seq pos (List.length models)) models.

Definition sample_providers : list str := [u "qwen-vl-max"; u "claude"].

Definition sample_question_results : dict (dict pyval) :=
  Eval vm_compute in
    match grade_models no_float keep_text some_text (init_api_keys [] two_keys)
                       (Fin 10) (calls one_fails 0) sample_providers 0 [] fs_init with
    | (Ok qr, _) => qr
    | _ => []
    end.

Definition sample_fs : fs :=
  Eval vm_compute in
    snd (grade_models no_float keep_text some_text (init_api_keys [] two_keys)
                      (Fin 10) (calls one_fails 0) sample_providers 0 [] fs_init).

Definition is_dict (v : pyval) : bool :=
  match v with PDict _ => true | _ => false end.

Definition backtick : char := 96%N.

(** A language tag the pattern accepts: none, or [json] in any case. *)
Definition is_tag (tag : str) : Prop :=
  tag = [] \/
  exists a b c d, tag = [a; b; c; d]
                  /\ CodeBlocks.is_j a && CodeBlocks.is_s b
                     && CodeBlocks.is_o c && CodeBlocks.is_n d = true.

(** The answers of the end-to-end scenario. *)
Definition weak_answer : dict pyval :=
  [ (u "score", PInt 3); (u "is_correct", PBool false); (u "comment", PStr (u "weak")) ].

Definition weak_result : pyval :=
  PDict [ (u "score", PFloat (Fin 3)); (u "is_correct", PBool false);
          (u "comment", PStr (u "weak")) ].

Definition weak_inner : str := jtext "'score': 3, 'is_correct': false, 'comment': 'weak'".
Definition weak_cut : str := jtext "'score': 3, 'is_correct': false, 'comment': 'weak".

(** The ten questions of the fallback. *)
Definition ten_questions : list (dict pyval) :=
  map numbered_question
      [u "1"; u "2"; u "3"; u "4"; u "5"; u "6"; u "7"; u "8"; u "9"; u "10"].

(** A discovery answer that names no question: the analysis succeeds and
    the question list stays empty. *)
Definition empty_discovery : structure_env :=
  {| image_ok := Ok tt; s_reply := Reply (jtext "{'groups': []}") |}.

Definition one_key : dict str := [ (u "qwen-vl-max", u "key-1") ].

Definition failed_discovery : structure_env :=
  {| image_ok := Ok tt; s_reply := CallRaises OSError |}.

(** The precedence in the words of the specification: the first value that
    is not null among the question's own value, the section default, the
    value of the first answer-key rule whose keyword occurs in the section
    name, and the hard-coded value of the section's category. *)
Definition first_non_null (candidates : list pyval) : pyval :=
  match filter (fun v => negb (is_none v)) candidates with
  | v :: _ => v
  | [] => PNone
  end.

Definition keyword_value (text_scores : dict pyfloat) (section_name : str) : pyval :=
  match List.find (fun kv => contains (fst kv) section_name) text_scores with
  | Some (_, s) => PFloat s
  | None => PNone
  end.

Definition category_value (section_name : str) : pyval :=
  if contains (u "选择") section_name then PInt 3
  else if contains (u "填空") section_name then PInt 2
  else if contains (u "判断") section_name then PInt 2
  else PNone.

Definition point_value (text_scores : dict pyfloat) (section_name : str)
                       (section_default : pyval) (q : dict pyval) : pyval :=
  first_non_null [ get (u "score") q; section_default;
                   keyword_value text_scores section_name;
                   category_value section_name ].

(** A fill-in section worth 1.5 points a blank by the answer key, with one
    question whose own value is 5 and one without a value. *)
Definition sample_rules : dict pyfloat := [ (u "填空", Fin (3 # 2)) ].

Definition no_provider_message : str :=
  u "没有可用的模型，请检查API Key配置或选择的模型".

Definition status_of (task_id : str) (r : res task_result * fs) : pyval :=
  match r with
  | (Ok tr, _) =>
    match dict_get task_id (tasks_after tr) with
    | Some t => get (u "status") t
    | None => PNone
    end
  | (Raise _, _) => PNone
  end.

Definition new_task : dict (dict pyval) :=
  [ (u "task-1", [ (u "status", PStr (u "processing")); (u "progress", PInt 0) ]) ].

(** One configured provider that answers every question without a score. *)
Definition dashscope_only : dict str := [ (u "DASHSCOPE_API_KEY", u "key-1") ].

Definition no_score_world : world :=
  {| discovery := failed_discovery;
     calls := fun _ _ => answer "{'is_correct': true, 'comment': 'ok'}";
     marked_image := Ok (u "marked.jpg") |}.

Definition full_marks_world : world :=
  {| discovery := failed_discovery;
     calls := fun _ _ => answer "{'score': 10, 'is_correct': true, 'comment': 'ok'}";
     marked_image := Ok (u "marked.jpg") |}.

Definition removal_attempts (events : list fs_event) : nat :=
  List.length (filter (fun e => match e with RemoveAttempt _ => true | _ => false end)
                      events).

Section Notions.

Variable float_of_str : str -> option pyfloat.
Variable clean_text : str -> str.
Variable exn_text : exn -> str.

(** The result dict of the provider at position [i]. *)
Definition outcome api_keys max (envs : nat -> call_env) (im : nat * str) : dict pyval :=
  fst (grade_with_model float_of_str clean_text exn_text api_keys (snd im) max
                        (envs (fst im)) fs_init).

(** The score the parser stores for a decoded object that has one. *)
Definition coerced_score (max_score : pyfloat) (d : dict pyval) : pyval :=
  match py_float float_of_str (get (u "score") d) with
  | Ok x => clamp_score x max_score
  | Raise _ => PInt 0
  end.

(** An answer neither [parse_grading_response] nor [extract_json_from_text]
    gets a value from. *)
Definition unparseable (content : str) : Prop :=
  parse_grading_response float_of_str clean_text content (pf_of_Z 100) = Ok PNone
  /\ extract_json_from_text content = PNone.

End Notions.

(** The sum of a list of floats, from 0 and left to right. *)
Definition pf_sum (l : list pyfloat) : pyfloat := fold_left pf_add l pf_zero.

Definition dash : char := chr "-".

Definition count_event (p : fs_event -> bool) (events : list fs_event) : nat :=
  List.length (filter p events).

Definition is_sleep (e : fs_event) : bool :=
  match e with Sleep => true | _ => false end.

Definition is_lock_error (e : fs_event) : bool :=
  match e with RemoveAttempt PermissionDenied => true | _ => false end.

Definition is_attempt (e : fs_event) : bool :=
  match e with RemoveAttempt _ => true | _ => false end.

(** The third question of a fill-in section, as the structure analysis
    files it. *)
Definition fill_in_item : dict pyval :=
  [ (u "id", PStr (u "3")); (u "group", PStr (u "一、填空题"));
    (u "unique_id", PStr (u "一、填空题-3")); (u "box_2d", PNone);
    (u "score", PInt 2) ].

(** The report of a run over one question with one provider. *)
Definition one_question_run : grading_report :=
  Eval vm_compute in
    match grade_exam_with_multiple_models no_float keep_text some_text some_repr
            (init_api_keys [] dashscope_only) (Some 1) (Some (Fin 10)) [] []
            full_marks_world fs_init with
    | (Ok (Graded r), _) => r
    | _ => {| marked_image_filename := []; report_max_score := pf_zero;
              all_results := []; model_results := []; final_results := empty_report |}
    end.

(** What the rules of the answer key satisfy at every point of the scan. *)
Definition rules_ok (rules : dict pyfloat) : Prop :=
  NoDup (dict_keys rules) /\ Forall (fun k => In k keywords) (dict_keys rules).

Definition mei : char := chr "每".
Definition fen : char := chr "分".

(** The fractional part of a point value: nothing, or a dot and digits. *)
Definition is_fraction (decimal_wide : char -> bool) (frac : str) : Prop :=
  frac = [] \/
  exists digits, frac = chr "." :: digits
                 /\ Forall (fun c => is_decimal decimal_wide c = true) digits.

Definition tab : char := 9%N.

(** The spaces, line feeds and carriage returns that JSON allows between
    tokens; the tab is the fourth such character. *)
Definition json_blank (c : char) : bool := ((c =? 32) || (c =? 10) || (c =? 13))%N.

Definition sample_float (s : str) : option pyfloat :=
  if str_eqb s (u "1.5") then Some (Fin (3 # 2)) else None.

(** The names under which [ExamGrader()] looks for credentials. *)
Definition environment_names : list str :=
  [u "qwen-vl-max"; u "claude"; u "gemini-3-pro"].

Definition gemini_only : dict str := [ (u "gemini-3-pro", u "key-2") ].

(** A float that is 0. *)
Definition is_zero (f : pyfloat) : Prop := exists q, f = Fin q /\ (q == 0)%Q.

(** What is stored for a provider whose call failed with the text [error]. *)
Definition failed_entry (r : dict pyval) : Prop :=
  exists error,
    r = [ (u "score", PInt 0); (u "is_correct", PBool false);
          (u "comment", PStr error) ].

(** The results of every question are those of failed calls. *)
Definition all_failed (all_res : dict (dict (dict pyval))) : Prop :=
  Forall (fun qr => Forall failed_entry (dict_values qr)) (dict_values all_res).

(** The entry of a question that got no point out of [m]. *)
Definition zero_detail (m : Q) (d : detail) : Prop :=
  is_zero (score d) /\ max_score d = Fin m /\ is_correct d = false
  /\ comment d = u "错误".

(** A run during which every provider request raises. *)
Definition outage_world : world :=
  {| discovery := failed_discovery;
     calls := fun _ _ => transport_error;
     marked_image := Ok (u "marked.jpg") |}.

(** The score a provider's entry adds to the provider's total. *)
Definition entry_score (model_name : str) (qr : dict (dict pyval)) : pyfloat :=
  match dict_get model_name qr with
  | Some entry =>
    match num_of (get_default (u "score") (PInt 0) entry) with
    | Some f => f
    | None => pf_zero
    end
  | None => pf_zero
  end.

(** The sum of a provider's scores over the questions of a report, in the
    order of the questions. *)
Definition provider_total (model_name : str) (all_res : dict (dict (dict pyval)))
  : pyfloat :=
  pf_sum (map (fun kv => entry_score model_name (snd kv)) all_res).

(** A provider's total so far: [model_results.get(model_name, 0)]. *)
Definition total_so_far (model_name : str) (model_res : dict pyfloat) : pyfloat :=
  match dict_get model_name model_res with
  | Some x => x
  | None => pf_zero
  end.

(** The totals agree with the entries of the questions graded so far. *)
Definition totals_agree (models : list str) (all_res : dict (dict (dict pyval)))
                        (model_res : dict pyfloat) : Prop :=
  (forall m, In m models -> total_so_far m model_res = provider_total m all_res)
  /\ (all_res <> [] -> forall m, In m models -> dict_get m model_res <> None)
  /\ (forall k, ~ In k models -> dict_get k model_res = None).


(** A sample [int]: the strings of ASCII digits. *)
Definition digits_int (s : str) : option Z :=
  match s with
  | [] => None
  | _ =>
    fold_left
      (fun acc c =>
         match acc with
         | Some z =>
           if ((48 <=? c) && (c <=? 57))%N then Some (10 * z + Z.of_N (c - 48)) else None
         | None => None
         end)
      s (Some 0)
  end.

(** The text of an entry's comment, when it is a string. *)
Definition comment_text (r : dict pyval) : str :=
  match get (u "comment") r with
  | PStr c => c
  | _ => []
  end.

(** An entry without a provider analysis. *)
Definition no_analysis (r : dict pyval) : Prop :=
  truthy (get (u "analysis") r) = false.

(** An entry whose comment, if there is one, is a string. *)
Definition text_comment (r : dict pyval) : Prop :=
  truthy (get (u "comment") r) = true -> exists c, get (u "comment") r = PStr c.

Definition sample_entries : list (dict pyval) :=
  [ [ (u "score", PInt 1); (u "comment", PStr (u "ok")) ];
    [ (u "score", PInt 2); (u "comment", PStr (u "good")) ];
    [ (u "score", PInt 2); (u "comment", PStr (u "fine")) ] ].

Definition numeric_comment_results : dict (dict (dict pyval)) :=
  [ (u "1", [ (u "qwen-vl-max",
               [ (u "score", PInt 1); (u "comment", PInt 5);
                 (u "success", PBool true) ]) ]) ].

(* ===================================================================== *)
(** * Properties *)
(* ===================================================================== *)

(** ** Strings and dictionaries *)

Lemma str_eqb_refl (s : str) : str_eqb s s = true.
Proof.
  induction s as [|c s IH]; simpl; [reflexivity|].
  now rewrite N.eqb_refl, IH.
Qed.

Lemma str_eqb_eq (a b : str) : str_eqb a b = true <-> a = b.
Proof.
  split.
  - revert b. induction a as [|x a IH]; destruct b as [|y b]; simpl; try discriminate; auto.
    intros H. apply andb_true_iff in H as [H1 H2].
    apply N.eqb_eq in H1. subst. f_equal. now apply IH.
  - intros ->. apply str_eqb_refl.
Qed.

Lemma str_eqb_neq (a b : str) : str_eqb a b = false <-> a <> b.
Proof.
  destruct (str_eqb a b) eqn:E.
  - apply str_eqb_eq in E. split; [discriminate | congruence].
  - split; [|reflexivity]. intros _ H. apply str_eqb_eq in H. congruence.
Qed.

Lemma str_eqb_sym (a b : str) : str_eqb a b = str_eqb b a.
Proof.
  destruct (str_eqb a b) eqn:E.
  - apply str_eqb_eq in E. subst. symmetry. apply str_eqb_refl.
  - apply str_eqb_neq in E. symmetry. apply str_eqb_neq. congruence.
Qed.

Section DictFacts.

Context {V : Type}.

Lemma dict_get_set_same (k : str) (v : V) (d : dict V) :
  dict_get k (dict_set k v d) = Some v.
Proof.
  induction d as [|[k' v'] d IH]; simpl.
  - now rewrite str_eqb_refl.
  - destruct (str_eqb k k') eqn:E; simpl; rewrite E; auto.
Qed.

Lemma dict_get_set_other (k k' : str) (v : V) (d : dict V) :
  k <> k' -> dict_get k (dict_set k' v d) = dict_get k d.
Proof.
  intros Hne. induction d as [|[k0 v0] d IH]; simpl.
  - apply str_eqb_neq in Hne. now rewrite Hne.
  - destruct (str_eqb k' k0) eqn:E; simpl.
    + apply str_eqb_eq in E. subst k0.
      apply str_eqb_neq in Hne. now rewrite Hne.
    + destruct (str_eqb k k0); auto.
Qed.

Lemma dict_mem_set_same (k : str) (v : V) (d : dict V) :
  dict_mem k (dict_set k v d) = true.
Proof. unfold dict_mem. now rewrite dict_get_set_same. Qed.

Lemma dict_mem_set_other (k k' : str) (v : V) (d : dict V) :
  k <> k' -> dict_mem k (dict_set k' v d) = dict_mem k d.
Proof. intros H. unfold dict_mem. now rewrite dict_get_set_other. Qed.

Lemma dict_set_not_nil (k : str) (v : V) (d : dict V) : dict_set k v d <> [].
Proof. destruct d as [|[k' v'] d]; simpl; [|destruct (str_eqb k k')]; discriminate. Qed.

Lemma dict_set_In (k k' : str) (v v' : V) (d : dict V) :
  In (k, v) (dict_set k' v' d) -> v = v' \/ In (k, v) d.
Proof.
  induction d as [|[k0 v0] d IH]; simpl.
  - intros [H|[]]. inversion H. now left.
  - destruct (str_eqb k' k0) eqn:E; simpl.
    + intros [H|H]; [inversion H; now left | right; now right].
    + intros [H|H]; [right; now left|]. destruct (IH H); auto.
Qed.

Lemma dict_get_In (k : str) (v : V) (d : dict V) :
  dict_get k d = Some v -> In (k, v) d.
Proof.
  induction d as [|[k0 v0] d IH]; simpl; [discriminate|].
  destruct (str_eqb k k0) eqn:E.
  - apply str_eqb_eq in E. intros H. inversion H. subst. now left.
  - intros H. right. auto.
Qed.

Lemma dict_mem_In (k : str) (d : dict V) :
  dict_mem k d = true <-> exists v, In (k, v) d.
Proof.
  unfold dict_mem. split.
  - destruct (dict_get k d) eqn:E; [|discriminate].
    intros _. exists v. now apply dict_get_In.
  - intros [v H]. induction d as [|[k0 v0] d IH]; simpl; [destruct H|].
    destruct (str_eqb k k0) eqn:E; [reflexivity|].
    destruct H as [H|H]; [|auto].
    inversion H. subst. now rewrite str_eqb_refl in E.
Qed.

End DictFacts.

(** ** The provider listing *)

Lemma keep_configured_mem (k : str) (keys : dict (option str)) :
  dict_mem k (keep_configured keys) = true <->
  exists v, In (k, Some v) keys /\ has_value (Some v) = true.
Proof.
  rewrite dict_mem_In. unfold keep_configured. split.
  - intros [v H]. apply in_flat_map in H as [[k' o] [Hin Hx]].
    simpl in Hx. destruct o as [[|c s]|]; simpl in Hx; try contradiction.
    destruct Hx as [Hx|[]]. inversion Hx. subst. exists (c :: s). now split.
  - intros [v [Hin Hv]]. destruct v as [|c s]; [discriminate|].
    exists (c :: s). apply in_flat_map. exists (k, Some (c :: s)). split; [assumption|].
    simpl. now left.
Qed.

(** C10.  Whatever credentials are configured, the listing has exactly the
    three entries qwen-vl-max, gemini-3-pro and glm-4v, in this order; an
    entry is marked available exactly when the credential map holds a value
    for its id; and claude, which [grade_with_model] has a branch for, is
    never listed. *)
Theorem C10_listing_is_fixed :
  forall (api_keys : dict (option str)) (environ : dict str),
    let keys := init_api_keys api_keys environ in
    let listing := check_available_models keys in
    map id listing = [u "qwen-vl-max"; u "gemini-3-pro"; u "glm-4v"]
    /\ (forall m, In m listing ->
          (available m = true <->
           exists v, In (id m, Some v) (credential_source api_keys environ)
                     /\ has_value (Some v) = true))
    /\ (forall m, In m listing -> available m = dict_mem (id m) keys)
    /\ family_of (u "claude") = Some Claude
    /\ ~ In (u "claude") (map id listing).
Proof.
  intros api_keys environ keys listing.
  assert (Hav : forall m, In m listing -> available m = dict_mem (id m) keys).
  { intros m Hm. unfold listing, check_available_models in Hm.
    apply in_map_iff in Hm as [[i n] [<- _]]. simpl.
    destruct (dict_mem i keys) eqn:E; simpl; now rewrite E. }
  assert (Hids : map id listing = map fst listed_models).
  { unfold listing, check_available_models. rewrite map_map.
    apply map_ext. intros [i n]. simpl. now destruct (dict_mem i keys). }
  split; [exact Hids|]. split; [|split; [exact Hav|split]].
  - intros m Hm. rewrite (Hav m Hm). unfold keys, init_api_keys.
    fold (credential_source api_keys environ). apply keep_configured_mem.
  - reflexivity.
  - rewrite Hids. simpl.
    intros [H|[H|[H|[]]]]; vm_compute in H; discriminate.
Qed.

(** ** Exceptions and loops *)

Lemma bind_Ok {A B : Type} (c : res A) (k : A -> res B) (b : B) :
  bind c k = Ok b -> exists a, c = Ok a /\ k a = Ok b.
Proof. destruct c as [a|e]; simpl; [eauto | discriminate]. Qed.

Ltac bind_inv H :=
  let a := fresh "a" in
  let Ha := fresh "Ha" in
  apply bind_Ok in H as [a [Ha H]].

Lemma for_each_inv {A S : Type} (I : S -> Prop) (body : S -> A -> res S) :
  (forall s x s', I s -> body s x = Ok s' -> I s') ->
  forall l s s', I s -> for_each l body s = Ok s' -> I s'.
Proof.
  intros Hstep l. induction l as [|x l IH]; simpl; intros s s' Hs H.
  - inversion H. now subst.
  - bind_inv H. eauto.
Qed.

(** ** Comparisons of floats *)

Lemma Qltb_lt (x y : Q) : Qltb x y = true <-> (x < y)%Q.
Proof.
  unfold Qltb. rewrite negb_true_iff. split.
  - intros H. apply Qnot_le_lt. intros Hle. apply Qle_bool_iff in Hle. congruence.
  - intros H. destruct (Qle_bool y x) eqn:E; [|reflexivity].
    apply Qle_bool_iff in E. exfalso. now apply (Qlt_not_le x y).
Qed.

Lemma Qltb_ge (x y : Q) : Qltb x y = false <-> (y <= x)%Q.
Proof.
  unfold Qltb. rewrite negb_false_iff. apply Qle_bool_iff.
Qed.

Lemma pf_leb_fin (x y : Q) : pf_leb (Fin x) (Fin y) = true <-> (x <= y)%Q.
Proof. simpl. apply Qle_bool_iff. Qed.

Lemma pf_ltb_fin (x y : Q) : pf_ltb (Fin x) (Fin y) = true <-> (x < y)%Q.
Proof. simpl. apply Qltb_lt. Qed.

(** ** The aggregated score *)

Lemma round_to_half_fin (x : pyfloat) (h : pyfloat) :
  round_to_half x = Ok h ->
  exists q, x = Fin q /\ h = Fin (inject_Z (round_half_even (q * inject_Z 2)) / inject_Z 2)%Q.
Proof.
  unfold round_to_half. intros H. bind_inv H.
  destruct x as [q| | |]; simpl in Ha; try discriminate.
  inversion Ha. subst a. exists q. split; [reflexivity|].
  unfold pf_div, pf_of_Z in H. simpl in H. now inversion H.
Qed.

(** [max(0, x)] is never negative, and is the literal 0 unless [x] is
    positive. *)
Lemma py_max_zero_cases (x : pyfloat) :
  (pf_ltb pf_zero x = true /\ py_max pf_zero x = x) \/
  (pf_ltb pf_zero x = false /\ py_max pf_zero x = pf_zero).
Proof. unfold py_max. destruct (pf_ltb pf_zero x); auto. Qed.

Lemma py_min_fin (h : Q) (m : pyfloat) :
  exists q, py_max pf_zero (py_min (Fin h) m) = Fin q.
Proof.
  unfold py_max, py_min.
  destruct m as [m| | |]; simpl;
    repeat match goal with
           | |- context [if ?b then _ else _] => destruct b; simpl
           end; unfold pf_zero; eauto.
Qed.

Lemma final_score_of_cases (scores : list pyval) (m f : pyfloat) :
  final_score_of scores m = Ok f ->
  (exists q, f = Fin q) /\ (pf_ltb pf_zero f = false -> f = pf_zero).
Proof.
  unfold final_score_of. destruct scores as [|v scores].
  - intros H. inversion H. split; [eexists; reflexivity | reflexivity].
  - intros H. bind_inv H. bind_inv H. bind_inv H.
    apply round_to_half_fin in Ha1 as [q [_ ->]]. inversion H. subst f. split.
    + apply py_min_fin.
    + destruct (py_max_zero_cases
                  (py_min (Fin (inject_Z (round_half_even (q * inject_Z 2)) / inject_Z 2)%Q) m))
        as [[H1 H2]|[H1 H2]]; rewrite H2; [congruence | reflexivity].
Qed.

Section AggregatorFacts.

Variable float_of_str : str -> option pyfloat.

Lemma combine_question_verdict info default_max q_id qr d :
  combine_question float_of_str info default_max q_id qr = Ok d -> verdict_ok d.
Proof.
  unfold combine_question. intros H.
  bind_inv H. bind_inv H. bind_inv H.
  destruct (split_unique_id q_id) as [g s]. inversion H. subst d. clear H.
  apply final_score_of_cases in Ha0 as [Hfin Hz].
  unfold verdict_ok. simpl. auto.
Qed.

Lemma combine_results_verdict all_res questions default_max report q d :
  combine_results_v2 float_of_str all_res questions default_max = Ok report ->
  In (q, d) (details report) -> verdict_ok d.
Proof.
  unfold combine_results_v2. intros H Hin. bind_inv H.
  destruct a as [[final total] max_total]. bind_inv H. inversion H. subst report.
  simpl in Hin. clear H Ha0.
  revert q d Hin.
  apply (for_each_inv
           (fun st : dict detail * pyfloat * pyfloat =>
              forall q d, In (q, d) (fst (fst st)) -> verdict_ok d)
           (combine_step float_of_str (q_info_map questions) default_max))
    with (l := all_res) (s := ([], pf_zero, pf_zero)) (s' := (final, total, max_total));
    [| simpl; contradiction | exact Ha].
  intros [[fr t] mt] kv s' Hs Hstep. unfold combine_step in Hstep. bind_inv Hstep.
  inversion Hstep. subst s'. simpl. intros q d Hin.
  apply dict_set_In in Hin as [->|Hin].
  - eapply combine_question_verdict; eauto.
  - eapply Hs; simpl; eauto.
Qed.

End AggregatorFacts.

(** ** The verdict and the comment of a question *)

(** C7.  In every entry of the aggregated report, [is_correct] holds exactly
    when the final score is at least 0.6 times the maximum score, and the
    comment is "正确" (correct) when [is_correct], else "基本正确" (mostly
    correct) when the final score is at least 0.5 times the maximum score,
    else "部分正确" (partially correct) when the final score is positive,
    else "错误" (incorrect), in which last case the final score is 0. *)
Theorem C7_verdict_and_comment :
  forall (float_of_str : str -> option pyfloat)
         (all_res : dict (dict (dict pyval))) (questions : list (dict pyval))
         (default_max : pyfloat) (report : exam_report) (q : str) (d : detail),
    combine_results_v2 float_of_str all_res questions default_max = Ok report ->
    In (q, d) (details report) ->
    let at_least (ratio : Q) := pf_leb (pf_mul (max_score d) (Fin ratio)) (score d) in
    is_correct d = at_least (6 # 10)%Q
    /\ (forall s m, score d = Fin s -> max_score d = Fin m ->
          (is_correct d = true <-> (m * (6 # 10) <= s)%Q))
    /\ (is_correct d = true -> comment d = u "正确")
    /\ (is_correct d = false -> at_least (5 # 10)%Q = true -> comment d = u "基本正确")
    /\ (is_correct d = false -> at_least (5 # 10)%Q = false ->
        pf_ltb pf_zero (score d) = true -> comment d = u "部分正确")
    /\ (is_correct d = false -> at_least (5 # 10)%Q = false ->
        pf_ltb pf_zero (score d) = false ->
        comment d = u "错误" /\ score d = pf_zero)
    /\ (comment d = u "错误" -> score d = pf_zero).
Proof.
  intros F all_res questions default_max report q d Hc Hin at_least.
  destruct (combine_results_verdict F all_res questions default_max report q d Hc Hin)
    as [Hic [Hcm [_ Hz]]].
  unfold at_least. unfold is_correct_of in Hic. unfold comment_of, is_correct_of in Hcm.
  rewrite <- Hic in Hcm.
  split; [exact Hic|]. split.
  { intros s m Hs Hm. rewrite Hic, Hs, Hm. simpl. apply Qle_bool_iff. }
  split; [intros H; now rewrite H in Hcm|].
  split; [intros H1 H2; now rewrite H1, H2 in Hcm|].
  split; [intros H1 H2 H3; now rewrite H1, H2, H3 in Hcm|].
  split; [intros H1 H2 H3; rewrite H1, H2, H3 in Hcm; auto|].
  intros Hw. apply Hz.
  destruct (pf_ltb pf_zero (score d)) eqn:E; [|reflexivity].
  rewrite Hcm in Hw.
  destruct (is_correct d);
    [|destruct (pf_leb (pf_mul (max_score d) (Fin (5 # 10))) (score d))];
    vm_compute in Hw; discriminate.
Qed.

Lemma C7_verdict_and_comment_witness :
  is_correct sample_detail = true /\ comment sample_detail = u "正确".
Proof.
  destruct (C7_verdict_and_comment no_float sample_all_results sample_questions
              (Fin 10) sample_report (u "1") sample_detail)
    as [H1 [_ [H3 _]]].
  - vm_compute. reflexivity.
  - vm_compute. left. reflexivity.
  - split; [reflexivity | apply H3; reflexivity].
Defined.

(** ** Rounding to the half point, and the clamp after it *)

Lemma round_half_even_near (y : Q) :
  (Qabs (y - inject_Z (round_half_even y)) <= 1 # 2)%Q.
Proof.
  unfold round_half_even.
  pose proof (Qfloor_le y) as Hlo. pose proof (Qlt_floor y) as Hhi.
  rewrite inject_Z_plus in Hhi. change (inject_Z 1) with 1%Q in Hhi.
  destruct (Qcompare (y - inject_Z (Qfloor y)) (1 # 2)) eqn:E.
  - apply Qeq_alt in E. apply Qabs_case; intros _;
      destruct (Z.even (Qfloor y)); rewrite ?inject_Z_plus;
      change (inject_Z 1) with 1%Q; lra.
  - apply Qlt_alt in E. apply Qabs_case; intros _; lra.
  - apply Qgt_alt in E. rewrite inject_Z_plus. change (inject_Z 1) with 1%Q.
    apply Qabs_case; intros _; lra.
Qed.

Lemma py_sum_from (scores : list pyval) (qs : list Q) (a : Q) :
  Forall2 (fun v q => num_of v = Some (Fin q)) scores qs ->
  for_each scores
    (fun acc v => match num_of v with
                  | Some f => Ok (pf_add acc f)
                  | None => Raise TypeError
                  end) (Fin a)
  = Ok (Fin (fold_left Qplus qs a)).
Proof.
  intros H. revert a. induction H as [|v q scores qs Hv _ IH]; intros a; simpl.
  - reflexivity.
  - rewrite Hv. simpl. apply IH.
Qed.

Lemma py_sum_fin (scores : list pyval) (qs : list Q) :
  Forall2 (fun v q => num_of v = Some (Fin q)) scores qs ->
  py_sum scores = Ok (Fin (fold_left Qplus qs 0%Q)).
Proof. apply py_sum_from. Qed.

Lemma inject_nat_nonzero (n : nat) :
  n <> O -> Qeq_bool (inject_Z (Z.of_nat n)) 0%Q = false.
Proof.
  intros Hn. destruct (Qeq_bool (inject_Z (Z.of_nat n)) 0%Q) eqn:E; [|reflexivity].
  apply Qeq_bool_iff in E. unfold Qeq in E. simpl in E. lia.
Qed.

Lemma fold_left_zeros (qs : list Q) (a : Q) :
  Forall (fun q => q == 0)%Q qs -> (fold_left Qplus qs a == a)%Q.
Proof.
  intros H. revert a. induction H as [|q qs Hq _ IH]; intros a; simpl.
  - reflexivity.
  - rewrite IH. rewrite Hq. lra.
Qed.

(** The value [max(0, min(r, m))] on finite arguments. *)
Lemma clamp_code (r m : Q) :
  exists f, py_max pf_zero (py_min (Fin r) (Fin m)) = Fin f
            /\ (f == clamp r 0 m)%Q
            /\ (f = r \/ f = m \/ f = 0%Q)
            /\ (0 <= f)%Q
            /\ (0 <= m -> f <= m)%Q.
Proof.
  unfold py_max, py_min, clamp. simpl.
  destruct (Qltb m r) eqn:E1; simpl.
  - apply Qltb_lt in E1. destruct (Qltb 0 m) eqn:E2.
    + apply Qltb_lt in E2. exists m. split; [reflexivity|].
      split; [|split; [auto | split; lra]].
      rewrite (Q.min_r r m) by lra. rewrite Q.max_r by lra. reflexivity.
    + apply Qltb_ge in E2. exists 0%Q. split; [reflexivity|].
      split; [|split; [auto | split; lra]].
      rewrite (Q.min_r r m) by lra. rewrite Q.max_l by lra. reflexivity.
  - apply Qltb_ge in E1. destruct (Qltb 0 r) eqn:E2.
    + apply Qltb_lt in E2. exists r. split; [reflexivity|].
      split; [|split; [auto | split; lra]].
      rewrite (Q.min_l r m) by lra. rewrite Q.max_r by lra. reflexivity.
    + apply Qltb_ge in E2. exists 0%Q. split; [reflexivity|].
      split; [|split; [auto | split; lra]].
      rewrite (Q.min_l r m) by lra. rewrite Q.max_l by lra. reflexivity.
Qed.

(** C2, refuted as stated.  With a maximum score of 0.75 and one provider
    score of 0.75 the final score is 0.75, which is no multiple of 0.5; and
    with a maximum score of 0 a question whose provider failed is marked
    correct. *)
Lemma C2_counterexample :
  match combine_results_v2 no_float odd_point_results odd_point_questions (Fin 10) with
  | Ok report =>
    map (fun kv => (score (snd kv), max_score (snd kv), is_correct (snd kv)))
        (details report)
    = [ (Fin (3 # 4), Fin (3 # 4), true); (Fin 0, Fin 0, true) ]
  | Raise _ => False
  end
  /\ ~ is_half_multiple (3 # 4).
Proof.
  split.
  - vm_compute. reflexivity.
  - intros [k Hk]. unfold Qeq in Hk. simpl in Hk. lia.
Qed.

Lemma half_as_product (n : Z) : (inject_Z n / inject_Z 2 == inject_Z n * (1 # 2))%Q.
Proof. change (inject_Z 2) with 2%Q. field. Qed.

Lemma rounded_half_nearest (x : Q) : nearest_half x (rounded_half x).
Proof.
  unfold rounded_half. split.
  - exists (round_half_even (x * inject_Z 2)). reflexivity.
  - pose proof (round_half_even_near (x * inject_Z 2)) as Hr.
    set (n := round_half_even (x * inject_Z 2)) in *.
    rewrite half_as_product. change (inject_Z 2) with 2%Q in Hr.
    apply Qabs_Qle_condition in Hr. apply Qabs_Qle_condition. lra.
Qed.

Lemma rounded_half_zero (x : Q) : (x == 0)%Q -> (rounded_half x == 0)%Q.
Proof.
  intros Hx. destruct (rounded_half_nearest x) as [_ Hab].
  unfold rounded_half in *. set (n := round_half_even (x * inject_Z 2)) in *.
  rewrite half_as_product in *.
  apply Qabs_Qle_condition in Hab. rewrite Hx in Hab.
  assert (Hn : n = 0).
  { assert (H1 : (inject_Z n < inject_Z 1)%Q) by (change (inject_Z 1) with 1%Q; lra).
    assert (H2 : (inject_Z (-1) < inject_Z n)%Q)
      by (change (inject_Z (-1)) with (-1)%Q; lra).
    rewrite <- Zlt_Qlt in H1, H2. lia. }
  rewrite Hn. reflexivity.
Qed.

(** The code on finite provider scores. *)
Lemma final_score_of_fin (scores : list pyval) (qs : list Q) (m : pyfloat) :
  scores <> [] ->
  Forall2 (fun v q => num_of v = Some (Fin q)) scores qs ->
  final_score_of scores m
  = Ok (py_max pf_zero (py_min (Fin (rounded_half (mean qs))) m)).
Proof.
  intros Hne HF. pose proof (Forall2_length HF) as Hlen.
  unfold final_score_of. destruct scores as [|v scores]; [contradiction|].
  rewrite (py_sum_fin _ _ HF). simpl bind.
  change (Z.pos (Pos.of_succ_nat (List.length scores)))
    with (Z.of_nat (List.length (v :: scores))).
  rewrite Hlen. reflexivity.
Qed.

Lemma mean_zeros (qs : list Q) : Forall (fun q => q == 0)%Q qs -> (mean qs == 0)%Q.
Proof.
  intros Hz. unfold mean. rewrite (fold_left_zeros qs 0 Hz). unfold Qdiv. lra.
Qed.

(** When every provider score is 0 the final score is 0. *)
Lemma final_score_all_zero (scores : list pyval) (qs : list Q) (m : Q) :
  scores <> [] ->
  Forall2 (fun v q => num_of v = Some (Fin q)) scores qs ->
  Forall (fun q => q == 0)%Q qs ->
  exists f, final_score_of scores (Fin m) = Ok (Fin f) /\ (f == 0)%Q.
Proof.
  intros Hne HF Hz. rewrite (final_score_of_fin scores qs (Fin m) Hne HF).
  destruct (clamp_code (rounded_half (mean qs)) m) as [f [Hf [Hcl _]]].
  exists f. split; [now rewrite Hf|].
  rewrite Hcl. unfold clamp. apply Q.max_l.
  rewrite <- (rounded_half_zero (mean qs) (mean_zeros qs Hz)). apply Q.le_min_l.
Qed.

(** C2, amended.  For a finite maximum score and a non-empty list of finite
    provider scores the code returns
    clamp(round_to_nearest_half(mean), 0, max_score); the result is never
    negative, is at most a maximum score that is not negative, and is a
    multiple of 0.5 or the maximum score itself; when all provider scores
    are 0 it is 0, and then the question is not correct if the maximum score
    is positive. *)
Theorem C2_final_score_rule :
  forall (scores : list pyval) (qs : list Q) (m : Q),
    scores <> [] ->
    Forall2 (fun v q => num_of v = Some (Fin q)) scores qs ->
    exists f r : Q,
      final_score_of scores (Fin m) = Ok (Fin f)
      /\ nearest_half (mean qs) r
      /\ (f == clamp r 0 m)%Q
      /\ (0 <= f)%Q
      /\ ((0 <= m)%Q -> (f <= m)%Q)
      /\ (is_half_multiple f \/ (f == m)%Q)
      /\ (Forall (fun q => q == 0)%Q qs ->
          (f == 0)%Q /\ ((0 < m)%Q -> is_correct_of (Fin f) (Fin m) = false)).
Proof.
  intros scores qs m Hne HF.
  destruct (clamp_code (rounded_half (mean qs)) m) as [f [Hf [Hcl [Hcase [H0 Hm]]]]].
  exists f, (rounded_half (mean qs)).
  split; [rewrite (final_score_of_fin scores qs (Fin m) Hne HF); now rewrite Hf|].
  split; [apply rounded_half_nearest|].
  split; [exact Hcl|]. split; [exact H0|]. split; [exact Hm|].
  split.
  { destruct Hcase as [-> | [-> | ->]].
    - left. exists (round_half_even (mean qs * inject_Z 2)). reflexivity.
    - right. reflexivity.
    - left. exists 0. reflexivity. }
  intros Hz.
  destruct (final_score_all_zero scores qs m Hne HF Hz) as [f' [Hf' Hf0]].
  rewrite (final_score_of_fin scores qs (Fin m) Hne HF), Hf in Hf'.
  inversion Hf'. subst f'.
  split; [exact Hf0|].
  intros Hpos. unfold is_correct_of. simpl.
  destruct (Qle_bool (m * (6 # 10)) f) eqn:E; [|reflexivity].
  apply Qle_bool_iff in E. lra.
Qed.

Lemma C2_final_score_rule_witness :
  exists f : Q,
    final_score_of [PFloat (Fin 10); PFloat (Fin 6)] (Fin 10) = Ok (Fin f)
    /\ (0 <= f)%Q /\ (f <= 10)%Q.
Proof.
  destruct (C2_final_score_rule [PFloat (Fin 10); PFloat (Fin 6)] [10%Q; 6%Q] 10%Q)
    as [f [r [H1 [_ [_ [H4 [H5 _]]]]]]].
  - discriminate.
  - repeat constructor.
  - exists f. split; [exact H1|]. split; [exact H4|]. apply H5. lra.
Defined.

(** ** Failed providers in the mean *)

(** C1, refuted as stated.  One provider grades 10 out of 10 and the request
    to the other raises: the final score is 5, the mean of 10 and 0, where
    the mean of the usable scores alone is 10. *)
Lemma C1_counterexample :
  exists f : Q,
    final_scores
      (grade_exam_with_multiple_models no_float keep_text some_text some_repr
         (init_api_keys [] two_keys) (Some 1) (Some (Fin 10)) [] [] one_fails fs_init)
    = [Fin f]
    /\ (f == 5)%Q /\ ~ (f == 10)%Q.
Proof.
  exists (10 # 2)%Q. split; [vm_compute; reflexivity|].
  split; [reflexivity|]. intros H. unfold Qeq in H. simpl in H. lia.
Qed.

Lemma dict_set_fresh {V : Type} (k : str) (v : V) (d : dict V) :
  ~ In k (dict_keys d) -> dict_set k v d = d ++ [(k, v)].
Proof.
  induction d as [|[k' v'] d IH]; simpl; intros Hn; [reflexivity|].
  destruct (str_eqb k k') eqn:E.
  - apply str_eqb_eq in E. subst. exfalso. apply Hn. now left.
  - f_equal. apply IH. intros H. apply Hn. now right.
Qed.

Lemma scores_of_from (qr : dict (dict pyval)) (acc : list pyval) :
  Forall (fun r => dict_mem (u "score") r = true) (dict_values qr) ->
  for_each (dict_values qr)
    (fun acc r => s <- subscript (u "score") r ;; Ok (acc ++ [s])) acc
  = Ok (acc ++ map (get (u "score")) (dict_values qr)).
Proof.
  revert acc. induction qr as [|[k r] qr IH]; simpl; intros acc H.
  - now rewrite app_nil_r.
  - inversion H as [|? ? Hr Hrest]. subst.
    unfold subscript, get, dict_mem in *.
    destruct (dict_get (u "score") r) as [sv|]; [|discriminate]. simpl.
    rewrite (IH _ Hrest). now rewrite <- app_assoc.
Qed.

Lemma scores_of_all (qr : dict (dict pyval)) :
  Forall (fun r => dict_mem (u "score") r = true) (dict_values qr) ->
  scores_of qr = Ok (map (get (u "score")) (dict_values qr)).
Proof. intros H. unfold scores_of. now rewrite (scores_of_from qr [] H). Qed.

Section GatewayFacts.

Variable float_of_str : str -> option pyfloat.
Variable clean_text : str -> str.
Variable exn_text : exn -> str.

Lemma grade_try_result model_name max env w :
  fst (grade_try float_of_str clean_text model_name max env w)
  = fst (grade_try float_of_str clean_text model_name max env fs_init).
Proof.
  unfold grade_try.
  repeat match goal with
         | |- context [match ?x with _ => _ end] => destruct x; simpl
         end; reflexivity.
Qed.

(** What a call returns does not depend on the artifact. *)
Lemma grade_with_model_result api_keys model_name max env w :
  fst (grade_with_model float_of_str clean_text exn_text api_keys model_name max env w)
  = fst (grade_with_model float_of_str clean_text exn_text api_keys model_name max env
                          fs_init).
Proof.
  unfold grade_with_model. destruct (dict_mem model_name api_keys); simpl; [|reflexivity].
  pose proof (grade_try_result model_name max env w) as H.
  destruct (grade_try float_of_str clean_text model_name max env w) as [r1 w1].
  destruct (grade_try float_of_str clean_text model_name max env fs_init) as [r2 w2].
  simpl in H. subst r2. now destruct r1.
Qed.

Lemma grade_models_entries api_keys max envs models :
  forall pos qr0 w qr w',
    NoDup (dict_keys qr0 ++ models) ->
    grade_models float_of_str clean_text exn_text api_keys max envs models pos qr0 w
    = (Ok qr, w') ->
    qr = qr0 ++ map (fun im => (snd im, stored_entry (outcome float_of_str clean_text exn_text api_keys max envs im)))
                    (indexed pos models)
    /\ Forall (fun im => dict_mem (u "score") (stored_entry (outcome float_of_str clean_text exn_text api_keys max envs im))
                         = true)
              (indexed pos models).
Proof.
  induction models as [|m models IH]; intros pos qr0 w qr w' Hnd H.
  - simpl in H. unfold retM in H. inversion H. subst.
    simpl. rewrite app_nil_r. split; [reflexivity | constructor].
  - simpl in H. unfold bindM in H.
    destruct (grade_one float_of_str clean_text exn_text api_keys max (envs pos) m qr0 w)
      as [r1 w1] eqn:E1.
    destruct r1 as [qr1|e]; [|discriminate].
    unfold grade_one in E1.
    pose proof (grade_with_model_result api_keys m max (envs pos) w) as Hres.
    destruct (grade_with_model float_of_str clean_text exn_text api_keys m max (envs pos) w)
      as [result wr].
    simpl in Hres. inversion E1 as [[Hq Hw]]. subst w1. clear E1.
    assert (Hfresh : ~ In m (dict_keys qr0)).
    { intros Hin. apply NoDup_remove_2 in Hnd. apply Hnd.
      apply in_or_app. now left. }
    assert (Hst : qr1 = qr0 ++ [(m, stored_entry result)]
                  /\ dict_mem (u "score") (stored_entry result) = true).
    { unfold stored_entry, succeeded.
      bind_inv Hq. unfold subscript, get in *.
      destruct (dict_get (u "success") result) as [sv|]; [|discriminate].
      inversion Ha. subst a.
      destruct (truthy sv).
      - bind_inv Hq. bind_inv Hq. inversion Hq.
        split; [now apply dict_set_fresh|].
        unfold dict_mem. destruct (dict_get (u "score") result); [reflexivity|discriminate].
      - inversion Hq. split; [now apply dict_set_fresh | reflexivity]. }
    destruct Hst as [-> Hsc].
    change (fst (grade_with_model float_of_str clean_text exn_text api_keys m max
                                  (envs pos) fs_init))
      with (outcome float_of_str clean_text exn_text api_keys max envs (pos, m)) in Hres.
    subst result.
    apply IH in H.
    + destruct H as [-> HF]. unfold indexed. simpl.
      fold (indexed (S pos) models).
      rewrite <- app_assoc. simpl. split; [reflexivity|].
      constructor; [exact Hsc | exact HF].
    + unfold dict_keys. rewrite map_app. simpl. rewrite <- app_assoc. exact Hnd.
Qed.

End GatewayFacts.

Lemma map_snd_indexed (pos : nat) (models : list str) :
  map snd (indexed pos models) = models.
Proof.
  unfold indexed. revert pos. induction models as [|m models IH]; intros pos; simpl.
  - reflexivity.
  - f_equal. apply IH.
Qed.

Lemma stored_entry_score (r : dict pyval) :
  get (u "score") (stored_entry r) = data_point r.
Proof. unfold stored_entry, data_point. now destruct (succeeded r). Qed.

(** C1, amended.  For the providers of one question (each used once), the
    list of scores that enters the mean has one data point per provider: the
    returned score of a provider that succeeded and 0 for a provider whose
    call failed; when every provider failed the final score is 0. *)
Theorem C1_failed_provider_counts_as_zero :
  forall (float_of_str : str -> option pyfloat) (clean_text : str -> str)
         (exn_text : exn -> str) (api_keys : dict str) (max : pyfloat)
         (envs : nat -> call_env) (models : list str) (w : fs)
         (qr : dict (dict pyval)) (w' : fs),
    NoDup models ->
    grade_models float_of_str clean_text exn_text api_keys max envs models 0 [] w
    = (Ok qr, w') ->
    let results :=
      map (outcome float_of_str clean_text exn_text api_keys max envs)
          (indexed 0 models) in
    dict_keys qr = models
    /\ scores_of qr = Ok (map data_point results)
    /\ List.length (map data_point results) = List.length models
    /\ (forall r, In r results -> succeeded r = false -> data_point r = PInt 0)
    /\ (forall m : Q, models <> [] ->
          Forall (fun r => succeeded r = false) results ->
          exists f, final_score_of (map data_point results) (Fin m) = Ok (Fin f)
                    /\ (f == 0)%Q).
Proof.
  intros F C E api_keys max envs models w qr w' Hnd H results.
  apply grade_models_entries in H; [|exact Hnd].
  destruct H as [Hqr HF]. simpl in Hqr.
  assert (Hvals : dict_values qr = map stored_entry results).
  { rewrite Hqr. unfold dict_values, results. rewrite !map_map. reflexivity. }
  assert (Hlen : List.length results = List.length models).
  { unfold results. rewrite length_map. rewrite <- (map_snd_indexed 0 models) at 2.
    now rewrite length_map. }
  split.
  { rewrite Hqr. unfold dict_keys. rewrite map_map. simpl. apply map_snd_indexed. }
  split.
  { rewrite scores_of_all.
    - rewrite Hvals, map_map. f_equal. apply map_ext. intros r. apply stored_entry_score.
    - rewrite Hvals. apply Forall_map. unfold results. apply Forall_map. exact HF. }
  split; [now rewrite length_map|].
  split.
  { intros r _ Hr. unfold data_point. now rewrite Hr. }
  intros m Hne Hall.
  apply (final_score_all_zero _ (map (fun _ => 0%Q) results)).
  - destruct results; [|discriminate]. destruct models; [contradiction | discriminate].
  - clear -Hall. induction Hall as [|r rs Hr _ IH]; simpl; constructor; [|exact IH].
    unfold data_point. rewrite Hr. reflexivity.
  - apply Forall_map. apply Forall_forall. intros. reflexivity.
Qed.

Lemma C1_failed_provider_counts_as_zero_witness :
  scores_of sample_question_results = Ok [PFloat (Fin 10); PInt 0].
Proof.
  destruct (C1_failed_provider_counts_as_zero no_float keep_text some_text
              (init_api_keys [] two_keys) (Fin 10) (calls one_fails 0)
              sample_providers fs_init sample_question_results sample_fs)
    as [_ [H _]].
  - constructor; [|constructor; [intros []|constructor]].
    intros [H|[]]. vm_compute in H. discriminate.
  - vm_compute. reflexivity.
  - rewrite H. vm_compute. reflexivity.
Defined.

(** ** The parsed score *)

Lemma pf_ltb_leb (a b : pyfloat) : pf_ltb a b = true -> pf_leb a b = true.
Proof.
  destruct a as [x| | |], b as [y| | |]; simpl; try discriminate; try reflexivity.
  intros H. apply Qltb_lt in H. apply Qle_bool_iff. lra.
Qed.

Lemma pf_not_ltb_leb (a b : pyfloat) :
  pf_ltb b a = false -> pf_ltb pf_zero a = true -> pf_ltb pf_zero b = true ->
  pf_leb a b = true.
Proof.
  destruct a as [x| | |], b as [y| | |]; simpl; try discriminate; try reflexivity.
  intros H _ _. apply Qltb_ge in H. now apply Qle_bool_iff.
Qed.

Lemma pf_leb_refl_pos (a : pyfloat) : pf_ltb pf_zero a = true -> pf_leb a a = true.
Proof.
  destruct a as [x| | |]; simpl; try discriminate; try reflexivity.
  intros _. apply Qle_bool_iff. lra.
Qed.

(** [max(0, min(score, max_score))] lies between 0 and a positive
    [max_score], whatever the score: finite, infinite or [nan]. *)
Lemma clamp_score_range (x m : pyfloat) :
  pf_ltb pf_zero m = true ->
  exists y, num_of (clamp_score x m) = Some y
            /\ pf_leb pf_zero y = true /\ pf_leb y m = true.
Proof.
  intros Hm. unfold clamp_score, py_min.
  destruct (pf_ltb m x) eqn:E1.
  - rewrite Hm. exists m. split; [reflexivity|].
    split; [now apply pf_ltb_leb | now apply pf_leb_refl_pos].
  - destruct (pf_ltb pf_zero x) eqn:E2.
    + exists x. split; [reflexivity|].
      split; [now apply pf_ltb_leb | now apply pf_not_ltb_leb].
    + exists pf_zero. split; [reflexivity|].
      split; [reflexivity | now apply pf_ltb_leb].
Qed.

Section ParserFacts.

Variable float_of_str : str -> option pyfloat.
Variable clean_text : str -> str.

Lemma score_is_not_analysis : u "score" <> u "analysis".
Proof. intros H. vm_compute in H. discriminate. Qed.

Lemma process_result_dict (max_score : pyfloat) (r : pyval) (d' : dict pyval) :
  process_result float_of_str clean_text max_score r = Ok (PDict d') ->
  exists d, r = PDict d /\ d <> []
    /\ dict_mem (u "score") d' = dict_mem (u "score") d
    /\ (dict_mem (u "score") d = true ->
        get (u "score") d' = coerced_score float_of_str max_score d)
    /\ (dict_mem (u "score") d = false -> get (u "score") d' = PNone).
Proof.
  unfold process_result. destruct (truthy r) eqn:Ht; simpl; [|discriminate].
  destruct r as [| | | | | |d]; try discriminate.
  intros H. exists d. split; [reflexivity|].
  split; [destruct d; [discriminate Ht | discriminate]|].
  set (d1 := if dict_mem (u "score") d
             then match py_float float_of_str (get (u "score") d) with
                  | Ok score => dict_set (u "score") (clamp_score score max_score) d
                  | Raise _ => dict_set (u "score") (PInt 0) d
                  end
             else d) in *.
  assert (H1 : dict_mem (u "score") d1 = dict_mem (u "score") d
               /\ (dict_mem (u "score") d = true ->
                   get (u "score") d1 = coerced_score float_of_str max_score d)
               /\ (dict_mem (u "score") d = false -> get (u "score") d1 = PNone)).
  { unfold d1, coerced_score. destruct (dict_mem (u "score") d) eqn:Em.
    - destruct (py_float float_of_str (get (u "score") d)); unfold get;
        rewrite dict_mem_set_same, dict_get_set_same; repeat split; auto; discriminate.
    - rewrite Em. repeat split; try discriminate.
      intros _. unfold get. unfold dict_mem in Em.
      now destruct (dict_get (u "score") d). }
  destruct H1 as [Hm [Hg Hn]].
  assert (H2 : dict_mem (u "score") d' = dict_mem (u "score") d1
               /\ get (u "score") d' = get (u "score") d1).
  { destruct (dict_mem (u "analysis") d1).
    - bind_inv H. inversion H. unfold get.
      rewrite dict_mem_set_other, dict_get_set_other by apply score_is_not_analysis.
      now split.
    - inversion H. now split. }
  destruct H2 as [Hm2 Hg2]. rewrite Hm2, Hg2. auto.
Qed.

Lemma try_blocks_processed (max_score : pyfloat) (blocks : list str) (v : pyval) :
  try_blocks float_of_str clean_text max_score blocks = Ok (Some v) ->
  exists r, process_result float_of_str clean_text max_score r = Ok v.
Proof.
  induction blocks as [|b blocks IH]; simpl; [discriminate|].
  destruct (negb (find lbrace b =? -1) && (find lbrace b <? rfind rbrace b)); [|exact IH].
  destruct (truthy (try_parse (slice b (find lbrace b) (rfind rbrace b + 1)))); [|exact IH].
  intros H. bind_inv H. destruct (truthy a); [|now apply IH].
  inversion H. subst. eauto.
Qed.

Lemma outer_braces_processed (max_score : pyfloat) (text : str) (v : pyval) (j : str) :
  outer_braces float_of_str clean_text max_score text = (Some v, j) ->
  exists r, process_result float_of_str clean_text max_score r = Ok v.
Proof.
  unfold outer_braces.
  repeat match goal with
         | |- context [if ?b then _ else _] => destruct b; try discriminate
         end.
  match goal with
  | |- context [process_result float_of_str clean_text ?m ?r] =>
    destruct (process_result float_of_str clean_text m r) as [x|] eqn:E
  end; [|discriminate].
  destruct (truthy x); [|discriminate].
  intros H. inversion H. subst. eauto.
Qed.

(** Whatever [parse_grading_response] returns went through
    [process_result], unless it is [None]. *)
Lemma parse_processed (text : str) (max_score : pyfloat) (v : pyval) :
  parse_grading_response float_of_str clean_text text max_score = Ok v ->
  v = PNone \/ exists r, process_result float_of_str clean_text max_score r = Ok v.
Proof.
  unfold parse_grading_response. intros H. bind_inv H.
  destruct a as [x|].
  - inversion H. subst. right. eapply try_blocks_processed. eassumption.
  - destruct (outer_braces float_of_str clean_text max_score text) as [[x|] j] eqn:E.
    + inversion H. subst. right. eapply outer_braces_processed. eassumption.
    + destruct (truthy (try_parse (repair j))).
      * right. eauto.
      * inversion H. now left.
Qed.

End ParserFacts.




(** ** String search *)

Lemma find_from_none (c : char) (s : str) (i : Z) :
  ~ In c s -> find_from c s i = -1.
Proof.
  revert i. induction s as [|x s IH]; intros i Hn; simpl; [reflexivity|].
  destruct (N.eqb_spec x c) as [->|_].
  - exfalso. apply Hn. now left.
  - apply IH. intros H. apply Hn. now right.
Qed.

Lemma find_none (c : char) (s : str) : ~ In c s -> find c s = -1.
Proof. apply find_from_none. Qed.

Lemma find_from_app (c : char) (pre s : str) (i : Z) :
  ~ In c pre ->
  find_from c (pre ++ c :: s) i = i + Z.of_nat (List.length pre).
Proof.
  revert i. induction pre as [|x pre IH]; intros i Hn; simpl.
  - rewrite N.eqb_refl. lia.
  - destruct (N.eqb_spec x c) as [->|_].
    + exfalso. apply Hn. now left.
    + rewrite IH; [lia|]. intros H. apply Hn. now right.
Qed.

Lemma find_app (c : char) (pre s : str) :
  ~ In c pre -> find c (pre ++ c :: s) = Z.of_nat (List.length pre).
Proof. intros H. unfold find. now rewrite find_from_app. Qed.

Lemma rfind_from_none (c : char) (s : str) (i : Z) :
  ~ In c s -> rfind_from c s i = -1.
Proof.
  revert i. induction s as [|x s IH]; intros i Hn; simpl; [reflexivity|].
  rewrite IH by (intros H; apply Hn; now right). simpl.
  destruct (N.eqb_spec x c) as [->|_]; [|reflexivity].
  exfalso. apply Hn. now left.
Qed.

Lemma rfind_none (c : char) (s : str) : ~ In c s -> rfind c s = -1.
Proof. apply rfind_from_none. Qed.

Lemma rfind_from_app (c : char) (s post : str) (i : Z) :
  0 <= i -> ~ In c post ->
  rfind_from c (s ++ c :: post) i = i + Z.of_nat (List.length s).
Proof.
  revert i. induction s as [|x s IH]; intros i Hi Hn; simpl.
  - rewrite rfind_from_none by assumption. simpl. rewrite N.eqb_refl. lia.
  - rewrite IH by (assumption || lia).
    destruct (Z.eqb_spec (i + 1 + Z.of_nat (List.length s)) (-1)); lia.
Qed.

Lemma rfind_app (c : char) (s post : str) :
  ~ In c post -> rfind c (s ++ c :: post) = Z.of_nat (List.length s).
Proof. intros H. unfold rfind. rewrite rfind_from_app; [lia | lia | assumption]. Qed.

Lemma slice_middle (pre mid post : str) :
  slice (pre ++ mid ++ post) (Z.of_nat (List.length pre))
        (Z.of_nat (List.length pre) + Z.of_nat (List.length mid)) = mid.
Proof.
  unfold slice. rewrite Nat2Z.id.
  replace (Z.to_nat (Z.of_nat (List.length pre) + Z.of_nat (List.length mid)
                     - Z.of_nat (List.length pre)))
    with (List.length mid) by lia.
  rewrite skipn_app, skipn_all, Nat.sub_diag. simpl.
  rewrite firstn_app, firstn_all, Nat.sub_diag. simpl. apply app_nil_r.
Qed.

Lemma slice_from_app (pre s : str) :
  slice_from (pre ++ s) (Z.of_nat (List.length pre)) = s.
Proof.
  unfold slice_from. rewrite Nat2Z.id.
  rewrite skipn_app, skipn_all, Nat.sub_diag. reflexivity.
Qed.

Lemma count_app (c : char) (a b : str) : count c (a ++ b) = (count c a + count c b)%nat.
Proof.
  induction a as [|x a IH]; simpl; [reflexivity|].
  destruct (x =? c)%N; simpl; now rewrite IH.
Qed.

Lemma count_none (c : char) (s : str) : ~ In c s -> count c s = O.
Proof.
  induction s as [|x s IH]; simpl; intros Hn; [reflexivity|].
  destruct (N.eqb_spec x c) as [->|_].
  - exfalso. apply Hn. now left.
  - apply IH. intros H. apply Hn. now right.
Qed.

Lemma rstrip_count (c : char) (s : str) :
  isspace c = false -> count c (rstrip s) = count c s.
Proof.
  intros Hc. induction s as [|x s IH]; simpl; [reflexivity|].
  destruct (rstrip s) as [|y r] eqn:E.
  - simpl in IH. destruct (isspace x) eqn:Ex.
    + simpl. destruct (N.eqb_spec x c) as [->|_]; [congruence | exact IH].
    + simpl. destruct (x =? c)%N; now rewrite <- IH.
  - simpl in *. destruct (x =? c)%N; now rewrite IH.
Qed.

Lemma rstrip_In (c : char) (s : str) : In c (rstrip s) -> In c s.
Proof.
  induction s as [|x s IH]; simpl; [auto|].
  destruct (rstrip s) as [|y r] eqn:E.
  - destruct (isspace x); simpl; intuition.
  - simpl. intros [H|H]; [now left | right; apply IH; exact H].
Qed.

Lemma rstrip_ends_nonspace (s : str) (c : char) :
  isspace c = false -> rstrip (s ++ [c]) = s ++ [c].
Proof.
  intros Hc. induction s as [|x s IH]; simpl.
  - now rewrite Hc.
  - rewrite IH. destruct (s ++ [c]) eqn:E; [|reflexivity].
    destruct s; discriminate.
Qed.

Lemma rstrip_trailing_space (s ws : str) (c : char) :
  isspace c = false -> Forall (fun x => isspace x = true) ws ->
  rstrip (s ++ c :: ws) = s ++ [c].
Proof.
  intros Hc Hws.
  assert (Hw : rstrip ws = []).
  { induction Hws as [|x ws Hx _ IH]; simpl; [reflexivity|]. now rewrite IH, Hx. }
  induction s as [|x s IH]; simpl.
  - now rewrite Hw, Hc.
  - rewrite IH. destruct (s ++ [c]) eqn:E; [destruct s; discriminate | reflexivity].
Qed.

Lemma lstrip_leading_space (ws s : str) (c : char) :
  isspace c = false -> Forall (fun x => isspace x = true) ws ->
  lstrip (ws ++ c :: s) = c :: s.
Proof.
  intros Hc Hws. induction Hws as [|x ws Hx _ IH]; simpl.
  - now rewrite Hc.
  - now rewrite Hx.
Qed.

Lemma replace_char_In (a c : char) (b s : str) :
  ~ In c b -> In c (replace_char a b s) -> In c s.
Proof.
  intros Hb. induction s as [|x s IH]; simpl; [auto|].
  destruct (x =? a)%N.
  - intros H. apply in_app_or in H as [H|H]; [contradiction | right; auto].
  - intros [H|H]; [now left | right; auto].
Qed.

(** ** The decoder gives a dict only for a text that opens a brace *)

Lemma scan_number_not_dict (s : str) (v : pyval) (r : str) :
  Json.scan_number s = Some (v, r) -> is_dict v = false.
Proof.
  unfold Json.scan_number.
  repeat match goal with
         | |- context [match ?x with _ => _ end] => destruct x; simpl
         | |- context [let (_, _) := ?x in _] => destruct x; simpl
         end;
    try discriminate; intros H; inversion H; reflexivity.
Qed.

Lemma parse_elements_not_dict (fuel : nat) (strict : bool) (s : str)
                              (acc : list pyval) (v : pyval) (r : str) :
  Json.parse_elements fuel strict s acc = Some (v, r) -> is_dict v = false.
Proof.
  revert s acc. induction fuel as [|f IH]; intros s acc; simpl; [discriminate|].
  destruct (Json.parse_value f strict s) as [[x r0]|]; [|discriminate].
  destruct (Json.skip_ws r0) as [|c r1]; [discriminate|].
  destruct (c =? 93)%N.
  - intros H. inversion H. reflexivity.
  - destruct (c =? 44)%N; [apply IH | discriminate].
Qed.

Lemma parse_value_dict_brace (fuel : nat) (strict : bool) (s : str)
                             (v : pyval) (r : str) :
  Json.parse_value fuel strict s = Some (v, r) -> is_dict v = true ->
  exists t, s = lbrace :: t.
Proof.
  destruct fuel as [|f]; simpl; [discriminate|].
  destruct s as [|c t]; [discriminate|].
  destruct (c =? 34)%N.
  { destruct (Json.scan_string strict t []) as [[x r0]|]; [|discriminate].
    intros H. inversion H. subst. discriminate. }
  destruct (N.eqb_spec c 123) as [->|_].
  { intros _ _. exists t. reflexivity. }
  destruct (c =? 91)%N.
  { destruct (Json.skip_ws t) as [|c' r0]; [discriminate|].
    destruct (c' =? 93)%N.
    - intros H. inversion H. subst. discriminate.
    - intros H Hd. apply parse_elements_not_dict in H. congruence. }
  repeat match goal with
         | |- context [if ?b then _ else _] =>
           destruct b; [intros H; inversion H; subst; discriminate|]
         end.
  destruct (Json.scan_number (c :: t)) as [[x r0]|] eqn:E.
  - intros H Hd. inversion H. subst. apply scan_number_not_dict in E. congruence.
  - repeat match goal with
           | |- context [if ?b then _ else _] =>
             destruct b; [intros H; inversion H; subst; discriminate|]
           end.
    discriminate.
Qed.

Lemma skip_ws_In (c : char) (s : str) : In c (Json.skip_ws s) -> In c s.
Proof.
  induction s as [|x s IH]; simpl; [auto|].
  destruct (Json.is_ws x); [intros H; right; auto | auto].
Qed.

Lemma loads_dict_brace (strict : bool) (s : str) (v : pyval) :
  Json.loads strict s = Some v -> is_dict v = true -> In lbrace s.
Proof.
  unfold Json.loads. destruct s as [|c s]; [discriminate|].
  destruct (c =? 65279)%N; [discriminate|].
  destruct (Json.parse_value (S (List.length (c :: s))) strict (Json.skip_ws (c :: s)))
    as [[x r]|] eqn:E; [|discriminate].
  destruct (Json.skip_ws r); [|discriminate].
  intros H Hd. inversion H. subst x.
  destruct (parse_value_dict_brace _ _ _ _ _ E Hd) as [t Ht].
  apply skip_ws_In. rewrite Ht. now left.
Qed.

(** ** Texts without a fence *)

Lemma isspace_backtick : isspace backtick = false.
Proof. reflexivity. Qed.

Lemma space_not_backtick (ws : str) :
  Forall (fun x => isspace x = true) ws -> ~ In backtick ws.
Proof.
  intros H Hin. rewrite Forall_forall in H. apply H in Hin.
  rewrite isspace_backtick in Hin. discriminate.
Qed.

Lemma no_fence_at (x : char) (t : str) :
  x <> backtick -> startswith CodeBlocks.fence (x :: t) = false.
Proof.
  intros Hx.
  change (startswith CodeBlocks.fence (x :: t))
    with ((backtick =? x)%N && startswith [backtick; backtick] t).
  destruct (N.eqb_spec backtick x) as [E|_]; [congruence | reflexivity].
Qed.

Lemma fence_at (t : str) : startswith CodeBlocks.fence (CodeBlocks.fence ++ t) = true.
Proof. reflexivity. Qed.

Lemma findall_from_cons (f : nat) (x : char) (t : str) :
  CodeBlocks.findall_from (S f) (x :: t)
  = if startswith CodeBlocks.fence (x :: t) then
      match CodeBlocks.split_at_fence
              (lstrip (CodeBlocks.skip_json (skipn 3 (x :: t)))) with
      | Some (body, rest) => rstrip body :: CodeBlocks.findall_from f rest
      | None => CodeBlocks.findall_from f t
      end
    else CodeBlocks.findall_from f t.
Proof. reflexivity. Qed.

Lemma split_at_fence_cons (x : char) (t : str) :
  CodeBlocks.split_at_fence (x :: t)
  = if startswith CodeBlocks.fence (x :: t) then Some ([], skipn 3 (x :: t))
    else match CodeBlocks.split_at_fence t with
         | Some (a, b) => Some (x :: a, b)
         | None => None
         end.
Proof. reflexivity. Qed.

Lemma findall_no_backtick (fuel : nat) (s : str) :
  ~ In backtick s -> CodeBlocks.findall_from fuel s = [].
Proof.
  revert s. induction fuel as [|f IH]; intros s Hn; [reflexivity|].
  destruct s as [|x t]; [reflexivity|].
  rewrite findall_from_cons.
  rewrite no_fence_at by (intros ->; apply Hn; now left).
  apply IH. intros H. apply Hn. now right.
Qed.

Lemma split_at_fence_app (a post : str) :
  ~ In backtick a ->
  CodeBlocks.split_at_fence (a ++ CodeBlocks.fence ++ post) = Some (a, post).
Proof.
  induction a as [|x a IH]; intros Hn.
  - reflexivity.
  - change ((x :: a) ++ CodeBlocks.fence ++ post)
      with (x :: (a ++ CodeBlocks.fence ++ post)).
    rewrite split_at_fence_cons.
    rewrite no_fence_at by (intros ->; apply Hn; now left).
    rewrite IH by (intros H; apply Hn; now right). reflexivity.
Qed.

Lemma is_j_not_space_brace (a : char) :
  CodeBlocks.is_j a = true -> isspace a = false /\ a <> lbrace.
Proof.
  unfold CodeBlocks.is_j. intros H. apply orb_true_iff in H as [H|H];
    apply N.eqb_eq in H; subst; split; try reflexivity; intros E; discriminate E.
Qed.

Lemma skip_json_tag (tag ws body : str) :
  is_tag tag -> Forall (fun x => isspace x = true) ws ->
  CodeBlocks.skip_json (tag ++ ws ++ lbrace :: body) = ws ++ lbrace :: body.
Proof.
  intros [->|[a [b [c [d [-> H]]]]]] Hws.
  - simpl. unfold CodeBlocks.skip_json.
    destruct (ws ++ lbrace :: body) as [|a [|b [|c [|d t]]]] eqn:E; try reflexivity.
    destruct (CodeBlocks.is_j a) eqn:Ej; [|reflexivity].
    exfalso. apply is_j_not_space_brace in Ej as [Hs Hb].
    destruct ws as [|x ws]; simpl in E; inversion E; subst.
    + now apply Hb.
    + inversion Hws. congruence.
  - simpl. now rewrite H.
Qed.

(** A text made of one fenced block between two pieces of prose. *)
Lemma findall_one_block (pre tag ws1 inner ws2 post : str) :
  ~ In backtick pre -> is_tag tag ->
  Forall (fun x => isspace x = true) ws1 ->
  ~ In backtick inner ->
  Forall (fun x => isspace x = true) ws2 ->
  ~ In backtick post ->
  CodeBlocks.findall
    (pre ++ CodeBlocks.fence ++ tag ++ ws1 ++ (lbrace :: inner ++ [rbrace])
         ++ ws2 ++ CodeBlocks.fence ++ post)
  = [lbrace :: inner ++ [rbrace]].
Proof.
  intros Hpre Htag Hws1 Hin Hws2 Hpost. unfold CodeBlocks.findall.
  set (rest := tag ++ ws1 ++ (lbrace :: inner ++ [rbrace])
                   ++ ws2 ++ CodeBlocks.fence ++ post).
  rewrite length_app.
  assert (Hfuel : (List.length (CodeBlocks.fence ++ rest) = S (2 + List.length rest))%nat)
    by reflexivity.
  rewrite Hfuel. generalize (2 + List.length rest)%nat as f. intros f.
  induction pre as [|x pre IH].
  - change ([] ++ CodeBlocks.fence ++ rest)
      with (backtick :: backtick :: backtick :: rest).
    change (List.length (@nil char) + S f)%nat with (S f).
    rewrite findall_from_cons.
    change (startswith CodeBlocks.fence (backtick :: backtick :: backtick :: rest))
      with true.
    cbv iota. change (skipn 3 (backtick :: backtick :: backtick :: rest)) with rest.
    unfold rest.
    change ((lbrace :: inner ++ [rbrace]) ++ ws2 ++ CodeBlocks.fence ++ post)
      with (lbrace :: ((inner ++ [rbrace]) ++ ws2 ++ CodeBlocks.fence ++ post)).
    rewrite skip_json_tag by assumption.
    rewrite lstrip_leading_space by (assumption || reflexivity).
    change (lbrace :: (inner ++ [rbrace]) ++ ws2 ++ CodeBlocks.fence ++ post)
      with ((lbrace :: inner ++ [rbrace]) ++ ws2 ++ CodeBlocks.fence ++ post).
    rewrite (app_assoc (lbrace :: inner ++ [rbrace]) ws2).
    rewrite split_at_fence_app.
    + rewrite findall_no_backtick by assumption.
      f_equal. change (lbrace :: inner ++ [rbrace]) with ((lbrace :: inner) ++ [rbrace]).
      rewrite <- app_assoc.
      apply rstrip_trailing_space; [reflexivity | assumption].
    + intros H. apply in_app_or in H as [H|H].
      * destruct H as [H|H]; [discriminate H|].
        apply in_app_or in H as [H|[H|[]]]; [now apply Hin | discriminate H].
      * now apply (space_not_backtick ws2).
  - change ((x :: pre) ++ CodeBlocks.fence ++ rest)
      with (x :: (pre ++ CodeBlocks.fence ++ rest)).
    change (List.length (x :: pre) + S f)%nat with (S (List.length pre + S f)).
    rewrite findall_from_cons.
    rewrite no_fence_at by (intros ->; apply Hpre; now left).
    apply IH. intros H. apply Hpre. now right.
Qed.

(** ** Blocks of a text without an opening brace *)

Lemma skipn_notin {A : Type} (x : A) (n : nat) (l : list A) :
  ~ In x l -> ~ In x (skipn n l).
Proof.
  intros Hn H. apply Hn. rewrite <- (firstn_skipn n l). apply in_or_app. now right.
Qed.

Lemma skip_json_notin (c : char) (s : str) :
  ~ In c s -> ~ In c (CodeBlocks.skip_json s).
Proof.
  unfold CodeBlocks.skip_json. destruct s as [|a [|b [|x [|d t]]]]; auto.
  destruct (CodeBlocks.is_j a && CodeBlocks.is_s b && CodeBlocks.is_o x && CodeBlocks.is_n d);
    [|auto].
  intros Hn H. apply Hn. simpl. auto.
Qed.

Lemma lstrip_notin (c : char) (s : str) : ~ In c s -> ~ In c (lstrip s).
Proof.
  induction s as [|x s IH]; simpl; auto.
  destruct (isspace x); [|auto].
  intros Hn. apply IH. intros H. apply Hn. now right.
Qed.

Lemma split_at_fence_notin (c : char) (s a b : str) :
  ~ In c s -> CodeBlocks.split_at_fence s = Some (a, b) -> ~ In c a /\ ~ In c b.
Proof.
  revert a b. induction s as [|x s IH]; intros a b Hn; [discriminate|].
  rewrite split_at_fence_cons.
  destruct (startswith CodeBlocks.fence (x :: s)).
  - intros [= <- <-]. split; [auto | exact (skipn_notin c 3 (x :: s) Hn)].
  - destruct (CodeBlocks.split_at_fence s) as [[a' b']|]; [|discriminate].
    intros H. inversion H. subst.
    destruct (IH a' b) as [Ha Hb]; [intros H1; apply Hn; now right | reflexivity |].
    split; [|exact Hb]. intros [H1|H1]; [apply Hn; now left | now apply Ha].
Qed.

Lemma findall_notin (c : char) (fuel : nat) (s : str) :
  ~ In c s -> Forall (fun b => ~ In c b) (CodeBlocks.findall_from fuel s).
Proof.
  revert s. induction fuel as [|f IH]; intros s Hn; [constructor|].
  destruct s as [|x t]; [constructor|].
  rewrite findall_from_cons.
  assert (Ht : ~ In c t) by (intros H; apply Hn; now right).
  destruct (startswith CodeBlocks.fence (x :: t)); [|now apply IH].
  destruct (CodeBlocks.split_at_fence
              (lstrip (CodeBlocks.skip_json (skipn 3 (x :: t)))))
    as [[body rest]|] eqn:E; [|now apply IH].
  apply split_at_fence_notin with (c := c) in E as [Hb Hr].
  - constructor; [|now apply IH]. intros H. apply Hb. now apply rstrip_In.
  - apply lstrip_notin, skip_json_notin, skipn_notin. exact Hn.
Qed.

Lemma insert_block_Forall (P : str -> Prop) (b : str) (l : list str) :
  P b -> Forall P l -> Forall P (CodeBlocks.insert_block b l).
Proof.
  intros Hb Hl. induction Hl as [|x l Hx Hl IH]; simpl.
  - constructor; [exact Hb | constructor].
  - destruct (List.length x <=? List.length b)%nat.
    + constructor; [exact Hb|]. constructor; assumption.
    + constructor; assumption.
Qed.

Lemma sorted_blocks_Forall (P : str -> Prop) (l : list str) :
  Forall P l -> Forall P (CodeBlocks.sorted_blocks l).
Proof.
  intros H. induction H as [|x l Hx _ IH]; simpl; [constructor|].
  now apply insert_block_Forall.
Qed.

Section Recovery.

Variable float_of_str : str -> option pyfloat.
Variable clean_text : str -> str.

Lemma try_blocks_no_brace (max_score : pyfloat) (blocks : list str) :
  Forall (fun b => ~ In lbrace b) blocks ->
  try_blocks float_of_str clean_text max_score blocks = Ok None.
Proof.
  intros H. induction H as [|b blocks Hb _ IH]; simpl; [reflexivity|].
  rewrite (find_none lbrace b Hb). exact IH.
Qed.

Lemma try_parse_dict_brace (text : str) (d : dict pyval) :
  try_parse text = PDict d -> In lbrace text.
Proof.
  unfold try_parse.
  destruct (Json.loads false (replace_char 9%N (u "\t") text)) as [v|] eqn:E;
    [|discriminate].
  intros ->. apply loads_dict_brace in E; [|reflexivity].
  apply replace_char_In in E; [exact E|].
  intros [H|[H|[]]]; discriminate H.
Qed.

Lemma process_result_not_dict (max_score : pyfloat) (r : pyval) :
  is_dict r = false -> process_result float_of_str clean_text max_score r = Ok PNone.
Proof.
  unfold process_result. destruct (truthy r); simpl; [|reflexivity].
  destruct r; try reflexivity. discriminate.
Qed.

Lemma repair_no_brace (s : str) : ~ In lbrace s -> ~ In lbrace (repair s).
Proof.
  intros Hn. unfold repair.
  assert (H1 : ~ In lbrace (rstrip s)) by (intros H; apply Hn; now apply rstrip_In).
  set (s2 := if Nat.odd (count quote (rstrip s)) then rstrip s ++ [quote] else rstrip s).
  assert (H2 : ~ In lbrace s2).
  { unfold s2. destruct (Nat.odd (count quote (rstrip s))); [|exact H1].
    intros H. apply in_app_or in H as [H|[H|[]]]; [now apply H1 | discriminate H]. }
  rewrite (count_none lbrace s2 H2). simpl. exact H2.
Qed.

(** Pure prose: no brace, no result. *)
Lemma parse_prose (text : str) (max_score : pyfloat) :
  ~ In lbrace text ->
  parse_grading_response float_of_str clean_text text max_score = Ok PNone.
Proof.
  intros Hn. unfold parse_grading_response.
  rewrite try_blocks_no_brace
    by (apply sorted_blocks_Forall; unfold CodeBlocks.findall; now apply findall_notin).
  simpl bind. unfold outer_braces. rewrite (find_none lbrace text Hn). simpl.
  destruct (try_parse (repair text)) as [| | | | | |d] eqn:E;
    try (destruct (truthy _); [apply process_result_not_dict|]; reflexivity).
  exfalso. apply try_parse_dict_brace in E. now apply (repair_no_brace text).
Qed.

Lemma process_result_truthy (max_score : pyfloat) (d : dict pyval) (v : pyval) :
  d <> [] ->
  process_result float_of_str clean_text max_score (PDict d) = Ok v ->
  truthy v = true /\ is_dict v = true.
Proof.
  intros Hd. unfold process_result.
  replace (truthy (PDict d)) with true by (destruct d; [contradiction | reflexivity]).
  simpl negb. cbv iota.
  set (d1 := if dict_mem (u "score") d then _ else d).
  assert (H1 : d1 <> []).
  { unfold d1. destruct (dict_mem (u "score") d); [|exact Hd].
    destruct (py_float float_of_str (get (u "score") d)); apply dict_set_not_nil. }
  destruct (dict_mem (u "analysis") d1).
  - intros H. bind_inv H. inversion H. subst v.
    pose proof (dict_set_not_nil (u "analysis") a d1) as Hn.
    simpl. destruct (dict_set (u "analysis") a d1); [contradiction | auto].
  - intros H. inversion H. subst v. simpl. destruct d1; [contradiction | auto].
Qed.

Lemma braced_find (inner : str) : find lbrace (lbrace :: inner ++ [rbrace]) = 0.
Proof. apply (find_app lbrace [] (inner ++ [rbrace])). intros []. Qed.

Lemma braced_rfind (inner : str) :
  rfind rbrace (lbrace :: inner ++ [rbrace]) = Z.of_nat (S (List.length inner)).
Proof. apply (rfind_app rbrace (lbrace :: inner) []). intros []. Qed.

Lemma braced_slice (inner : str) :
  slice (lbrace :: inner ++ [rbrace]) 0 (Z.of_nat (S (List.length inner)) + 1)
  = lbrace :: inner ++ [rbrace].
Proof.
  pose proof (slice_middle [] (lbrace :: inner ++ [rbrace]) []) as H.
  rewrite app_nil_r in H. simpl app in H.
  replace (Z.of_nat (S (List.length inner)) + 1)
    with (Z.of_nat (List.length (@nil char))
          + Z.of_nat (List.length (lbrace :: inner ++ [rbrace]))).
  - exact H.
  - simpl List.length. rewrite length_app. simpl. lia.
Qed.

(** (a) An object between its braces, with or without prose around it. *)
Lemma parse_object_in_prose (pre inner post : str) (max_score : pyfloat)
                            (d : dict pyval) (v : pyval) :
  let body := lbrace :: inner ++ [rbrace] in
  ~ In backtick (pre ++ body ++ post) ->
  ~ In lbrace pre -> ~ In rbrace post ->
  try_parse body = PDict d -> d <> [] ->
  process_result float_of_str clean_text max_score (PDict d) = Ok v ->
  parse_grading_response float_of_str clean_text (pre ++ body ++ post) max_score = Ok v.
Proof.
  intros body Hbt Hpre Hpost Hparse Hd Hproc.
  destruct (process_result_truthy max_score d v Hd Hproc) as [Hv _].
  assert (Hfind : find lbrace (pre ++ body ++ post) = Z.of_nat (List.length pre)).
  { unfold body. simpl app. now apply find_app. }
  assert (Hrfind : rfind rbrace (pre ++ body ++ post)
                   = Z.of_nat (List.length pre) + Z.of_nat (S (List.length inner))).
  { unfold body.
    replace (pre ++ (lbrace :: inner ++ [rbrace]) ++ post)
      with ((pre ++ lbrace :: inner) ++ rbrace :: post)
      by (rewrite <- !app_assoc; simpl; now rewrite <- app_assoc).
    rewrite rfind_app by exact Hpost. rewrite length_app. simpl. lia. }
  assert (Hslice : slice (pre ++ body ++ post) (Z.of_nat (List.length pre))
                     (Z.of_nat (List.length pre) + Z.of_nat (S (List.length inner)) + 1)
                   = body).
  { replace (Z.of_nat (List.length pre) + Z.of_nat (S (List.length inner)) + 1)
      with (Z.of_nat (List.length pre) + Z.of_nat (List.length body))
      by (unfold body; simpl List.length; rewrite length_app; simpl; lia).
    apply slice_middle. }
  remember (pre ++ body ++ post) as text eqn:Et. clear Et.
  unfold parse_grading_response.
  unfold CodeBlocks.findall. rewrite findall_no_backtick by exact Hbt.
  change (CodeBlocks.sorted_blocks []) with (@nil str).
  change (try_blocks float_of_str clean_text max_score []) with (@Ok (option pyval) None).
  unfold bind. unfold outer_braces.
  rewrite Hfind, Hrfind, Hslice.
  replace (negb (Z.of_nat (List.length pre) =? -1)) with true
    by (symmetry; apply negb_true_iff, Z.eqb_neq; lia).
  replace (negb (Z.of_nat (List.length pre) + Z.of_nat (S (List.length inner)) =? -1))
    with true by (symmetry; apply negb_true_iff, Z.eqb_neq; lia).
  replace (Z.of_nat (List.length pre)
           <? Z.of_nat (List.length pre) + Z.of_nat (S (List.length inner)))
    with true by (symmetry; apply Z.ltb_lt; lia).
  simpl andb. cbv iota. rewrite Hparse.
  replace (truthy (PDict d)) with true by (destruct d; [contradiction | reflexivity]).
  rewrite Hproc, Hv. reflexivity.
Qed.

(** (b) An object in a fenced block, with prose before and after. *)
Lemma parse_fenced_object (pre tag ws1 inner ws2 post : str) (max_score : pyfloat)
                          (d : dict pyval) (v : pyval) :
  let body := lbrace :: inner ++ [rbrace] in
  ~ In backtick pre -> is_tag tag ->
  Forall (fun x => isspace x = true) ws1 ->
  ~ In backtick inner ->
  Forall (fun x => isspace x = true) ws2 ->
  ~ In backtick post ->
  try_parse body = PDict d -> d <> [] ->
  process_result float_of_str clean_text max_score (PDict d) = Ok v ->
  parse_grading_response float_of_str clean_text
    (pre ++ CodeBlocks.fence ++ tag ++ ws1 ++ body ++ ws2 ++ CodeBlocks.fence ++ post)
    max_score = Ok v.
Proof.
  intros body Hpre Htag Hws1 Hin Hws2 Hpost Hparse Hd Hproc.
  destruct (process_result_truthy max_score d v Hd Hproc) as [Hv _].
  unfold parse_grading_response. unfold body.
  rewrite findall_one_block by assumption.
  change (CodeBlocks.sorted_blocks [lbrace :: inner ++ [rbrace]])
    with [lbrace :: inner ++ [rbrace]].
  unfold try_blocks.
  rewrite braced_find, braced_rfind, braced_slice.
  replace (0 <? Z.of_nat (S (List.length inner))) with true
    by (symmetry; apply Z.ltb_lt; lia).
  change (negb (0 =? -1) && true) with true. cbv iota.
  fold body. rewrite Hparse.
  replace (truthy (PDict d)) with true by (destruct d; [contradiction | reflexivity]).
  rewrite Hproc. simpl bind. rewrite Hv. reflexivity.
Qed.

(** The repair of a truncated object that opens one brace and closes none. *)
Lemma repair_truncated (rest : str) :
  ~ In lbrace rest -> ~ In rbrace rest ->
  repair (lbrace :: rest)
  = rstrip (lbrace :: rest)
    ++ (if Nat.odd (count quote (lbrace :: rest)) then [quote; rbrace] else [rbrace]).
Proof.
  intros Hl Hr. unfold repair.
  rewrite (rstrip_count quote) by reflexivity.
  assert (Ho : count lbrace (rstrip (lbrace :: rest)) = 1%nat).
  { rewrite rstrip_count by reflexivity.
    change (count lbrace (lbrace :: rest)) with (S (count lbrace rest)).
    now rewrite count_none. }
  assert (Hc : count rbrace (rstrip (lbrace :: rest)) = 0%nat).
  { rewrite rstrip_count by reflexivity.
    change (count rbrace (lbrace :: rest)) with (count rbrace rest).
    now apply count_none. }
  destruct (Nat.odd (count quote (lbrace :: rest))).
  - rewrite !count_app, Ho, Hc. simpl. now rewrite <- app_assoc.
  - rewrite Ho, Hc. reflexivity.
Qed.

(** (c) and (d) An object whose text stops before its closing brace, inside
    or outside its last string. *)
Lemma parse_truncated_object (pre rest : str) (max_score : pyfloat)
                             (d : dict pyval) (v : pyval) :
  let body := lbrace :: rest in
  ~ In backtick (pre ++ body) ->
  ~ In lbrace pre -> ~ In rbrace pre ->
  ~ In lbrace rest -> ~ In rbrace rest ->
  try_parse (repair body) = PDict d -> d <> [] ->
  process_result float_of_str clean_text max_score (PDict d) = Ok v ->
  parse_grading_response float_of_str clean_text (pre ++ body) max_score = Ok v.
Proof.
  intros body Hbt Hpl Hpr Hl Hr Hparse Hd Hproc.
  unfold parse_grading_response.
  unfold CodeBlocks.findall. rewrite findall_no_backtick by exact Hbt.
  simpl bind. unfold outer_braces.
  unfold body. rewrite find_app by exact Hpl.
  rewrite rfind_none.
  - replace (negb (Z.of_nat (List.length pre) =? -1)) with true
      by (symmetry; apply negb_true_iff, Z.eqb_neq; lia).
    change (negb (-1 =? -1)) with false. simpl andb. cbv iota.
    rewrite slice_from_app. fold body. rewrite Hparse.
    replace (truthy (PDict d)) with true by (destruct d; [contradiction | reflexivity]).
    exact Hproc.
  - intros H. apply in_app_or in H as [H|[H|H]];
      [now apply Hpr | discriminate H | now apply Hr].
Qed.

End Recovery.

(** ** Recovery of a result from a damaged answer *)

Lemma notin_by_test (c : char) (s : str) :
  existsb (N.eqb c) s = false -> ~ In c s.
Proof.
  intros H Hin. assert (E : existsb (N.eqb c) s = true).
  { apply existsb_exists. exists c. split; [exact Hin | apply N.eqb_refl]. }
  congruence.
Qed.




(** ** The fallback question list *)

Section StructureFacts.

Variable float_of_str : str -> option pyfloat.
Variable clean_text : str -> str.
Variable exn_text : exn -> str.
Variable repr_other : pyval -> str.

Lemma failed_analysis_gives_ten (text_scores : dict pyfloat) (error : str) :
  questions_to_grade repr_other text_scores None (Ok (structure_failure error))
  = Ok ten_questions.
Proof. reflexivity. Qed.

Lemma unparseable_content (content : str) :
  unparseable float_of_str clean_text content ->
  structure_of_content float_of_str clean_text content
  = Ok (structure_failure (u "无法解析模型响应为JSON")).
Proof.
  intros [Hp He]. unfold structure_of_content. rewrite Hp. simpl bind.
  change (truthy PNone) with false. cbv iota. rewrite He. reflexivity.
Qed.

Lemma empty_content_unparseable : unparseable float_of_str clean_text [].
Proof. split; reflexivity. Qed.

(** The analysis reports a failure when the request raises or its answer
    cannot be parsed. *)
Lemma analysis_fails (api_keys : dict str) (model_name : option str)
                     (env : structure_env) :
  image_ok env = Ok tt ->
  match s_reply env with
  | CallRaises _ => True
  | Reply c => unparseable float_of_str clean_text c /\ unparseable float_of_str clean_text (strip c)
  end ->
  exists error,
    analyze_exam_structure float_of_str clean_text exn_text api_keys model_name env
    = Ok (structure_failure error).
Proof.
  intros Himg Hrep. unfold analyze_exam_structure.
  destruct (dict_keys api_keys) as [|first rest]; [eexists; reflexivity|].
  set (name := match model_name with
               | Some (c :: m) => if dict_mem (c :: m) api_keys then c :: m else first
               | _ => first
               end).
  rewrite Himg. simpl bind.
  destruct (family_of name) as [[| | |]|]; try (eexists; reflexivity);
    destruct (s_reply env) as [c|e]; simpl provider_content; simpl bind;
    try (eexists; reflexivity);
    try (destruct Hrep as [H1 H2]; rewrite ?(unparseable_content _ H1),
                                           ?(unparseable_content _ H2);
         eexists; reflexivity).
Qed.

Lemma empty_groups_use_total (text_scores : dict pyfloat) (sd : dict pyval) (n : Z) :
  truthy (get_default (u "success") (PBool false) sd) = true ->
  dict_get (u "groups") sd = Some (PList []) ->
  dict_get (u "total_questions") sd = Some (PInt n) ->
  0 < n ->
  questions_to_grade repr_other text_scores None (Ok sd) = Ok (numbered_questions n).
Proof.
  intros Hs Hg Ht Hn. unfold questions_to_grade. simpl bind. rewrite Hs. simpl negb.
  cbv iota. unfold questions_of_structure, dict_mem, get, get_default.
  rewrite Hg, Ht. simpl.
  unfold Qltb. destruct (Qle_bool (inject_Z n) 0) eqn:E; [|reflexivity].
  apply Qle_bool_iff in E. unfold Qle in E. simpl in E. lia.
Qed.

End StructureFacts.

(** C5, refuted as stated.  With an empty question list and no question
    count the list is not the ten questions of the fallback: here it is
    empty. *)
Lemma C5_counterexample :
  questions_to_grade some_repr [] None
    (analyze_exam_structure no_float keep_text some_text one_key
                            (Some (u "qwen-vl-max")) empty_discovery)
  = Ok [].
Proof. vm_compute. reflexivity. Qed.

(** C5, amended.  When the image is readable and no question count was
    given: if the discovery request raises, or its answer cannot be parsed,
    the question list is exactly the ten ungrouped questions "1" to "10"
    with no point value, and nothing is raised; if the analysis succeeds
    with an empty list of groups and reports a positive number N of
    questions, the list is the N ungrouped questions "1" to "N". *)
Theorem C5_fallback_questions :
  forall (float_of_str : str -> option pyfloat) (clean_text : str -> str)
         (exn_text : exn -> str) (repr_other : pyval -> str)
         (api_keys : dict str) (model_name : option str) (env : structure_env)
         (text_scores : dict pyfloat),
    image_ok env = Ok tt ->
    let analysis :=
      analyze_exam_structure float_of_str clean_text exn_text api_keys model_name env in
    (match s_reply env with
     | CallRaises _ => True
     | Reply c => unparseable float_of_str clean_text c
                  /\ unparseable float_of_str clean_text (strip c)
     end ->
     questions_to_grade repr_other text_scores None analysis = Ok ten_questions)
    /\ (forall sd n,
          analysis = Ok sd ->
          truthy (get_default (u "success") (PBool false) sd) = true ->
          dict_get (u "groups") sd = Some (PList []) ->
          dict_get (u "total_questions") sd = Some (PInt n) ->
          0 < n ->
          questions_to_grade repr_other text_scores None analysis
          = Ok (numbered_questions n))
    /\ List.length ten_questions = 10%nat
    /\ map (get (u "id")) ten_questions
       = map (fun i => PStr (str_of_Z i)) [1; 2; 3; 4; 5; 6; 7; 8; 9; 10]
    /\ Forall (fun q => get (u "group") q = PNone /\ get (u "score") q = PNone)
              ten_questions.
Proof.
  intros F C E R api_keys model_name env text_scores Himg analysis.
  split; [|split; [|split; [|split]]].
  - intros Hrep.
    destruct (analysis_fails F C E api_keys model_name env Himg Hrep) as [error He].
    unfold analysis. rewrite He. apply failed_analysis_gives_ten.
  - intros sd n Ha Hs Hg Ht Hn. rewrite Ha. now apply empty_groups_use_total.
  - reflexivity.
  - vm_compute. reflexivity.
  - repeat constructor.
Qed.

Lemma C5_fallback_questions_witness :
  questions_to_grade some_repr [] None
    (analyze_exam_structure no_float keep_text some_text one_key
                            (Some (u "qwen-vl-max")) failed_discovery)
  = Ok ten_questions.
Proof.
  destruct (C5_fallback_questions no_float keep_text some_text some_repr one_key
              (Some (u "qwen-vl-max")) failed_discovery []) as [H _].
  - reflexivity.
  - apply H. exact I.
Defined.

(** ** The precedence of point values *)

Lemma match_text_scores_keyword (text_scores : dict pyfloat) (g : str) :
  match_text_scores text_scores (PStr g) = Ok (keyword_value text_scores g).
Proof.
  unfold keyword_value. induction text_scores as [|[k s] ts IH]; simpl; [reflexivity|].
  destruct (contains k g); [reflexivity | exact IH].
Qed.

Lemma category_default_value (g : str) :
  category_default (PStr g) = Ok (category_value g).
Proof.
  unfold category_default, category_value. simpl.
  repeat match goal with
         | |- context [if ?b then _ else _] => destruct b; simpl; try reflexivity
         end.
Qed.

Lemma keyword_value_empty_name (text_scores : dict pyfloat) :
  Forall (fun kv => fst kv <> []) text_scores -> keyword_value text_scores [] = PNone.
Proof.
  unfold keyword_value. intros H. induction H as [|[k s] ts Hk _ IH]; simpl; [reflexivity|].
  destruct k as [|c k]; [now contradiction Hk | exact IH].
Qed.

Lemma question_score_precedence (text_scores : dict pyfloat) (g : str)
                                (section_default : pyval) (q : dict pyval) :
  Forall (fun kv => fst kv <> []) text_scores ->
  question_score text_scores (PStr g) section_default q
  = Ok (point_value text_scores g section_default q).
Proof.
  intros Hk. unfold question_score, point_value, first_non_null. cbv zeta.
  rewrite category_default_value.
  assert (Hm : (if truthy (PStr g)
                then match_text_scores text_scores (PStr g)
                else Ok PNone) = Ok (keyword_value text_scores g)).
  { destruct g as [|c g]; simpl truthy; cbv iota.
    - now rewrite (keyword_value_empty_name text_scores Hk).
    - apply match_text_scores_keyword. }
  simpl filter.
  destruct (get (u "score") q) eqn:E1; simpl; try reflexivity.
  destruct section_default eqn:E2; simpl; try reflexivity.
  simpl in Hm. rewrite Hm. simpl.
  destruct (keyword_value text_scores g); simpl; try reflexivity.
  destruct (category_value g); reflexivity.
Qed.



(** ** The task status *)




(** ** The processed-image artifact *)

Lemma removal_attempts_app (a b : list fs_event) :
  removal_attempts (a ++ b) = (removal_attempts a + removal_attempts b)%nat.
Proof. unfold removal_attempts. now rewrite filter_app, length_app. Qed.

(** The retry loop tries at most [n] removals. *)
Lemma remove_loop_bounded (n : nat) (outcomes : list rm_outcome) (w : fs) :
  (removal_attempts (trace (fst (remove_loop n outcomes w)))
   <= removal_attempts (trace w) + n)%nat.
Proof.
  revert outcomes w. induction n as [|n IH]; intros outcomes w; simpl; [lia|].
  destruct outcomes as [|[| |e] rest]; simpl.
  - rewrite removal_attempts_app. unfold removal_attempts at 2. simpl. lia.
  - rewrite removal_attempts_app. unfold removal_attempts at 2. simpl. lia.
  - specialize (IH rest (log_event Sleep (log_event (RemoveAttempt PermissionDenied) w))).
    simpl in IH. rewrite !removal_attempts_app in IH.
    unfold removal_attempts at 3 4 in IH. simpl in IH. lia.
  - rewrite removal_attempts_app. unfold removal_attempts at 2. simpl. lia.
Qed.

(** The clean-up of the [except] branch makes at most three attempts and
    hands back a state, never an exception. *)
Lemma cleanup_bounded (outcomes : list rm_outcome) (w : fs) :
  (removal_attempts (trace (cleanup outcomes w)) <= removal_attempts (trace w) + 3)%nat.
Proof.
  unfold cleanup. destruct (temp_exists w); [|lia].
  pose proof (remove_loop_bounded 3 outcomes w) as H.
  destruct (remove_loop 3 outcomes w) as [w' [e|]]; simpl in *.
  - rewrite removal_attempts_app. unfold removal_attempts at 2. simpl. lia.
  - exact H.
Qed.

(** C9, the code at the failing inputs.  A call that succeeds, and a call
    whose answer cannot be parsed, both write the artifact and return
    without any attempt to remove it: it is still there afterwards.  Only a
    call that raises reaches the clean-up. *)
Lemma C9_artifact_left_behind :
  let call env :=
    grade_with_model no_float keep_text some_text one_key (u "qwen-vl-max") (Fin 10)
                     env fs_init in
  let good := call (answer "{'score': 8, 'is_correct': true, 'comment': 'ok'}") in
  let prose := call (answer "I cannot read this page.") in
  let raised := call transport_error in
  (get (u "success") (fst good) = PBool true
   /\ snd good = {| temp_exists := true; trace := [WriteTemp] |})
  /\ (get (u "success") (fst prose) = PBool false
      /\ snd prose = {| temp_exists := true; trace := [WriteTemp] |})
  /\ snd raised = {| temp_exists := false; trace := [WriteTemp; RemoveAttempt Removed] |}.
Proof. vm_compute. repeat split; reflexivity. Qed.

(** ** The shape of a parsed answer *)

Section ParserShape.

Variable float_of_str : str -> option pyfloat.
Variable clean_text : str -> str.

Lemma process_result_shape (max_score : pyfloat) (r v : pyval) :
  process_result float_of_str clean_text max_score r = Ok v ->
  v = PNone \/ exists d, v = PDict d /\ d <> [].
Proof.
  unfold process_result. destruct (truthy r) eqn:Ht; simpl;
    [|intros H; inversion H; now left].
  destruct r as [| | | | | |d]; try (intros H; inversion H; now left).
  assert (Hd : d <> []) by (intros ->; discriminate Ht).
  destruct (dict_mem (u "analysis") _).
  - intros H. bind_inv H. inversion H. right. eexists. split; [reflexivity|].
    apply dict_set_not_nil.
  - intros H. inversion H. right. eexists. split; [reflexivity|].
    destruct (dict_mem (u "score") d) eqn:E; [|exact Hd].
    destruct (py_float float_of_str (get (u "score") d)); apply dict_set_not_nil.
Qed.

Lemma process_result_exn (max_score : pyfloat) (r : pyval) (e : exn) :
  process_result float_of_str clean_text max_score r = Raise e -> e = AttributeError.
Proof.
  unfold process_result. destruct (truthy r); simpl; [|discriminate].
  destruct r as [| | | | | |d]; try discriminate.
  destruct (dict_mem (u "analysis") _); [|discriminate].
  unfold clean_analysis.
  destruct (negb (truthy _)); simpl; [discriminate|].
  destruct (get (u "analysis") _); simpl; try discriminate; intros H; now inversion H.
Qed.

Lemma try_blocks_exn (max_score : pyfloat) (blocks : list str) (e : exn) :
  try_blocks float_of_str clean_text max_score blocks = Raise e -> e = AttributeError.
Proof.
  induction blocks as [|b blocks IH]; simpl; [discriminate|].
  destruct (negb (find lbrace b =? -1) && (find lbrace b <? rfind rbrace b)); [|exact IH].
  destruct (truthy (try_parse (slice b (find lbrace b) (rfind rbrace b + 1)))); [|exact IH].
  destruct (process_result float_of_str clean_text max_score _) as [x|e'] eqn:E; simpl.
  - destruct (truthy x); [discriminate | exact IH].
  - intros H. inversion H. subst. eapply process_result_exn. eassumption.
Qed.

End ParserShape.





(** ** What one provider call hands back *)

Section GatewayContract.

Variable float_of_str : str -> option pyfloat.
Variable clean_text : str -> str.
Variable exn_text : exn -> str.

Lemma failure_result_failed (error comment : str) :
  let r := failure_result error comment in
  get (u "success") r = PBool false
  /\ get (u "score") r = PInt 0
  /\ get (u "is_correct") r = PBool false
  /\ exists e c, get (u "error") r = PStr e /\ get (u "comment") r = PStr c.
Proof. repeat split. exists error, comment. now split. Qed.

Lemma success_fields (model_name : str) (max_score : pyfloat) (result : dict pyval) :
  let r := dict_set (u "success") (PBool true)
             (dict_set (u "max_score") (PFloat max_score)
                (dict_set (u "model_used") (PStr model_name) result)) in
  get (u "success") r = PBool true
  /\ get (u "max_score") r = PFloat max_score
  /\ get (u "model_used") r = PStr model_name.
Proof.
  assert (N1 : u "max_score" <> u "success") by (intros H; vm_compute in H; discriminate).
  assert (N2 : u "model_used" <> u "success") by (intros H; vm_compute in H; discriminate).
  assert (N3 : u "model_used" <> u "max_score") by (intros H; vm_compute in H; discriminate).
  unfold get. repeat split.
  - now rewrite dict_get_set_same.
  - rewrite dict_get_set_other by exact N1. now rewrite dict_get_set_same.
  - rewrite dict_get_set_other by exact N2.
    rewrite dict_get_set_other by exact N3. now rewrite dict_get_set_same.
Qed.

End GatewayContract.

(** X3.  Every call of [grade_with_model] hands back a dict whose [success]
    is a Boolean.  When it is true the provider was configured and the dict
    carries the provider name and the maximum score of the call; when it is
    false the dict carries the score 0, [is_correct] false, an error text and
    a comment, whatever went wrong (missing key, unknown provider, failed
    request, unreadable image, answer without an object). *)
Theorem grade_with_model_contract :
  forall (float_of_str : str -> option pyfloat) (clean_text : str -> str)
         (exn_text : exn -> str) (api_keys : dict str) (model_name : str)
         (max_score : pyfloat) (env : call_env) (w : fs),
    let r := fst (grade_with_model float_of_str clean_text exn_text api_keys
                                   model_name max_score env w) in
    (get (u "success") r = PBool true
     /\ dict_mem model_name api_keys = true
     /\ get (u "max_score") r = PFloat max_score
     /\ get (u "model_used") r = PStr model_name)
    \/ (get (u "success") r = PBool false
        /\ get (u "score") r = PInt 0
        /\ get (u "is_correct") r = PBool false
        /\ exists error comment,
             get (u "error") r = PStr error /\ get (u "comment") r = PStr comment).
Proof.
  intros F C E api_keys model_name m env w r.
  unfold r, grade_with_model. clear r.
  destruct (dict_mem model_name api_keys) eqn:Ek; simpl; [|right; apply failure_result_failed].
  unfold grade_try.
  destruct (preprocess env); simpl; [|right; apply failure_result_failed].
  destruct (family_of model_name) as [f|]; simpl; [|right; apply failure_result_failed].
  destruct (provider_content f (reply env)) as [content|e]; simpl; [|right; apply failure_result_failed].
  destruct (parse_grading_response F C content m) as [v|e]; simpl; [|right; apply failure_result_failed].
  destruct v as [| | | | | |d]; simpl; try (right; apply failure_result_failed).
  left. split; [|split; [reflexivity|]]; apply success_fields.
Qed.

(** ** The clean-up after a failed call *)

Lemma remove_loop_effects (n : nat) (outcomes : list rm_outcome) (w : fs) :
  exists evs,
    trace (fst (remove_loop n outcomes w)) = trace w ++ evs
    /\ (removal_attempts evs <= n)%nat
    /\ count_event is_sleep evs = count_event is_lock_error evs
    /\ ~ In WarnCleanup evs
    /\ ~ In WriteTemp evs
    /\ (forall e, snd (remove_loop n outcomes w) = Some e ->
                  In (RemoveAttempt (RemoveFails e)) evs)
    /\ (temp_exists (fst (remove_loop n outcomes w)) = temp_exists w
        \/ (temp_exists (fst (remove_loop n outcomes w)) = false
            /\ In (RemoveAttempt Removed) evs)).
Proof.
  revert outcomes w. induction n as [|n IH]; intros outcomes w.
  - exists []. simpl. rewrite app_nil_r.
    repeat split; auto; try discriminate.
  - assert (Hdone : exists evs,
               trace {| temp_exists := false;
                        trace := trace w ++ [RemoveAttempt Removed] |} = trace w ++ evs
               /\ (removal_attempts evs <= S n)%nat
               /\ count_event is_sleep evs = count_event is_lock_error evs
               /\ ~ In WarnCleanup evs
               /\ ~ In WriteTemp evs
               /\ (forall e, @None exn = Some e -> In (RemoveAttempt (RemoveFails e)) evs)
               /\ (false = temp_exists w \/ (false = false /\ In (RemoveAttempt Removed) evs))).
    { exists [RemoveAttempt Removed]. simpl. unfold removal_attempts. simpl.
      repeat split; try lia; try discriminate.
      - intros [H|[]]; discriminate.
      - intros [H|[]]; discriminate.
      - right. split; [reflexivity | now left]. }
    destruct outcomes as [|[| |e] rest]; simpl; try exact Hdone.
    + destruct (IH rest (log_event Sleep (log_event (RemoveAttempt PermissionDenied) w)))
        as [evs [Ht [Hn [Hs [Hw [Hwt [He Hx]]]]]]].
      exists (RemoveAttempt PermissionDenied :: Sleep :: evs).
      split; [|split; [|split; [|split; [|split; [|split]]]]].
      * rewrite Ht. simpl. rewrite <- !app_assoc. reflexivity.
      * unfold removal_attempts in *. simpl. lia.
      * unfold count_event in *. simpl. lia.
      * intros [H|[H|H]]; try discriminate. contradiction.
      * intros [H|[H|H]]; try discriminate. contradiction.
      * intros e H. right. right. now apply He.
      * simpl in Hx. destruct Hx as [Hx|[Hx Hin]]; [now left|].
        right. split; [exact Hx | right; right; exact Hin].
    + exists [RemoveAttempt (RemoveFails e)]. unfold removal_attempts. simpl.
      repeat split; try lia.
      * intros [H|[]]; discriminate.
      * intros [H|[]]; discriminate.
      * intros e' H. inversion H. now left.
      * now left.
Qed.

(** X4.  The clean-up of [grade_with_model] only appends to the history of
    the artifact: at most three removal attempts, one pause after each lock
    error, a warning only when a removal failed with another error, and never
    a new write.  The artifact is reported gone only if it was not there or
    a removal succeeded, and nothing happens when it was not there. *)
Theorem cleanup_effects :
  forall (outcomes : list rm_outcome) (w : fs),
    exists evs,
      trace (cleanup outcomes w) = trace w ++ evs
      /\ (removal_attempts evs <= 3)%nat
      /\ count_event is_sleep evs = count_event is_lock_error evs
      /\ (In WarnCleanup evs -> exists e, In (RemoveAttempt (RemoveFails e)) evs)
      /\ ~ In WriteTemp evs
      /\ (temp_exists (cleanup outcomes w) = false ->
          temp_exists w = false \/ In (RemoveAttempt Removed) evs)
      /\ (temp_exists w = false -> evs = []).
Proof.
  intros outcomes w. unfold cleanup. destruct (temp_exists w) eqn:Ex.
  - destruct (remove_loop_effects 3 outcomes w)
      as [evs [Ht [Hn [Hs [Hw [Hwt [He Hx]]]]]]].
    destruct (remove_loop 3 outcomes w) as [w' [e|]] eqn:El; simpl in *.
    + exists (evs ++ [WarnCleanup]).
      split; [|split; [|split; [|split; [|split; [|split]]]]].
      * rewrite Ht. now rewrite app_assoc.
      * rewrite removal_attempts_app. unfold removal_attempts at 2. simpl. lia.
      * unfold count_event in *. rewrite !filter_app, !length_app. simpl. lia.
      * intros _. exists e. apply in_or_app. left. now apply He.
      * intros H. apply in_app_or in H as [H|[H|[]]]; [contradiction | discriminate].
      * intros Hf. right. apply in_or_app. left.
        destruct Hx as [Hx|[_ Hin]]; [congruence | exact Hin].
      * discriminate.
    + exists evs. repeat split; auto.
      * intros H. contradiction.
      * intros Hf. right. destruct Hx as [Hx|[_ Hin]]; [congruence | exact Hin].
      * discriminate.
  - exists []. rewrite app_nil_r. repeat split; auto.
    all: try (intros []).
    all: unfold removal_attempts; simpl; lia.
Qed.

(** ** The totals of the report *)

Section AggregatorTotals.

Variable float_of_str : str -> option pyfloat.

Lemma combine_loop (info : dict (dict pyval)) (default_max : pyfloat)
      (all_res : dict (dict (dict pyval))) :
  forall fr0 t0 mt0 fr t mt,
    NoDup (dict_keys fr0 ++ dict_keys all_res) ->
    for_each all_res (combine_step float_of_str info default_max) (fr0, t0, mt0)
    = Ok (fr, t, mt) ->
    exists ds,
      Forall2 (fun kv d => combine_question float_of_str info default_max
                                            (fst kv) (snd kv) = Ok d) all_res ds
      /\ fr = fr0 ++ combine (dict_keys all_res) ds
      /\ t = fold_left pf_add (map score ds) t0
      /\ mt = fold_left pf_add (map max_score ds) mt0.
Proof.
  induction all_res as [|[k qr] rest IH]; intros fr0 t0 mt0 fr t mt Hnd H.
  - simpl in H. inversion H. subst. exists []. simpl. rewrite app_nil_r.
    repeat split; constructor.
  - simpl in H. bind_inv H. unfold combine_step in Ha. bind_inv Ha.
    simpl in Ha0, Ha. inversion Ha. subst a. clear Ha.
    assert (Hfresh : ~ In k (dict_keys fr0)).
    { intros Hin. apply NoDup_remove_2 in Hnd. apply Hnd. apply in_or_app. now left. }
    rewrite (dict_set_fresh k a0 fr0 Hfresh) in H.
    apply IH in H.
    + destruct H as [ds [HF [-> [-> ->]]]]. exists (a0 :: ds). simpl.
      split; [constructor; [exact Ha0 | exact HF]|].
      split; [now rewrite <- app_assoc|]. split; reflexivity.
    + unfold dict_keys in *. rewrite map_app. simpl. rewrite <- app_assoc. exact Hnd.
Qed.

Lemma combine_keys_values {V : Type} (ks : list str) (ds : list V) :
  List.length ks = List.length ds ->
  dict_keys (combine ks ds) = ks /\ dict_values (combine ks ds) = ds.
Proof.
  revert ds. induction ks as [|k ks IH]; intros [|d ds] Hl; simpl in *;
    try discriminate; [now split|].
  destruct (IH ds) as [H1 H2]; [lia|]. unfold dict_keys, dict_values in *.
  now rewrite H1, H2.
Qed.

(** The keys of the report and the number of its entries. *)
Lemma combine_results_keys (all_res : dict (dict (dict pyval)))
      (questions : list (dict pyval)) (default_max : pyfloat) (report : exam_report) :
  NoDup (dict_keys all_res) ->
  combine_results_v2 float_of_str all_res questions default_max = Ok report ->
  dict_keys (details report) = dict_keys all_res
  /\ total_count report = List.length all_res.
Proof.
  intros Hnd H.
  unfold combine_results_v2 in H. bind_inv H.
  destruct a as [[fr t] mt]. bind_inv H. inversion H. subst report. clear H Ha0. simpl.
  apply combine_loop in Ha; [|exact Hnd].
  destruct Ha as [ds [HF [-> _]]]. simpl.
  assert (Hl : List.length (dict_keys all_res) = List.length ds).
  { unfold dict_keys. rewrite length_map. eapply Forall2_length. eassumption. }
  destruct (combine_keys_values (dict_keys all_res) ds Hl) as [Hk _].
  split; [exact Hk|].
  rewrite length_combine, <- Hl. unfold dict_keys. rewrite length_map. lia.
Qed.

End AggregatorTotals.

(** X5.  For results keyed by distinct question ids, the report of
    [combine_results_v2] has one entry per question, in the order of the
    results; [total_score] and [max_total_score] are the sums of the entries'
    scores and maximum scores, [total_count] is the number of questions and
    [correct_count] the number of entries marked correct. *)
Theorem combine_results_totals :
  forall (float_of_str : str -> option pyfloat)
         (all_res : dict (dict (dict pyval))) (questions : list (dict pyval))
         (default_max : pyfloat) (report : exam_report),
    NoDup (dict_keys all_res) ->
    combine_results_v2 float_of_str all_res questions default_max = Ok report ->
    dict_keys (details report) = dict_keys all_res
    /\ Forall2 (fun kv qd => fst qd = fst kv /\ question_id (snd qd) = fst kv
                             /\ model_scores (snd qd) = snd kv)
               all_res (details report)
    /\ total_score report = pf_sum (map score (dict_values (details report)))
    /\ max_total_score report = pf_sum (map max_score (dict_values (details report)))
    /\ total_count report = List.length all_res
    /\ (correct_count report <= total_count report)%nat.
Proof.
  intros F all_res questions default_max report Hnd H.
  unfold combine_results_v2 in H. bind_inv H.
  destruct a as [[fr t] mt]. bind_inv H. inversion H. subst report. clear H Ha0. simpl.
  apply (combine_loop F) in Ha; [|exact Hnd].
  destruct Ha as [ds [HF [-> [-> ->]]]]. simpl.
  assert (Hl : List.length (dict_keys all_res) = List.length ds).
  { unfold dict_keys. rewrite length_map. eapply Forall2_length. eassumption. }
  destruct (combine_keys_values (dict_keys all_res) ds Hl) as [Hk Hv].
  rewrite Hk, Hv.
  split; [reflexivity|]. split.
  { clear Hnd Hl Hk Hv. induction HF as [|[k qr] d rest ds Hd HF IH]; simpl;
      constructor; [|exact IH].
    simpl in *. unfold combine_question in Hd.
    bind_inv Hd. bind_inv Hd. bind_inv Hd.
    destruct (split_unique_id k) as [g s]. inversion Hd. simpl. auto. }
  split; [reflexivity|]. split; [reflexivity|].
  split.
  - rewrite length_combine, <- Hl. unfold dict_keys. rewrite length_map. lia.
  - rewrite length_combine, Hl, Nat.min_id. apply filter_length_le.
Qed.

Lemma combine_results_totals_witness :
  total_score sample_report = pf_sum (map score (dict_values (details sample_report)))
  /\ total_count sample_report = 2%nat.
Proof.
  destruct (combine_results_totals no_float sample_all_results sample_questions
              (Fin 10) sample_report) as [_ [_ [H1 [_ [H2 _]]]]].
  - apply NoDup_cons; [|apply NoDup_cons; [intros [] | apply NoDup_nil]].
    intros [H|[]]. vm_compute in H. discriminate.
  - vm_compute. reflexivity.
  - split; [exact H1 | exact H2].
Defined.

Lemma final_score_bounds (scores : list pyval) (m : Q) (f : pyfloat) :
  final_score_of scores (Fin m) = Ok f -> (0 <= m)%Q ->
  exists s, f = Fin s /\ (0 <= s)%Q /\ (s <= m)%Q.
Proof.
  unfold final_score_of. destruct scores as [|v scores].
  - intros H Hm. inversion H. exists 0%Q. repeat split; [lra | exact Hm].
  - intros H Hm. bind_inv H. bind_inv H. bind_inv H.
    apply round_to_half_fin in Ha1 as [q [_ ->]]. inversion H. clear H.
    set (h := (inject_Z (round_half_even (q * inject_Z 2)) / inject_Z 2)%Q).
    unfold py_max, py_min. simpl.
    destruct (Qltb m h) eqn:E1; simpl.
    + destruct (Qltb 0 m) eqn:E2.
      * exists m. repeat split; [exact Hm | lra].
      * exists 0%Q. repeat split; [lra | exact Hm].
    + apply Qltb_ge in E1. destruct (Qltb 0 h) eqn:E2.
      * apply Qltb_lt in E2. exists h. repeat split; [lra | exact E1].
      * exists 0%Q. repeat split; [lra | exact Hm].
Qed.

Lemma bounded_sums (ds : list detail) :
  Forall (fun d => exists s m, score d = Fin s /\ max_score d = Fin m
                               /\ (0 <= s)%Q /\ (s <= m)%Q) ds ->
  forall t0 mt0, (0 <= t0)%Q -> (t0 <= mt0)%Q ->
    exists t mt,
      fold_left pf_add (map score ds) (Fin t0) = Fin t
      /\ fold_left pf_add (map max_score ds) (Fin mt0) = Fin mt
      /\ (0 <= t)%Q /\ (t <= mt)%Q.
Proof.
  induction 1 as [|d ds [s [m [Hs [Hm [H0 H1]]]]] _ IH]; intros t0 mt0 Ht0 Hmt0; simpl.
  - exists t0, mt0. auto.
  - rewrite Hs, Hm. simpl. apply IH; lra.
Qed.

(** X6.  When no question has a negative or infinite maximum score, every
    entry's score lies between 0 and its maximum, the total score lies
    between 0 and the maximum total, and [accuracy] is their quotient, a
    number between 0 and 1 (0 when the maximum total is 0): the share of
    the points obtained, whatever the number of correct questions. *)
Theorem report_totals_bounded :
  forall (float_of_str : str -> option pyfloat)
         (all_res : dict (dict (dict pyval))) (questions : list (dict pyval))
         (default_max : pyfloat) (report : exam_report),
    NoDup (dict_keys all_res) ->
    combine_results_v2 float_of_str all_res questions default_max = Ok report ->
    (forall q d, In (q, d) (details report) ->
                 exists m, max_score d = Fin m /\ (0 <= m)%Q) ->
    (forall q d, In (q, d) (details report) ->
                 pf_leb pf_zero (score d) = true
                 /\ pf_leb (score d) (max_score d) = true)
    /\ exists t mt a,
         total_score report = Fin t /\ max_total_score report = Fin mt
         /\ accuracy report = Fin a
         /\ (0 <= t)%Q /\ (t <= mt)%Q /\ (0 <= a)%Q /\ (a <= 1)%Q
         /\ ((0 < mt)%Q -> (a == t / mt)%Q)
         /\ ((mt == 0)%Q -> (a == 0)%Q).
Proof.
  intros F all_res questions default_max report Hnd H Hmax.
  unfold combine_results_v2 in H. bind_inv H.
  destruct a as [[fr t] mt]. bind_inv H. inversion H. subst report. clear H.
  simpl in *.
  apply (combine_loop F) in Ha; [|exact Hnd].
  destruct Ha as [ds [HF [-> [-> ->]]]]. simpl in *.
  assert (Hl : List.length (dict_keys all_res) = List.length ds).
  { unfold dict_keys. rewrite length_map. eapply Forall2_length. eassumption. }
  assert (Hin : forall d, In d ds -> exists q, In (q, d) (combine (dict_keys all_res) ds)).
  { clear - Hl. revert ds Hl. generalize (dict_keys all_res) as ks.
    induction ks as [|k ks IH]; intros [|d0 ds] Hl d Hd; simpl in *;
      try discriminate; try contradiction.
    destruct Hd as [->|Hd]; [exists k; now left|].
    destruct (IH ds) with (d := d) as [q Hq]; [lia | exact Hd |].
    exists q. now right. }
  assert (Hall : Forall (fun d => exists s m, score d = Fin s /\ max_score d = Fin m
                                              /\ (0 <= s)%Q /\ (s <= m)%Q) ds).
  { apply Forall_forall. intros d Hd.
    destruct (Hin d Hd) as [q Hq]. destruct (Hmax q d Hq) as [m [Hm Hpos]].
    assert (Hfs : exists scores, final_score_of scores (max_score d) = Ok (score d)).
    { clear - HF Hd. induction HF as [|[k qr] d' rest ds Hd' HF IH]; [contradiction|].
      destruct Hd as [->|Hd]; [|now apply IH].
      simpl in Hd'. unfold combine_question in Hd'.
      bind_inv Hd'. bind_inv Hd'. bind_inv Hd'.
      destruct (split_unique_id k) as [g s]. inversion Hd'. simpl. eauto. }
    destruct Hfs as [scores Hfs]. rewrite Hm in Hfs.
    destruct (final_score_bounds scores m (score d) Hfs Hpos) as [s [Hs [H0 H1]]].
    exists s, m. auto. }
  split.
  - intros q d Hqd. apply in_combine_r in Hqd.
    rewrite Forall_forall in Hall. destruct (Hall d Hqd) as [s [m [-> [-> [H0 H1]]]]].
    split; apply Qle_bool_iff; assumption.
  - destruct (bounded_sums ds Hall 0%Q 0%Q) as [t [mt [Ht [Hmt [H0 H1]]]]]; try lra.
    unfold pf_zero in *. change (0 # 1)%Q with 0%Q in *.
    rewrite Ht, Hmt in *. simpl in Ha0.
    destruct (Qltb 0 mt) eqn:E.
    + apply Qltb_lt in E. unfold pf_div in Ha0.
      destruct (Qeq_bool mt 0) eqn:Eq; [apply Qeq_bool_eq in Eq; lra|].
      inversion Ha0. exists t, mt, (t / mt)%Q.
      repeat split; try assumption; try reflexivity.
      * apply Qle_shift_div_l; [exact E | lra].
      * apply Qle_shift_div_r; [exact E | lra].
      * intros Hz. lra.
    + apply Qltb_ge in E. inversion Ha0. exists t, mt, 0%Q.
      repeat split; try assumption; try reflexivity; try lra.
Qed.

Lemma report_totals_bounded_witness :
  exists t mt a,
    total_score sample_report = Fin t /\ max_total_score sample_report = Fin mt
    /\ accuracy sample_report = Fin a
    /\ (0 <= t)%Q /\ (t <= mt)%Q /\ (0 <= a)%Q /\ (a <= 1)%Q.
Proof.
  destruct (report_totals_bounded no_float sample_all_results sample_questions
              (Fin 10) sample_report) as [_ [t [mt [a H]]]].
  - apply NoDup_cons; [|apply NoDup_cons; [intros [] | apply NoDup_nil]].
    intros [H|[]]. vm_compute in H. discriminate.
  - vm_compute. reflexivity.
  - intros q d [H|[H|[]]]; inversion H; exists 10%Q; split;
      try reflexivity; discriminate.
  - exists t, mt, a. intuition.
Defined.

(** ** Section name and question number in the unique id *)

Lemma slice_prefix (a b : str) : slice (a ++ b) 0 (Z.of_nat (List.length a)) = a.
Proof.
  unfold slice. simpl. rewrite Z.sub_0_r, Nat2Z.id.
  rewrite firstn_app, firstn_all, Nat.sub_diag. simpl. apply app_nil_r.
Qed.

Lemma split_at_last_dash (g i : str) :
  ~ In dash i -> split_unique_id (g ++ dash :: i) = (Some g, Some i).
Proof.
  intros Hn. unfold split_unique_id. fold dash.
  rewrite (rfind_app dash g i Hn).
  destruct (Z.eqb_spec (Z.of_nat (List.length g)) (-1)) as [E|_]; [lia|].
  rewrite slice_prefix.
  replace (Z.of_nat (List.length g) + 1) with (Z.of_nat (List.length (g ++ [dash])))
    by (rewrite length_app; simpl; lia).
  change (g ++ dash :: i) with (g ++ [dash] ++ i). rewrite app_assoc.
  now rewrite slice_from_app.
Qed.

Lemma split_without_dash (q : str) :
  ~ In dash q -> split_unique_id q = (None, None).
Proof.
  intros Hn. unfold split_unique_id. fold dash. now rewrite (rfind_none dash q Hn).
Qed.

Lemma last_occurrence (c : char) (s : str) :
  In c s -> exists a b, s = a ++ c :: b /\ ~ In c b.
Proof.
  induction s as [|x s IH]; [contradiction|].
  intros Hin. destruct (in_dec N.eq_dec c s) as [Hs|Hs].
  - destruct (IH Hs) as [a [b [-> Hb]]]. exists (x :: a), b. now split.
  - destruct Hin as [->|Hin]; [|contradiction]. exists [], s. now split.
Qed.

Lemma combine_question_split (F : str -> option pyfloat) info default_max q qr d :
  combine_question F info default_max q qr = Ok d ->
  (group_name d, sub_id d) = split_unique_id q.
Proof.
  unfold combine_question. intros H. bind_inv H. bind_inv H. bind_inv H.
  destruct (split_unique_id q) as [g s]. now inversion H.
Qed.

(** X7.  The unique id of a question found in a section is the section name,
    a dash and the question number; the report entry gets its [group_name]
    and [sub_id] back from that id by splitting at the last dash.  The two
    are the section name and the number again exactly when the number holds
    no dash. *)
Theorem section_and_number_round_trip :
  forall (repr_other : pyval -> str) (text_scores : dict pyfloat)
         (group default_score qv : pyval) (item : dict pyval),
    group_question repr_other text_scores group default_score qv = Ok item ->
    let name := py_str repr_other group in
    let number := py_str repr_other (get (u "id") item) in
    get (u "unique_id") item = PStr (name ++ u "-" ++ number)
    /\ forall (float_of_str : str -> option pyfloat) info default_max qr d,
         combine_question float_of_str info default_max (name ++ u "-" ++ number) qr
         = Ok d ->
         (group_name d = Some name /\ sub_id d = Some number <-> ~ In dash number).
Proof.
  intros R ts group default_score qv item H name number.
  unfold group_question in H. bind_inv H. bind_inv H. inversion H. subst item. clear H.
  split; [reflexivity|].
  intros F info default_max qr d Hd.
  apply combine_question_split in Hd.
  change (get (u "id") _) with (get_default (u "id") (PStr []) a) in number.
  change (name ++ u "-" ++ number) with (name ++ dash :: number) in Hd.
  split.
  - intros [Hg Hs] Hin.
    destruct (last_occurrence dash number Hin) as [x [y [E Hy]]].
    rewrite E in Hd.
    change (name ++ dash :: x ++ dash :: y) with (name ++ (dash :: x) ++ dash :: y) in Hd.
    rewrite app_assoc in Hd. rewrite split_at_last_dash in Hd by exact Hy.
    inversion Hd as [[H1 H2]]. rewrite Hg in H1. inversion H1 as [H3].
    apply (f_equal (@List.length char)) in H3. rewrite length_app in H3. simpl in H3. lia.
  - intros Hn. rewrite split_at_last_dash in Hd by exact Hn. now inversion Hd.
Qed.

Lemma section_and_number_round_trip_witness :
  get (u "unique_id") fill_in_item = PStr (u "一、填空题" ++ u "-" ++ u "3").
Proof.
  destruct (section_and_number_round_trip some_repr [] (PStr (u "一、填空题")) PNone
              (PDict [ (u "id", PStr (u "3")) ]) fill_in_item) as [H _].
  - vm_compute. reflexivity.
  - vm_compute in H |- *. exact H.
Defined.

(** ** A question count that is not positive *)

Lemma numbered_questions_nonpositive (n : Z) : n <= 0 -> numbered_questions n = [].
Proof.
  intros Hn. unfold numbered_questions, py_range.
  replace (Z.to_nat (n + 1 - 1)) with O by lia. reflexivity.
Qed.

(** X8.  With a question count of zero or less and a provider available, the
    run grades nothing and calls no provider, and the task still ends with
    status completed: its report has no entry, totals of 0 and an accuracy
    of 0. *)
Theorem nonpositive_question_count_completes :
  forall (float_of_str : str -> option pyfloat) (clean_text : str -> str)
         (exn_text : exn -> str) (repr_other : pyval -> str)
         (environ : dict str) (task_id filename : str) (n : Z)
         (max_score : option pyfloat) (selected_models : list str)
         (text_scores : dict pyfloat) (w0 : world) (path marked : str)
         (tasks : dict (dict pyval)) (w : fs) (t : dict pyval),
    dict_get task_id tasks = Some t ->
    n <= 0 ->
    available_models (init_api_keys [] environ) selected_models <> [] ->
    marked_image w0 = Ok marked ->
    let run :=
      run_grading_task float_of_str clean_text exn_text repr_other environ task_id
                       filename (Some n) max_score selected_models text_scores
                       w0 (Ok path) tasks w in
    status_of task_id run = PStr (u "completed")
    /\ snd run = w
    /\ exists tr r,
         fst run = Ok tr /\ saved_report tr = Some r
         /\ all_results r = [] /\ final_results r = empty_report.
Proof.
  intros F C E R environ task_id filename n ms sel ts w0 path marked tasks w t
         Ht Hn Hav Hm run.
  assert (Hg : exists r,
             grade_exam_with_multiple_models F C E R (init_api_keys [] environ)
               (Some n) ms sel ts w0 w = (Ok (Graded r), w)
             /\ all_results r = [] /\ final_results r = empty_report
             /\ marked_image_filename r = marked).
  { unfold grade_exam_with_multiple_models.
    destruct (available_models (init_api_keys [] environ) sel) as [|first rest];
      [contradiction|].
    unfold questions_to_grade. rewrite (numbered_questions_nonpositive n Hn).
    unfold bindM, liftM, retM. simpl. rewrite Hm. eexists. split; [reflexivity|].
    simpl. auto. }
  destruct Hg as [r [Hg [Ha [Hf Hmk]]]].
  unfold run, run_grading_task. rewrite Hg. simpl bind.
  unfold update_task. rewrite Ht. unfold bind. cbn [fold_left fst snd].
  split.
  - unfold status_of. cbn [tasks_after]. rewrite dict_get_set_same.
    unfold get. rewrite !dict_get_set_other by (intros H; vm_compute in H; discriminate).
    now rewrite dict_get_set_same.
  - split; [reflexivity|]. eexists. exists r. repeat split; assumption.
Qed.

Lemma nonpositive_question_count_completes_witness :
  status_of (u "task-1")
    (run_grading_task no_float keep_text some_text some_repr dashscope_only
       (u "task-1") (u "exam.jpg") (Some 0) None [] [] full_marks_world
       (Ok (u "report.json")) new_task fs_init)
  = PStr (u "completed").
Proof.
  destruct (nonpositive_question_count_completes no_float keep_text some_text some_repr
              dashscope_only (u "task-1") (u "exam.jpg") 0 None [] []
              full_marks_world (u "report.json") (u "marked.jpg") new_task fs_init
              [ (u "status", PStr (u "processing")); (u "progress", PInt 0) ])
    as [H _].
  - reflexivity.
  - lia.
  - vm_compute. discriminate.
  - reflexivity.
  - exact H.
Defined.

(** ** The task registry *)

Lemma dict_set_keys {V : Type} (k : str) (v v0 : V) (d : dict V) :
  dict_get k d = Some v0 -> dict_keys (dict_set k v d) = dict_keys d.
Proof.
  induction d as [|[k' v'] d IH]; simpl; [discriminate|].
  destruct (str_eqb k k') eqn:E; simpl; [reflexivity|].
  intros H. f_equal. now apply IH.
Qed.

Section TaskFacts.

Variable float_of_str : str -> option pyfloat.
Variable clean_text : str -> str.
Variable exn_text : exn -> str.
Variable repr_other : pyval -> str.

Lemma update_task_registered (task_id : str) (fields : list (str * pyval))
      (tasks : dict (dict pyval)) (t : dict pyval) :
  dict_get task_id tasks = Some t ->
  update_task task_id fields tasks
  = Ok (dict_set task_id
          (fold_left (fun d kv => dict_set (fst kv) (snd kv) d) fields t) tasks).
Proof. intros H. unfold update_task. now rewrite H. Qed.

Lemma update_task_unregistered (task_id : str) (fields : list (str * pyval))
      (tasks : dict (dict pyval)) :
  dict_get task_id tasks = None -> update_task task_id fields tasks = Raise KeyError.
Proof. intros H. unfold update_task. now rewrite H. Qed.

(** The three ways the run can end, for a registered task. *)
Lemma run_grading_task_cases environ task_id filename question_count max_score
      selected_models text_scores w0 save tasks w t :
  dict_get task_id tasks = Some t ->
  exists fields report w',
    run_grading_task float_of_str clean_text exn_text repr_other environ task_id
                     filename question_count max_score selected_models text_scores
                     w0 save tasks w
    = (Ok {| tasks_after :=
               dict_set task_id
                 (fold_left (fun d kv => dict_set (fst kv) (snd kv) d) fields t) tasks;
             saved_report := report |}, w')
    /\ ((exists path marked r,
           fields = [ (u "status", PStr (u "completed")); (u "progress", PInt 100);
                      (u "result_filename", PStr filename);
                      (u "report_path", PStr path);
                      (u "marked_image_filename", PStr marked) ]
           /\ report = Some r /\ save = Ok path)
        \/ (exists message,
              fields = [ (u "status", PStr (u "error")); (u "error", PStr message) ]
              /\ report = None)).
Proof.
  intros Ht. unfold run_grading_task.
  destruct (grade_exam_with_multiple_models float_of_str clean_text exn_text repr_other
              (init_api_keys [] environ) question_count max_score selected_models
              text_scores w0 w) as [[[message|r]|e] w'].
  - exists [ (u "status", PStr (u "error")); (u "error", PStr message) ], None, w'.
    split; [|right; eauto].
    simpl bind. unfold update_task. rewrite Ht. reflexivity.
  - destruct save as [path|e].
    + exists [ (u "status", PStr (u "completed")); (u "progress", PInt 100);
               (u "result_filename", PStr filename); (u "report_path", PStr path);
               (u "marked_image_filename", PStr (marked_image_filename r)) ],
             (Some r), w'.
      split; [|left; exists path, (marked_image_filename r), r; auto].
      simpl bind. unfold update_task. rewrite Ht. reflexivity.
    + exists [ (u "status", PStr (u "error")); (u "error", PStr (exn_text e)) ], None, w'.
      split; [|right; eauto].
      simpl bind. unfold update_task. rewrite Ht. reflexivity.
  - exists [ (u "status", PStr (u "error")); (u "error", PStr (exn_text e)) ], None, w'.
    split; [|right; eauto].
    simpl bind. unfold update_task. rewrite Ht. reflexivity.
Qed.

End TaskFacts.



(** X10.  For a task that is not in the registry (it was never registered, or
    the registry was cleared in between), [run_grading_task] does not return:
    the [KeyError] of the status update is raised again by the handler that
    should record the failure, and leaves the function. *)
Theorem run_grading_task_unregistered :
  forall (float_of_str : str -> option pyfloat) (clean_text : str -> str)
         (exn_text : exn -> str) (repr_other : pyval -> str)
         (environ : dict str) (task_id filename : str)
         (question_count : option Z) (max_score : option pyfloat)
         (selected_models : list str) (text_scores : dict pyfloat)
         (w0 : world) (save : res str) (tasks : dict (dict pyval)) (w : fs),
    dict_get task_id tasks = None ->
    fst (run_grading_task float_of_str clean_text exn_text repr_other environ task_id
                          filename question_count max_score selected_models
                          text_scores w0 save tasks w)
    = Raise KeyError.
Proof.
  intros F C E R environ task_id filename qc ms sel ts w0 save tasks w Ht.
  unfold run_grading_task.
  destruct (grade_exam_with_multiple_models F C E R (init_api_keys [] environ) qc ms
              sel ts w0 w) as [[[message|r]|e] w'];
    simpl bind; try destruct save as [path|e']; simpl bind;
    unfold update_task; rewrite Ht; reflexivity.
Qed.

Lemma run_grading_task_unregistered_witness :
  fst (run_grading_task no_float keep_text some_text some_repr dashscope_only
         (u "task-2") (u "exam.jpg") (Some 1) (Some (Fin 10)) [] []
         full_marks_world (Ok (u "report.json")) new_task fs_init)
  = Raise KeyError.
Proof.
  apply (run_grading_task_unregistered no_float keep_text some_text some_repr
           dashscope_only (u "task-2") (u "exam.jpg") (Some 1) (Some (Fin 10)) [] []
           full_marks_world (Ok (u "report.json")) new_task fs_init).
  reflexivity.
Defined.

(** ** One report entry per question *)

Lemma bindM_Ok {A B : Type} (c : M A) (k : A -> M B) (w w' : fs) (b : B) :
  bindM c k w = (Ok b, w') -> exists a w1, c w = (Ok a, w1) /\ k a w1 = (Ok b, w').
Proof.
  unfold bindM. destruct (c w) as [[a|e] w1]; [eauto | discriminate].
Qed.

Lemma dict_set_keys_fresh {V : Type} (k : str) (v : V) (d : dict V) :
  ~ In k (dict_keys d) -> dict_keys (dict_set k v d) = dict_keys d ++ [k].
Proof.
  intros H. rewrite (dict_set_fresh k v d H). unfold dict_keys. now rewrite map_app.
Qed.

Lemma dict_get_None_keys {V : Type} (k : str) (d : dict V) :
  dict_get k d = None <-> ~ In k (dict_keys d).
Proof.
  induction d as [|[k' v'] d IH]; simpl; [tauto|].
  destruct (str_eqb k k') eqn:E.
  - apply str_eqb_eq in E. subst. split; [discriminate | intros H; exfalso; apply H; now left].
  - apply str_eqb_neq in E. rewrite IH. split.
    + intros H [H1|H1]; [congruence | contradiction].
    + intros H H1. apply H. now right.
Qed.

Lemma dict_set_keys_NoDup {V : Type} (k : str) (v : V) (d : dict V) :
  NoDup (dict_keys d) -> NoDup (dict_keys (dict_set k v d)).
Proof.
  intros Hnd. destruct (dict_get k d) as [v0|] eqn:E.
  - now rewrite (dict_set_keys k v v0 d E).
  - apply dict_get_None_keys in E. rewrite (dict_set_keys_fresh k v d E).
    apply NoDup_app; [exact Hnd | repeat constructor; intros [] |].
    intros x Hx [<-|[]]. contradiction.
Qed.

Section OrchestratorFacts.

Variable float_of_str : str -> option pyfloat.
Variable clean_text : str -> str.
Variable exn_text : exn -> str.
Variable repr_other : pyval -> str.

Lemma grade_question_entry api_keys models default_max w0 index all_res model_res
      q_item w st' w' :
  grade_question float_of_str clean_text exn_text api_keys models default_max w0
                 (index, all_res, model_res) q_item w = (Ok st', w') ->
  exists uid qr model_res',
    unique_id_of q_item = Ok uid
    /\ st' = (S index, dict_set uid qr all_res, model_res').
Proof.
  unfold grade_question. intros H.
  apply bindM_Ok in H as [uid [w1 [Hu H]]].
  apply bindM_Ok in H as [qr [w2 [Hq H]]].
  apply bindM_Ok in H as [mr [w3 [Hm H]]].
  unfold retM in H. inversion H. subst.
  unfold liftM in Hu. inversion Hu. eauto.
Qed.

Lemma grade_questions_entries api_keys models default_max w0 questions :
  forall index all_res model_res w index' all_res' model_res' w',
    for_eachM questions
      (grade_question float_of_str clean_text exn_text api_keys models default_max w0)
      (index, all_res, model_res) w = (Ok (index', all_res', model_res'), w') ->
    exists uids,
      Forall2 (fun q uid => unique_id_of q = Ok uid) questions uids
      /\ (NoDup (dict_keys all_res) -> NoDup (dict_keys all_res'))
      /\ (NoDup (dict_keys all_res ++ uids) ->
          dict_keys all_res' = dict_keys all_res ++ uids).
Proof.
  induction questions as [|q questions IH];
    intros index all_res model_res w index' all_res' model_res' w' H.
  - simpl in H. unfold retM in H. inversion H. subst. exists []. rewrite app_nil_r.
    repeat split; auto.
  - simpl in H. apply bindM_Ok in H as [[[i1 a1] m1] [w1 [Hq H]]].
    apply grade_question_entry in Hq as [uid [qr [mr [Hu Hst]]]].
    inversion Hst. subst i1 a1 m1. clear Hst.
    apply IH in H as [uids [HF [Hnd Hk]]].
    exists (uid :: uids). split; [constructor; assumption|]. split.
    + intros H0. apply Hnd. now apply dict_set_keys_NoDup.
    + intros H0.
      assert (Hfresh : ~ In uid (dict_keys all_res)).
      { intros Hin. apply NoDup_remove_2 in H0. apply H0. apply in_or_app. now left. }
      rewrite Hk; rewrite (dict_set_keys_fresh uid qr all_res Hfresh).
      * now rewrite <- app_assoc.
      * rewrite <- app_assoc. exact H0.
Qed.

Lemma set_boxes_keys (questions : list (dict pyval)) (report : exam_report) :
  dict_keys (details (set_boxes questions report)) = dict_keys (details report)
  /\ total_count (set_boxes questions report) = total_count report
  /\ total_score (set_boxes questions report) = total_score report
  /\ accuracy (set_boxes questions report) = accuracy report.
Proof.
  unfold set_boxes. cbn [details total_count total_score accuracy].
  split; [|auto].
  generalize (details report) as ds.
  induction questions as [|q questions IH]; intros ds; simpl; [reflexivity|].
  rewrite IH.
  destruct (get (u "unique_id") q) as [| | | |uid| |]; try reflexivity.
  destruct (dict_get uid ds) as [d|] eqn:E; [|reflexivity].
  eapply dict_set_keys. eassumption.
Qed.

Lemma graded_run api_keys question_count max_score selected_models text_scores w0 w
      r w' :
  grade_exam_with_multiple_models float_of_str clean_text exn_text repr_other api_keys
    question_count max_score selected_models text_scores w0 w = (Ok (Graded r), w') ->
  exists first questions uids,
    questions_to_grade repr_other text_scores question_count
      match question_count with
      | None => analyze_exam_structure float_of_str clean_text exn_text api_keys
                                       (Some first) (discovery w0)
      | Some _ => Ok []
      end = Ok questions
    /\ Forall2 (fun q uid => unique_id_of q = Ok uid) questions uids
    /\ NoDup (dict_keys (all_results r))
    /\ (NoDup uids -> dict_keys (all_results r) = uids)
    /\ dict_keys (details (final_results r)) = dict_keys (all_results r)
    /\ total_count (final_results r) = List.length (all_results r).
Proof.
  unfold grade_exam_with_multiple_models. intros H.
  destruct (available_models api_keys selected_models) as [|first rest];
    [unfold retM in H; discriminate|].
  apply bindM_Ok in H as [questions [w1 [Hq H]]].
  apply bindM_Ok in H as [[[index all_res] model_res] [w2 [Hloop H]]].
  apply bindM_Ok in H as [combined [w3 [Hc H]]].
  apply bindM_Ok in H as [marked [w4 [Hm H]]].
  unfold retM in H. inversion H. subst r. clear H. cbn [all_results final_results].
  unfold liftM in Hq, Hc. inversion Hq as [[Hq' Hw1]]. inversion Hc as [[Hc' Hw3]].
  apply grade_questions_entries in Hloop as [uids [HF [Hnd Hk]]].
  assert (Hnd' : NoDup (dict_keys all_res)) by (apply Hnd; constructor).
  destruct (combine_results_keys float_of_str all_res questions
              match max_score with Some m => m | None => pf_of_Z 10 end
              combined Hnd' Hc') as [Hkeys Hcount].
  destruct (set_boxes_keys questions combined) as [Hb [Hb2 _]].
  exists first, questions, uids.
  split; [exact Hq'|]. split; [exact HF|]. split; [exact Hnd'|].
  split; [intros H; now apply Hk|].
  split; [now rewrite Hb | now rewrite Hb2].
Qed.

End OrchestratorFacts.

Lemma NoDup_map_inj {A B : Type} (f : A -> B) (l : list A) :
  (forall x y, f x = f y -> x = y) -> NoDup l -> NoDup (map f l).
Proof.
  intros Hinj. induction 1 as [|x l Hx _ IH]; simpl; constructor; [|exact IH].
  intros Hin. apply in_map_iff in Hin as [y [Hy Hin]]. apply Hinj in Hy. now subst.
Qed.

Lemma bytes_of_inj (a b : string) : bytes_of a = bytes_of b -> a = b.
Proof.
  unfold bytes_of. intros H.
  rewrite <- (string_of_list_ascii_of_string a), <- (string_of_list_ascii_of_string b).
  f_equal. revert H.
  generalize (list_ascii_of_string a) as la, (list_ascii_of_string b) as lb.
  induction la as [|x la IH]; intros [|y lb] H; simpl in H; try discriminate;
    [reflexivity|].
  inversion H as [[Hx Hl]]. f_equal; [|now apply IH].
  rewrite <- (ascii_N_embedding x), <- (ascii_N_embedding y). now rewrite Hx.
Qed.

Lemma to_int_not_nil (z : Z) :
  Z.to_int z <> Decimal.Pos Decimal.Nil /\ Z.to_int z <> Decimal.Neg Decimal.Nil.
Proof.
  pose proof (DecimalZ.to_of (Z.to_int z)) as H. rewrite DecimalZ.of_to in H.
  split; intros E; rewrite E in H; discriminate H.
Qed.

(** [str(i)] names one integer only. *)
Lemma str_of_Z_inj (a b : Z) : str_of_Z a = str_of_Z b -> a = b.
Proof.
  unfold str_of_Z. intros H. apply bytes_of_inj in H.
  apply DecimalZ.to_int_inj.
  destruct (to_int_not_nil a) as [A1 A2]. destruct (to_int_not_nil b) as [B1 B2].
  pose proof (NilZero.isi (Z.to_int a) A1 A2) as Ha.
  pose proof (NilZero.isi (Z.to_int b) B1 B2) as Hb.
  rewrite H in Ha. rewrite Ha in Hb. now inversion Hb.
Qed.

Lemma py_range_NoDup (a b : Z) : NoDup (py_range a b).
Proof.
  unfold py_range. apply NoDup_map_inj; [intros x y H; lia | apply seq_NoDup].
Qed.

Lemma numbered_questions_ids (n : Z) :
  Forall2 (fun q uid => unique_id_of q = Ok uid)
          (numbered_questions n) (map str_of_Z (py_range 1 (n + 1))).
Proof.
  unfold numbered_questions. induction (py_range 1 (n + 1)) as [|i l IH]; simpl;
    constructor; [reflexivity | exact IH].
Qed.

Lemma Forall2_fun {A B : Type} (f : A -> res B) (l : list A) (x y : list B) :
  Forall2 (fun a b => f a = Ok b) l x -> Forall2 (fun a b => f a = Ok b) l y -> x = y.
Proof.
  intros H. revert y. induction H as [|a b l x Hab _ IH]; intros y Hy;
    inversion Hy; subst; [reflexivity|].
  f_equal; [congruence | now apply IH].
Qed.

(** X11.  In the report of a completed run every graded question has exactly
    one entry: the keys of [details] are the keys of [all_results], without
    repetition and in the same order, and [total_count] is their number.
    Questions that share a unique id share one entry. *)
Theorem report_has_one_entry_per_question :
  forall (float_of_str : str -> option pyfloat) (clean_text : str -> str)
         (exn_text : exn -> str) (repr_other : pyval -> str)
         (api_keys : dict str) (question_count : option Z)
         (max_score : option pyfloat) (selected_models : list str)
         (text_scores : dict pyfloat) (w0 : world) (w w' : fs) (r : grading_report),
    grade_exam_with_multiple_models float_of_str clean_text exn_text repr_other
      api_keys question_count max_score selected_models text_scores w0 w
    = (Ok (Graded r), w') ->
    NoDup (dict_keys (all_results r))
    /\ dict_keys (details (final_results r)) = dict_keys (all_results r)
    /\ total_count (final_results r) = List.length (all_results r).
Proof.
  intros F C E R api_keys qc ms sel ts w0 w w' r H.
  destruct (graded_run F C E R api_keys qc ms sel ts w0 w r w' H)
    as [first [questions [uids [_ [_ [Hnd [_ [Hk Hc]]]]]]]].
  auto.
Qed.

Lemma report_has_one_entry_per_question_witness :
  dict_keys (details (final_results one_question_run))
  = dict_keys (all_results one_question_run)
  /\ total_count (final_results one_question_run) = 1%nat.
Proof.
  destruct (report_has_one_entry_per_question no_float keep_text some_text some_repr
              (init_api_keys [] dashscope_only) (Some 1) (Some (Fin 10)) [] []
              full_marks_world fs_init
              {| temp_exists := true; trace := [WriteTemp] |} one_question_run)
    as [_ [H1 H2]].
  - vm_compute. reflexivity.
  - split; [exact H1 | exact H2].
Defined.

(** X12.  With a question count [n] that is not negative, the report of a
    completed run has exactly [n] entries, keyed "1" to "n" in this order. *)
Theorem question_count_gives_numbered_entries :
  forall (float_of_str : str -> option pyfloat) (clean_text : str -> str)
         (exn_text : exn -> str) (repr_other : pyval -> str)
         (api_keys : dict str) (n : Z)
         (max_score : option pyfloat) (selected_models : list str)
         (text_scores : dict pyfloat) (w0 : world) (w w' : fs) (r : grading_report),
    0 <= n ->
    grade_exam_with_multiple_models float_of_str clean_text exn_text repr_other
      api_keys (Some n) max_score selected_models text_scores w0 w
    = (Ok (Graded r), w') ->
    dict_keys (details (final_results r)) = map str_of_Z (py_range 1 (n + 1))
    /\ dict_keys (all_results r) = map str_of_Z (py_range 1 (n + 1))
    /\ total_count (final_results r) = Z.to_nat n.
Proof.
  intros F C E R api_keys n ms sel ts w0 w w' r Hn H.
  destruct (graded_run F C E R api_keys (Some n) ms sel ts w0 w r w' H)
    as [first [questions [uids [Hq [HF [_ [Hu [Hk Hc]]]]]]]].
  simpl in Hq. inversion Hq. subst questions. clear Hq.
  assert (Eu : uids = map str_of_Z (py_range 1 (n + 1))).
  { eapply Forall2_fun; [exact HF | apply numbered_questions_ids]. }
  subst uids.
  assert (Hnd : NoDup (map str_of_Z (py_range 1 (n + 1)))).
  { apply NoDup_map_inj; [apply str_of_Z_inj | apply py_range_NoDup]. }
  specialize (Hu Hnd). rewrite Hk, Hc. split; [exact Hu|]. split; [exact Hu|].
  rewrite <- (length_map fst (all_results r)). fold (dict_keys (all_results r)).
  rewrite Hu, length_map. unfold py_range. rewrite length_map, length_seq. lia.
Qed.

Lemma question_count_gives_numbered_entries_witness :
  dict_keys (details (final_results one_question_run)) = [u "1"].
Proof.
  destruct (question_count_gives_numbered_entries no_float keep_text some_text
              some_repr (init_api_keys [] dashscope_only) 1 (Some (Fin 10)) [] []
              full_marks_world fs_init
              {| temp_exists := true; trace := [WriteTemp] |} one_question_run)
    as [H _].
  - lia.
  - vm_compute. reflexivity.
  - exact H.
Defined.

(** ** A higher provider score never lowers the final score *)

Lemma round_half_even_bounds (x : Q) :
  Qfloor x <= round_half_even x <= Qfloor x + 1.
Proof.
  unfold round_half_even.
  destruct (Qcompare (x - inject_Z (Qfloor x)) (1 # 2)); [|lia|lia].
  destruct (Z.even (Qfloor x)); lia.
Qed.

Lemma round_half_even_mono (x y : Q) :
  (x <= y)%Q -> round_half_even x <= round_half_even y.
Proof.
  intros Hxy. pose proof (Qfloor_resp_le x y Hxy) as Hf.
  destruct (Z.eq_dec (Qfloor x) (Qfloor y)) as [E|E].
  - unfold round_half_even. rewrite <- E.
    destruct (Qcompare (x - inject_Z (Qfloor x)) (1 # 2)) eqn:Ex;
      destruct (Qcompare (y - inject_Z (Qfloor x)) (1 # 2)) eqn:Ey;
      try (destruct (Z.even (Qfloor x)); lia); try lia;
      repeat match goal with
             | H : (_ ?= _)%Q = Eq |- _ => apply Qeq_alt in H
             | H : (_ ?= _)%Q = Lt |- _ => apply Qlt_alt in H
             | H : (_ ?= _)%Q = Gt |- _ => apply Qgt_alt in H
             end;
      exfalso; lra.
  - pose proof (round_half_even_bounds x). pose proof (round_half_even_bounds y). lia.
Qed.

Lemma rounded_half_mono (x y : Q) : (x <= y)%Q -> (rounded_half x <= rounded_half y)%Q.
Proof.
  intros Hxy. unfold rounded_half. rewrite !half_as_product.
  assert (H : (inject_Z (round_half_even (x * inject_Z 2))
               <= inject_Z (round_half_even (y * inject_Z 2)))%Q).
  { rewrite <- Zle_Qle. apply round_half_even_mono.
    change (inject_Z 2) with 2%Q. lra. }
  lra.
Qed.

Lemma fold_sum_mono (qs qs' : list Q) :
  Forall2 Qle qs qs' ->
  forall a a', (a <= a')%Q -> (fold_left Qplus qs a <= fold_left Qplus qs' a')%Q.
Proof.
  induction 1 as [|q q' qs qs' Hq _ IH]; intros a a' Ha; simpl; [exact Ha|].
  apply IH. lra.
Qed.

Lemma mean_mono (qs qs' : list Q) :
  qs <> [] -> Forall2 Qle qs qs' -> (mean qs <= mean qs')%Q.
Proof.
  intros Hne HF. unfold mean. rewrite <- (Forall2_length HF).
  pose proof (fold_sum_mono qs qs' HF 0%Q 0%Q (Qle_refl 0)) as Hs.
  assert (Hn : (0 < inject_Z (Z.of_nat (List.length qs)))%Q).
  { destruct qs; [contradiction|]. simpl List.length.
    change 0%Q with (inject_Z 0). rewrite <- Zlt_Qlt. lia. }
  unfold Qdiv. apply Qmult_le_compat_r; [exact Hs|].
  apply Qlt_le_weak. now apply Qinv_lt_0_compat.
Qed.

Lemma clamp_mono (r r' m : Q) : (r <= r')%Q -> (clamp r 0 m <= clamp r' 0 m)%Q.
Proof.
  intros H. unfold clamp. apply Q.max_le_compat_l. now apply Q.min_le_compat_r.
Qed.

(** X13.  The final score of a question does not go down when provider scores
    go up: if each provider's score in one list is at most the score at the
    same position in another, so are the final scores, for the same maximum
    score. *)
Theorem final_score_is_monotone :
  forall (scores scores' : list pyval) (qs qs' : list Q) (m : Q),
    scores <> [] ->
    Forall2 (fun v q => num_of v = Some (Fin q)) scores qs ->
    Forall2 (fun v q => num_of v = Some (Fin q)) scores' qs' ->
    Forall2 Qle qs qs' ->
    exists f f' : Q,
      final_score_of scores (Fin m) = Ok (Fin f)
      /\ final_score_of scores' (Fin m) = Ok (Fin f')
      /\ (f <= f')%Q.
Proof.
  intros scores scores' qs qs' m Hne HF HF' Hle.
  assert (Hq : qs <> []).
  { intros ->. inversion HF. now subst. }
  assert (Hne' : scores' <> []).
  { intros ->. inversion HF'. subst. inversion Hle. now subst. }
  destruct (clamp_code (rounded_half (mean qs)) m) as [f [Hf [Hcl _]]].
  destruct (clamp_code (rounded_half (mean qs')) m) as [f' [Hf' [Hcl' _]]].
  exists f, f'.
  rewrite (final_score_of_fin scores qs (Fin m) Hne HF), Hf.
  rewrite (final_score_of_fin scores' qs' (Fin m) Hne' HF'), Hf'.
  split; [reflexivity|]. split; [reflexivity|].
  rewrite Hcl, Hcl'. apply clamp_mono, rounded_half_mono, mean_mono; assumption.
Qed.

Lemma final_score_is_monotone_witness :
  exists f f' : Q,
    final_score_of [PFloat (Fin 3); PInt 0] (Fin 10) = Ok (Fin f)
    /\ final_score_of [PFloat (Fin 10); PFloat (Fin 6)] (Fin 10) = Ok (Fin f')
    /\ (f <= f')%Q.
Proof.
  apply (final_score_is_monotone [PFloat (Fin 3); PInt 0] [PFloat (Fin 10); PFloat (Fin 6)]
           [3%Q; 0%Q] [10%Q; 6%Q] 10%Q).
  - discriminate.
  - repeat constructor.
  - repeat constructor.
  - repeat constructor; discriminate.
Defined.

(** ** The repair of a truncated answer *)

Lemma count_repeat_same (c : char) (n : nat) : count c (repeat_char c n) = n.
Proof. induction n as [|n IH]; simpl; [reflexivity|]. now rewrite N.eqb_refl, IH. Qed.

Lemma count_repeat_other (c d : char) (n : nat) :
  d <> c -> count c (repeat_char d n) = O.
Proof.
  intros Hne. induction n as [|n IH]; simpl; [reflexivity|].
  destruct (N.eqb_spec d c); [contradiction | exact IH].
Qed.

Lemma repeat_char_Forall (c : char) (n : nat) : Forall (fun x => x = c) (repeat_char c n).
Proof. induction n; simpl; constructor; auto. Qed.

(** The repair only appends to the stripped text. *)
Lemma repair_shape (s : str) : exists tail, repair s = rstrip s ++ tail.
Proof.
  unfold repair.
  destruct (Nat.odd (count quote (rstrip s)));
    match goal with
    | |- context [if ?b then _ else _] => destruct b
    end; eexists; rewrite <- ?app_assoc; try reflexivity.
  symmetry. apply app_nil_r.
Qed.

(** X14.  The repair of [parse_grading_response] only appends to the answer
    stripped of trailing white space, and only quotes and closing braces.
    Afterwards the number of quotes is even and there are at least as many
    closing braces as opening ones; an answer that already is like that is
    only stripped. *)
Theorem repair_balances :
  forall s : str,
    exists tail,
      repair s = rstrip s ++ tail
      /\ Forall (fun c => c = quote \/ c = rbrace) tail
      /\ Nat.even (count quote (repair s)) = true
      /\ (count lbrace (repair s) <= count rbrace (repair s))%nat
      /\ (Nat.even (count quote s) = true ->
          (count lbrace s <= count rbrace s)%nat -> tail = []).
Proof.
  intros s. unfold repair.
  assert (Hq : count quote (rstrip s) = count quote s) by (now apply rstrip_count).
  assert (Hl : count lbrace (rstrip s) = count lbrace s) by (now apply rstrip_count).
  assert (Hr : count rbrace (rstrip s) = count rbrace s) by (now apply rstrip_count).
  set (s1 := rstrip s) in *.
  set (s2 := if Nat.odd (count quote s1) then s1 ++ [quote] else s1).
  assert (H2 : exists t2, s2 = s1 ++ t2
                 /\ Forall (fun c => c = quote \/ c = rbrace) t2
                 /\ Nat.even (count quote s2) = true
                 /\ count lbrace s2 = count lbrace s1
                 /\ count rbrace s2 = count rbrace s1
                 /\ (Nat.even (count quote s1) = true -> t2 = [])).
  { unfold s2. destruct (Nat.odd (count quote s1)) eqn:Eo.
    - exists [quote]. split; [reflexivity|]. split; [repeat constructor; now left|].
      rewrite !count_app. simpl. split.
      + rewrite Nat.add_1_r, Nat.even_succ. exact Eo.
      + split; [lia|]. split; [lia|].
        intros He. rewrite <- Nat.negb_odd, Eo in He. discriminate.
    - exists []. rewrite app_nil_r. split; [reflexivity|]. split; [constructor|].
      split; [now rewrite <- Nat.negb_odd, Eo | auto]. }
  destruct H2 as [t2 [E2 [F2 [Q2 [L2 [R2 N2]]]]]].
  destruct (count rbrace s2 <? count lbrace s2)%nat eqn:Eb.
  - apply Nat.ltb_lt in Eb.
    exists (t2 ++ repeat_char rbrace (count lbrace s2 - count rbrace s2)).
    split; [rewrite E2 at 1; now rewrite app_assoc|].
    split.
    { apply Forall_app. split; [exact F2|].
      eapply Forall_impl; [|apply repeat_char_Forall]. intros c ->. now right. }
    rewrite !count_app, count_repeat_same.
    rewrite !(count_repeat_other _ rbrace) by discriminate.
    split; [now rewrite Nat.add_0_r|]. split; [lia|].
    intros He Hle. rewrite Hq in N2. rewrite L2, R2, Hl, Hr in Eb. lia.
  - apply Nat.ltb_ge in Eb. exists t2. split; [exact E2|]. split; [exact F2|].
    split; [exact Q2|]. split; [exact Eb|].
    intros He _. apply N2. now rewrite Hq.
Qed.

(** ** The matcher *)

Lemma star_inv (p : char -> bool) (k : str -> option Regex.captures) (s : str)
      (r : Regex.captures) :
  Regex.star p k s = Some r ->
  exists taken rest,
    s = taken ++ rest /\ Forall (fun c => p c = true) taken /\ k rest = Some r.
Proof.
  induction s as [|c t IH]; simpl; intros H.
  - exists [], []. auto.
  - destruct (p c) eqn:Ep.
    + destruct (Regex.star p k t) as [r'|] eqn:Es.
      * inversion H. subst r'. destruct (IH eq_refl) as [taken [rest [-> [HF Hk]]]].
        exists (c :: taken), rest. auto.
      * exists [], (c :: t). auto.
    + exists [], (c :: t). auto.
Qed.

Lemma lazy_star_inv (p : char -> bool) (k : str -> option Regex.captures) (s : str)
      (r : Regex.captures) :
  Regex.lazy_star p k s = Some r ->
  exists taken rest,
    s = taken ++ rest /\ Forall (fun c => p c = true) taken /\ k rest = Some r.
Proof.
  induction s as [|c t IH]; simpl; intros H.
  - destruct (k []) eqn:Ek; [|discriminate]. inversion H. subst.
    exists [], []. auto.
  - destruct (k (c :: t)) as [r'|] eqn:Ek.
    + inversion H. subst r'. exists [], (c :: t). auto.
    + destruct (p c) eqn:Ep; [|discriminate].
      destruct (IH H) as [taken [rest [-> [HF Hk]]]].
      exists (c :: taken), rest. auto.
Qed.

(** A greedy star whose continuation accepts what follows the longest run
    takes that run. *)
Lemma star_longest (p : char -> bool) (k : str -> option Regex.captures)
      (taken rest : str) (r : Regex.captures) :
  Forall (fun c => p c = true) taken ->
  match rest with c :: _ => p c = false | [] => True end ->
  k rest = Some r ->
  Regex.star p k (taken ++ rest) = Some r.
Proof.
  intros HF Hrest Hk. induction HF as [|c taken Hc _ IH]; simpl.
  - destruct rest as [|c t]; simpl; [exact Hk|]. now rewrite Hrest.
  - now rewrite Hc, IH.
Qed.

(** A lazy star skips the positions at which its continuation fails. *)
Lemma lazy_star_skip (p : char -> bool) (k : str -> option Regex.captures)
      (skipped rest : str) :
  Forall (fun c => p c = true) skipped ->
  (forall a b, skipped = a ++ b -> b <> [] -> k (b ++ rest) = None) ->
  Regex.lazy_star p k (skipped ++ rest) = Regex.lazy_star p k rest.
Proof.
  intros HF. induction HF as [|c skipped Hc _ IH]; intros Hk; [reflexivity|].
  assert (H0 : k ((c :: skipped) ++ rest) = None)
    by (apply (Hk [] (c :: skipped) eq_refl); discriminate).
  simpl in *. rewrite H0, Hc. apply IH. intros a b E Hb. apply (Hk (c :: a) b); [|exact Hb].
  simpl. now rewrite E.
Qed.

Lemma lazy_star_now (p : char -> bool) (k : str -> option Regex.captures)
      (s : str) (r : Regex.captures) :
  k s = Some r -> Regex.lazy_star p k s = Some r.
Proof. intros H. destruct s; simpl; now rewrite H. Qed.

(** Groups that the rest of a pattern does not close keep their text. *)
Lemma run_keeps_groups (g : nat) (atoms : list Regex.atom) :
  ~ In (Regex.Close g) atoms ->
  forall opens closed s r,
    Regex.run atoms opens closed s = Some r ->
    Regex.lookup g r = Regex.lookup g closed.
Proof.
  induction atoms as [|a atoms IH]; intros Hn opens closed s r H.
  - simpl in H. now inversion H.
  - assert (Hn' : ~ In (Regex.Close g) atoms) by (intros Hin; apply Hn; now right).
    destruct a as [p|p|p|p|g'|g']; simpl in H.
    + destruct s as [|c t]; [discriminate|]. destruct (p c); [|discriminate]. eauto.
    + destruct s as [|c t]; [eauto|]. destruct (p c); [|eauto].
      destruct (Regex.run atoms opens closed t) eqn:E; [|eauto].
      inversion H. subst. eauto.
    + apply star_inv in H as [taken [rest [_ [_ H]]]]. eauto.
    + apply lazy_star_inv in H as [taken [rest [_ [_ H]]]]. eauto.
    + eauto.
    + destruct (Regex.lookup g' opens) as [s0|]; [|discriminate].
      rewrite (IH Hn' _ _ _ _ H). simpl.
      destruct (Nat.eqb_spec g g') as [->|_]; [|reflexivity].
      exfalso. apply Hn. now left.
Qed.

Lemma search_inv (atoms : list Regex.atom) (s : str) (r : Regex.captures) :
  Regex.search atoms s = Some r ->
  exists skipped rest, s = skipped ++ rest /\ Regex.run atoms [] [] rest = Some r.
Proof.
  induction s as [|c t IH]; simpl; intros H.
  - destruct (Regex.run atoms [] [] []) eqn:E; [|discriminate].
    inversion H. subst. exists [], []. auto.
  - destruct (Regex.run atoms [] [] (c :: t)) eqn:E.
    + inversion H. subst. exists [], (c :: t). auto.
    + destruct (IH H) as [skipped [rest [-> Hr]]]. exists (c :: skipped), rest. auto.
Qed.

(** ** The rules of the answer key *)

Lemma dict_set_keys_incl {V : Type} (k x : str) (v : V) (d : dict V) :
  In x (dict_keys (dict_set k v d)) -> x = k \/ In x (dict_keys d).
Proof.
  destruct (dict_get k d) as [v0|] eqn:E.
  - rewrite (dict_set_keys k v v0 d E). now right.
  - apply dict_get_None_keys in E. rewrite (dict_set_keys_fresh k v d E).
    intros H. apply in_app_or in H as [H|[H|[]]]; auto.
Qed.

Section AnswerKeyFacts.

Variable float_of_str : str -> option pyfloat.
Variable decimal_wide : char -> bool.

Lemma keyword_of_In (name key : str) :
  keyword_of name = Some key -> In key keywords /\ contains key name = true.
Proof. unfold keyword_of. intros H. now apply find_some in H. Qed.

Lemma apply_match_ok (caps : Regex.captures) (rules : dict pyfloat) :
  rules_ok rules -> rules_ok (apply_match float_of_str caps rules).
Proof.
  intros [Hnd Hk]. unfold apply_match.
  destruct (Regex.lookup 1 caps) as [g1|]; [|now split].
  destruct (Regex.lookup 2 caps) as [g2|]; [|now split].
  destruct (float_of_str g2) as [score|]; [|now split].
  destruct (keyword_of (strip g1)) as [key|] eqn:E; [|now split].
  apply keyword_of_In in E as [Hin _]. split.
  - now apply dict_set_keys_NoDup.
  - apply Forall_forall. intros x Hx. apply dict_set_keys_incl in Hx as [->|Hx]; [exact Hin|].
    rewrite Forall_forall in Hk. auto.
Qed.

Lemma scan_line_ok (rules : dict pyfloat) (line : str) :
  rules_ok rules -> rules_ok (scan_line float_of_str decimal_wide rules line).
Proof.
  intros H. unfold scan_line. destruct (strip line) as [|c l]; [exact H|].
  generalize (patterns decimal_wide) as pats. intros pats. revert rules H.
  induction pats as [|pat pats IH]; intros rules H; simpl; [exact H|].
  apply IH. unfold scan_pattern.
  destruct (Regex.search pat (c :: l)); [now apply apply_match_ok | exact H].
Qed.

Lemma extract_ok (text : str) :
  rules_ok (extract_group_scores_from_text float_of_str decimal_wide text).
Proof.
  unfold extract_group_scores_from_text.
  assert (H0 : rules_ok []) by (split; constructor).
  destruct text as [|c t]; [exact H0|].
  generalize (split_char newline (c :: t)) as lines. intros lines.
  revert H0. generalize (@nil (str * pyfloat)) as rules.
  induction lines as [|line lines IH]; intros rules H; simpl; [exact H|].
  apply IH. now apply scan_line_ok.
Qed.

End AnswerKeyFacts.

(** X15.  Whatever the answer-key text, the rules taken from it are keyed by
    section kinds of the fixed list of eight (填空, 选择, 判断, 简答, 计算,
    分析, 设计, 编程), each at most once; so there are at most eight rules. *)
Theorem answer_key_rules_are_keyed_by_kind :
  forall (float_of_str : str -> option pyfloat) (decimal_wide : char -> bool)
         (text : str),
    let rules := extract_group_scores_from_text float_of_str decimal_wide text in
    NoDup (dict_keys rules)
    /\ Forall (fun k => In k keywords) (dict_keys rules)
    /\ (List.length rules <= 8)%nat.
Proof.
  intros F D text rules. destruct (extract_ok F D text) as [Hnd Hk].
  fold rules in Hnd, Hk. split; [exact Hnd|]. split; [exact Hk|].
  rewrite <- (length_map fst rules). fold (dict_keys rules).
  change 8%nat with (List.length keywords).
  apply NoDup_incl_length; [exact Hnd|].
  intros x Hx. rewrite Forall_forall in Hk. auto.
Qed.

Lemma contains_head_In (c : char) (k s : str) : contains (c :: k) s = true -> In c s.
Proof.
  induction s as [|x s IH]; simpl.
  - discriminate.
  - intros H. apply orb_true_iff in H as [H|H].
    + apply andb_true_iff in H as [H _]. apply N.eqb_eq in H. now left.
    + right. auto.
Qed.

Lemma lstrip_In (c : char) (s : str) : In c (lstrip s) -> In c s.
Proof.
  induction s as [|x s IH]; simpl; [auto|].
  destruct (isspace x); [intros H; right; auto | auto].
Qed.

Lemma strip_In (c : char) (s : str) : In c (strip s) -> In c s.
Proof. unfold strip. intros H. apply rstrip_In. now apply lstrip_In. Qed.

Lemma keyword_not_decimal (decimal_wide : char -> bool) (key : str) :
  In key keywords ->
  exists c k, key = c :: k /\ is_decimal decimal_wide c = false.
Proof.
  unfold keywords. simpl.
  intros [<-|[<-|[<-|[<-|[<-|[<-|[<-|[<-|[]]]]]]]]];
    eexists; eexists; (split; [vm_compute; reflexivity | reflexivity]).
Qed.

Lemma no_keyword_in_digits (decimal_wide : char -> bool) (g : str) :
  Forall (fun c => is_decimal decimal_wide c = true) g ->
  keyword_of (strip g) = None.
Proof.
  intros HF. destruct (keyword_of (strip g)) as [key|] eqn:E; [|reflexivity].
  apply keyword_of_In in E as [Hin Hc].
  destruct (keyword_not_decimal decimal_wide key Hin) as [c [k [-> Hd]]].
  apply contains_head_In, strip_In in Hc.
  rewrite Forall_forall in HF. rewrite (HF c Hc) in Hd. discriminate.
Qed.

Lemma firstn_taken {A : Type} (a b : list A) :
  firstn (List.length (a ++ b) - List.length b) (a ++ b) = a.
Proof.
  rewrite length_app. replace (List.length a + List.length b - List.length b)%nat
    with (List.length a) by lia.
  rewrite firstn_app, firstn_all, Nat.sub_diag. simpl. apply app_nil_r.
Qed.

(** A group that is one or more characters of a class, at the start of a
    pattern. *)
Lemma run_group_plus (g : nat) (p : char -> bool) (rest : list Regex.atom)
      (closed : Regex.captures) (s : str) (r : Regex.captures) :
  Regex.run (Regex.Open g :: Regex.One p :: Regex.Star p :: Regex.Close g :: rest)
            [] closed s = Some r ->
  exists taken s',
    s = taken ++ s' /\ taken <> [] /\ Forall (fun c => p c = true) taken
    /\ Regex.run rest [(g, s)] ((g, taken) :: closed) s' = Some r.
Proof.
  intros H. cbn [Regex.run] in H.
  destruct s as [|c t]; [discriminate|].
  destruct (p c) eqn:Ec; [|discriminate].
  apply star_inv in H as [taken [s' [-> [HF H]]]].
  cbn [Regex.lookup] in H. rewrite Nat.eqb_refl in H.
  change (c :: taken ++ s') with ((c :: taken) ++ s') in H.
  rewrite firstn_taken in H.
  exists (c :: taken), s'. split; [reflexivity|]. split; [discriminate|].
  split; [now constructor | exact H].
Qed.

(** In a match of the second pattern the group 1 is made of digits. *)
Lemma numbered_group_one (decimal_wide : char -> bool) (s : str) (r : Regex.captures) :
  Regex.run (numbered_pattern decimal_wide) [] [] s = Some r ->
  exists g1, Regex.lookup 1 r = Some g1
             /\ Forall (fun c => is_decimal decimal_wide c = true) g1.
Proof.
  intros H. cbv [numbered_pattern Regex.Plus app] in H.
  apply run_group_plus in H as [taken [s' [-> [_ [HF H]]]]].
  apply (run_keeps_groups 1) in H.
  - exists taken. split; [rewrite H; reflexivity | exact HF].
  - cbv [per_item Regex.Plus app]. simpl. intuition discriminate.
Qed.

Lemma numbered_pattern_no_rule (float_of_str : str -> option pyfloat)
      (decimal_wide : char -> bool) (line : str) (rules : dict pyfloat) :
  scan_pattern float_of_str line rules (numbered_pattern decimal_wide) = rules.
Proof.
  unfold scan_pattern.
  destruct (Regex.search (numbered_pattern decimal_wide) line) as [caps|] eqn:E;
    [|reflexivity].
  apply search_inv in E as [skipped [rest [_ E]]].
  apply numbered_group_one in E as [g1 [Hg HF]].
  unfold apply_match. rewrite Hg.
  destruct (Regex.lookup 2 caps) as [g2|]; [|reflexivity].
  destruct (float_of_str g2) as [score|]; [|reflexivity].
  now rewrite (no_keyword_in_digits decimal_wide g1 HF).
Qed.

Lemma scan_line_heading_only (float_of_str : str -> option pyfloat)
      (decimal_wide : char -> bool) (rules : dict pyfloat) (line : str) :
  scan_line float_of_str decimal_wide rules line
  = match strip line with
    | [] => rules
    | c :: l => scan_pattern float_of_str (c :: l) rules (heading_pattern decimal_wide)
    end.
Proof.
  unfold scan_line. destruct (strip line) as [|c l]; [reflexivity|].
  unfold patterns. simpl fold_left. apply numbered_pattern_no_rule.
Qed.

(** X16.  The second pattern of [extract_group_scores_from_text], for
    headings that start with a number and a dot, never yields a rule: its
    group 1 is the number, where the code looks for the section kind, and
    its group 2 is the section name, which the code reads as the point
    value.  The rules come from headings with Chinese numerals alone. *)
Theorem numbered_headings_give_no_rule :
  forall (float_of_str : str -> option pyfloat) (decimal_wide : char -> bool),
    (forall (line : str) (rules : dict pyfloat),
       scan_pattern float_of_str line rules (numbered_pattern decimal_wide) = rules)
    /\ (forall (rules : dict pyfloat) (line : str),
          scan_line float_of_str decimal_wide rules line
          = match strip line with
            | [] => rules
            | c :: l =>
              scan_pattern float_of_str (c :: l) rules (heading_pattern decimal_wide)
            end).
Proof.
  intros F D. split.
  - apply numbered_pattern_no_rule.
  - apply scan_line_heading_only.
Qed.

(** How a match goes on, atom by atom. *)
Lemma run_one p rest o cl c t r :
  p c = true -> Regex.run rest o cl t = Some r ->
  Regex.run (Regex.One p :: rest) o cl (c :: t) = Some r.
Proof. intros Hp H. simpl. now rewrite Hp. Qed.

Lemma run_star p rest o cl taken s r :
  Forall (fun c => p c = true) taken ->
  match s with c :: _ => p c = false | [] => True end ->
  Regex.run rest o cl s = Some r ->
  Regex.run (Regex.Star p :: rest) o cl (taken ++ s) = Some r.
Proof. intros HF Hs H. simpl. now apply star_longest. Qed.

Lemma run_lazy_star p rest o cl skipped s r :
  Forall (fun c => p c = true) skipped ->
  (forall a b, skipped = a ++ b -> b <> [] -> Regex.run rest o cl (b ++ s) = None) ->
  Regex.run rest o cl s = Some r ->
  Regex.run (Regex.LazyStar p :: rest) o cl (skipped ++ s) = Some r.
Proof.
  intros HF Hk H. simpl. rewrite lazy_star_skip by assumption. now apply lazy_star_now.
Qed.

Lemma run_open g rest o cl s r :
  Regex.run rest ((g, s) :: o) cl s = Some r ->
  Regex.run (Regex.Open g :: rest) o cl s = Some r.
Proof. auto. Qed.

Lemma run_close g rest o cl taken s r :
  Regex.lookup g o = Some (taken ++ s) ->
  Regex.run rest o ((g, taken) :: cl) s = Some r ->
  Regex.run (Regex.Close g :: rest) o cl s = Some r.
Proof. intros Hg H. simpl. rewrite Hg. now rewrite firstn_taken. Qed.

Lemma run_opt_skip p rest o cl s r :
  match s with c :: _ => p c = false | [] => True end ->
  Regex.run rest o cl s = Some r ->
  Regex.run (Regex.Opt p :: rest) o cl s = Some r.
Proof. intros Hs H. destruct s as [|c t]; simpl; [exact H|]. now rewrite Hs. Qed.

Lemma run_opt_take p rest o cl c t r :
  p c = true -> Regex.run rest o cl t = Some r ->
  Regex.run (Regex.Opt p :: rest) o cl (c :: t) = Some r.
Proof. intros Hp H. simpl. now rewrite Hp, H. Qed.

Lemma search_at_start atoms s r :
  Regex.run atoms [] [] s = Some r -> Regex.search atoms s = Some r.
Proof. intros H. destruct s; simpl; now rewrite H. Qed.

Lemma rstrip_app_nonspace (a : str) (c : char) (rest : str) :
  isspace c = false -> rstrip (a ++ c :: rest) = a ++ c :: rstrip rest.
Proof.
  intros Hc. induction a as [|x a IH]; simpl.
  - destruct (rstrip rest); [now rewrite Hc | reflexivity].
  - rewrite IH. destruct (a ++ c :: rstrip rest) eqn:E; [|reflexivity].
    destruct a; discriminate.
Qed.

Lemma separator_not_numeral (sep : char) :
  one_of (u "、.") sep = true -> is_numeral sep = false.
Proof.
  unfold one_of. simpl. intros H.
  apply orb_true_iff in H as [H|H]; [|apply orb_true_iff in H as [H|H]];
    try discriminate; apply N.eqb_eq in H; subst; reflexivity.
Qed.

Lemma paren_not_name (c : char) : is_paren c = true -> is_name c = false.
Proof.
  unfold is_paren, one_of. simpl. intros H.
  apply orb_true_iff in H as [H|H]; [|apply orb_true_iff in H as [H|H]];
    try discriminate; apply N.eqb_eq in H; subst; reflexivity.
Qed.

Lemma numeral_not_space (c : char) : is_numeral c = true -> isspace c = false.
Proof.
  unfold is_numeral, one_of. simpl. intros H.
  repeat (apply orb_true_iff in H as [H|H];
          [apply N.eqb_eq in H; subst; reflexivity|]).
  discriminate.
Qed.

(** The match of the first pattern on a heading. *)
Lemma heading_match (decimal_wide : char -> bool)
      (n0 : char) (nums : str) (sep c : char) (name : str) (paren : char)
      (mid : str) (kind : char) (gap : str) (d0 : char) (ds frac tail : str) :
  Forall (fun x => is_numeral x = true) (n0 :: nums) ->
  one_of (u "、.") sep = true ->
  isspace c = false ->
  Forall (fun x => is_name x = true) (c :: name) ->
  is_paren paren = true ->
  Forall (fun x => any_char x = true /\ x <> mei) mid ->
  one_of (u "题空小") kind = true ->
  Forall (fun x => is_decimal decimal_wide x = false) gap ->
  Forall (fun x => is_decimal decimal_wide x = true) (d0 :: ds) ->
  is_fraction decimal_wide frac ->
  Regex.run (heading_pattern decimal_wide) [] []
    ((n0 :: nums) ++ sep :: (c :: name) ++ paren :: mid ++ mei :: kind :: gap
       ++ (d0 :: ds) ++ frac ++ fen :: tail)
  = Some [ (2%nat, (d0 :: ds) ++ frac); (1%nat, c :: name) ].
Proof.
  intros Hnum Hsep Hc Hname Hparen Hmid Hkind Hgap Hdig Hfrac.
  inversion Hnum as [|? ? Hn0 Hnums]. subst.
  inversion Hname as [|? ? Hc0 Hname']. subst.
  inversion Hdig as [|? ? Hd0 Hds]. subst.
  cbv [heading_pattern per_item Regex.Plus]. cbn [app].
  apply run_one; [exact Hn0|].
  apply run_star; [exact Hnums | now apply separator_not_numeral |].
  apply run_one; [exact Hsep|].
  apply (run_star _ _ _ _ []); [constructor | exact Hc |].
  apply run_open.
  apply run_one; [exact Hc0|].
  apply run_star; [exact Hname' | now apply paren_not_name |].
  apply (run_close 1%nat _ _ _ (c :: name)); [reflexivity|].
  apply run_one; [exact Hparen|].
  apply run_lazy_star.
  { eapply Forall_impl; [|exact Hmid]. intros x [Hx _]. exact Hx. }
  { intros a b E Hb. destruct b as [|x b]; [contradiction|].
    assert (Hx : x <> mei).
    { rewrite Forall_forall in Hmid. apply (Hmid x). rewrite E.
      apply in_or_app. right. now left. }
    simpl. unfold one_of. simpl. destruct (N.eqb_spec x 27599) as [->|_]; [|reflexivity].
    exfalso. apply Hx. reflexivity. }
  apply run_one; [reflexivity|].
  apply run_one; [exact Hkind|].
  apply run_star; [eapply Forall_impl; [|exact Hgap]; intros x Hx;
                   unfold not_decimal; now rewrite Hx
                  | simpl; unfold not_decimal; now rewrite Hd0 |].
  apply run_open. cbn [app].
  apply run_one; [exact Hd0|].
  destruct Hfrac as [->|[digits [-> Hdigits]]].
  - cbn [app].
    apply run_star; [exact Hds | reflexivity |].
    apply run_opt_skip; [reflexivity|].
    apply (run_star _ _ _ _ []); [constructor | reflexivity |].
    apply (run_close 2%nat _ _ _ (d0 :: ds)); [reflexivity|].
    apply run_one; [reflexivity|].
    simpl. now rewrite app_nil_r.
  - cbn [app].
    apply run_star; [exact Hds | reflexivity |].
    apply run_opt_take; [reflexivity|].
    apply run_star; [exact Hdigits | reflexivity |].
    apply (run_close 2%nat _ _ _ ((d0 :: ds) ++ chr "." :: digits)).
    { cbn [Regex.lookup Nat.eqb]. f_equal. simpl. now rewrite <- app_assoc. }
    apply run_one; [reflexivity|].
    reflexivity.
Qed.

(** X17.  A heading made of Chinese numerals, an ideographic comma or a dot,
    the section name, an opening parenthesis, some text without 每, then 每
    with 题, 空 or 小, characters that are no digits, a number and 分, gives
    the rule of the first section kind that occurs in the name, with the
    number as its point value; nothing changes when the name holds no
    section kind or the number is refused by [float]. *)
Theorem heading_gives_rule :
  forall (float_of_str : str -> option pyfloat) (decimal_wide : char -> bool)
         (n0 : char) (nums : str) (sep c : char) (name : str) (paren : char)
         (mid : str) (kind : char) (gap : str) (d0 : char) (ds frac rest : str)
         (rules : dict pyfloat),
    Forall (fun x => is_numeral x = true) (n0 :: nums) ->
    one_of (u "、.") sep = true ->
    isspace c = false ->
    Forall (fun x => is_name x = true) (c :: name) ->
    is_paren paren = true ->
    Forall (fun x => any_char x = true /\ x <> mei) mid ->
    one_of (u "题空小") kind = true ->
    Forall (fun x => is_decimal decimal_wide x = false) gap ->
    Forall (fun x => is_decimal decimal_wide x = true) (d0 :: ds) ->
    is_fraction decimal_wide frac ->
    scan_line float_of_str decimal_wide rules
      ((n0 :: nums) ++ [sep] ++ (c :: name) ++ [paren] ++ mid ++ [mei; kind] ++ gap
         ++ (d0 :: ds) ++ frac ++ [fen] ++ rest)
    = match float_of_str ((d0 :: ds) ++ frac), keyword_of (strip (c :: name)) with
      | Some score, Some key => dict_set key score rules
      | _, _ => rules
      end.
Proof.
  intros F D n0 nums sep c name paren mid kind gap d0 ds frac rest rules
         Hnum Hsep Hc Hname Hparen Hmid Hkind Hgap Hdig Hfrac.
  rewrite scan_line_heading_only.
  assert (Hstrip :
            strip ((n0 :: nums) ++ [sep] ++ (c :: name) ++ [paren] ++ mid
                     ++ [mei; kind] ++ gap ++ (d0 :: ds) ++ frac ++ [fen] ++ rest)
            = (n0 :: nums) ++ sep :: (c :: name) ++ paren :: mid ++ mei :: kind :: gap
                ++ (d0 :: ds) ++ frac ++ fen :: rstrip rest).
  { unfold strip.
    replace ((n0 :: nums) ++ [sep] ++ (c :: name) ++ [paren] ++ mid
               ++ [mei; kind] ++ gap ++ (d0 :: ds) ++ frac ++ [fen] ++ rest)
      with (((n0 :: nums) ++ [sep] ++ (c :: name) ++ [paren] ++ mid
               ++ [mei; kind] ++ gap ++ (d0 :: ds) ++ frac) ++ fen :: rest)
      by (repeat rewrite <- app_assoc; reflexivity).
    rewrite rstrip_app_nonspace by reflexivity.
    cbn [app lstrip]. inversion Hnum as [|? ? Hn0 _].
    rewrite (numeral_not_space n0 Hn0).
    repeat (first [rewrite <- app_assoc | rewrite <- app_comm_cons]). reflexivity. }
  rewrite Hstrip. cbn [app].
  unfold scan_pattern.
  pose proof (search_at_start _ _ _
                (heading_match D n0 nums sep c name paren mid kind gap d0 ds frac
                               (rstrip rest)
                               Hnum Hsep Hc Hname Hparen Hmid Hkind Hgap Hdig Hfrac))
    as Hs.
  cbn [app] in Hs. rewrite Hs.
  unfold apply_match. cbn [Regex.lookup Nat.eqb].
  destruct (F ((d0 :: ds) ++ frac)); [|reflexivity].
  destruct (keyword_of (strip (c :: name))); reflexivity.
Qed.

(** ** File names of uploads *)

Lemma contains_single (c : char) (s : str) : contains [c] s = true <-> In c s.
Proof.
  induction s as [|x s IH]; simpl.
  - split; [discriminate | contradiction].
  - rewrite orb_true_iff, IH. split.
    + intros [H|H]; [|now right]. apply andb_true_iff in H as [H _].
      apply N.eqb_eq in H. now left.
    + intros [H|H]; [|now right]. left. subst. now rewrite N.eqb_refl.
Qed.

Lemma contains_single_false (c : char) (s : str) : ~ In c s -> contains [c] s = false.
Proof.
  intros H. destruct (contains [c] s) eqn:E; [|reflexivity].
  apply contains_single in E. contradiction.
Qed.

Lemma rfind_from_app_notin (c : char) (s post : str) (i : Z) :
  ~ In c post -> rfind_from c (s ++ post) i = rfind_from c s i.
Proof.
  intros Hn. revert i. induction s as [|x s IH]; intros i; simpl.
  - now apply rfind_from_none.
  - now rewrite IH.
Qed.

Lemma rfind_app_notin (c : char) (s post : str) :
  ~ In c post -> rfind c (s ++ post) = rfind c s.
Proof. apply rfind_from_app_notin. Qed.

Lemma rfind_from_bound (c : char) (s : str) (i : Z) :
  0 <= i ->
  rfind_from c s i = -1 \/ (i <= rfind_from c s i < i + Z.of_nat (List.length s)).
Proof.
  revert i. induction s as [|x s IH]; intros i Hi; simpl; [now left|].
  destruct (IH (i + 1)) as [H|H]; [lia| |].
  - rewrite H. simpl. destruct (x =? c)%N; [right; lia | now left].
  - destruct (Z.eqb_spec (rfind_from c s (i + 1)) (-1)); [lia | right; lia].
Qed.

Lemma rfind_lt_length (c : char) (s : str) : rfind c s < Z.of_nat (List.length s).
Proof.
  unfold rfind. destruct (rfind_from_bound c s 0) as [H|H]; lia.
Qed.

Lemma slice_from_after (stem : str) (c : char) (ext : str) :
  slice_from (stem ++ c :: ext) (Z.of_nat (List.length stem) + 1) = ext.
Proof.
  replace (Z.of_nat (List.length stem) + 1) with (Z.of_nat (List.length (stem ++ [c])))
    by (rewrite length_app; simpl; lia).
  change (stem ++ c :: ext) with (stem ++ [c] ++ ext). rewrite app_assoc.
  apply slice_from_app.
Qed.

Section FileNameFacts.

Variable lower_unicode : str -> str.
Variable windows : bool.

Lemma lower_ascii (s : str) : is_ascii s = true -> lower lower_unicode s = map ascii_lower s.
Proof. intros H. unfold lower. now rewrite H. Qed.

Lemma extension_tested (S : list str) (stem ext : str) :
  ~ In dot ext ->
  has_extension_in lower_unicode S (stem ++ dot :: ext)
  = Some (in_set (lower lower_unicode ext) S).
Proof.
  intros Hn. unfold has_extension_in.
  assert (Hc : contains [dot] (stem ++ dot :: ext) = true).
  { apply contains_single. apply in_or_app. right. now left. }
  rewrite Hc. unfold rsplit1. rewrite (rfind_app dot stem ext Hn).
  destruct (Z.eqb_spec (Z.of_nat (List.length stem)) (-1)) as [E|_]; [lia|].
  cbn [nth_error]. now rewrite slice_from_after.
Qed.

Lemma no_extension (S : list str) (name : str) :
  ~ In dot name -> has_extension_in lower_unicode S name = Some false.
Proof. intros Hn. unfold has_extension_in. now rewrite contains_single_false. Qed.

Lemma has_extension_total (S : list str) (name : str) :
  has_extension_in lower_unicode S name <> None.
Proof.
  destruct (in_dec N.eq_dec dot name) as [Hin|Hn].
  - destruct (last_occurrence dot name Hin) as [stem [ext [-> Hext]]].
    rewrite extension_tested by exact Hext. discriminate.
  - rewrite no_extension by exact Hn. discriminate.
Qed.

End FileNameFacts.

(** X18.  [allowed_file] and [allowed_answer_file] never raise and look at
    the text after the last dot only: a name without a dot is refused, and a
    name whose last extension is ASCII is accepted exactly when that
    extension, in lower case, is one of png, jpg, jpeg (for the answer key:
    doc, docx), whatever comes before. *)
Theorem allowed_file_by_last_extension :
  forall (lower_unicode : str -> str),
    (forall name, allowed_file lower_unicode name <> None
                  /\ allowed_answer_file lower_unicode name <> None)
    /\ (forall name, ~ In dot name ->
                     allowed_file lower_unicode name = Some false
                     /\ allowed_answer_file lower_unicode name = Some false)
    /\ (forall stem ext,
          ~ In dot ext -> is_ascii ext = true ->
          allowed_file lower_unicode (stem ++ dot :: ext)
          = Some (in_set (map ascii_lower ext) ALLOWED_EXTENSIONS)
          /\ allowed_answer_file lower_unicode (stem ++ dot :: ext)
             = Some (in_set (map ascii_lower ext) ALLOWED_ANSWER_EXTENSIONS)).
Proof.
  intros L. unfold allowed_file, allowed_answer_file.
  split; [|split].
  - intros name. split; apply has_extension_total.
  - intros name Hn. split; now apply no_extension.
  - intros stem ext Hn Ha.
    rewrite !extension_tested by exact Hn. now rewrite lower_ascii.
Qed.

Lemma allowed_file_by_last_extension_witness :
  allowed_file (fun s => s) (u "scan.tar.PNG") = Some true
  /\ allowed_file (fun s => s) (u "scan.png.exe") = Some false
  /\ allowed_file (fun s => s) (u "scan") = Some false.
Proof.
  destruct (allowed_file_by_last_extension (fun s => s)) as [_ [H2 H3]].
  split; [|split].
  - apply (H3 (u "scan.tar") (u "PNG")); [vm_compute; intuition discriminate | reflexivity].
  - apply (H3 (u "scan.png") (u "exe")); [vm_compute; intuition discriminate | reflexivity].
  - apply (H2 (u "scan")). vm_compute. intuition discriminate.
Defined.

Lemma in_set_In (x : str) (S : list str) : in_set x S = true -> In x S.
Proof.
  unfold in_set. intros H. apply existsb_exists in H as [y [Hy E]].
  apply str_eqb_eq in E. now subst.
Qed.

(** A lower-cased image extension holds no dot and no separator, and so
    neither does the extension it comes from. *)
Lemma image_extension_chars (ext : str) (c : char) :
  In (map ascii_lower ext) ALLOWED_EXTENSIONS ->
  c = chr "/" \/ c = chr "\" -> ~ In c ext.
Proof.
  intros Hin Hc Hce.
  assert (Hl : In (ascii_lower c) (map ascii_lower ext)) by (now apply in_map).
  assert (Hs : ascii_lower c = c) by (destruct Hc as [->| ->]; reflexivity).
  rewrite Hs in Hl.
  destruct Hin as [E|[E|[E|[]]]]; rewrite <- E in Hl;
    destruct Hc as [->| ->]; vm_compute in Hl; intuition discriminate.
Qed.

(** X19.  An image that [allowed_file] accepts is stored by [upload_file]
    under a random name whose extension is .png, .jpg or .jpeg: the lower-cased
    extension of the upload, or .jpg when the file name proper is made of
    dots only.  Nothing else of the client's file name reaches the file
    system, on either kind of platform. *)
Theorem stored_extension_is_whitelisted :
  forall (lower_unicode : str -> str) (windows : bool) (stem ext : str),
    ~ In dot ext ->
    is_ascii ext = true ->
    allowed_file lower_unicode (stem ++ dot :: ext) = Some true ->
    In (upload_ext lower_unicode windows (stem ++ dot :: ext))
       [u ".png"; u ".jpg"; u ".jpeg"]
    /\ (upload_ext lower_unicode windows (stem ++ dot :: ext) = dot :: map ascii_lower ext
        \/ upload_ext lower_unicode windows (stem ++ dot :: ext) = u ".jpg").
Proof.
  intros L W stem ext Hn Ha Hok.
  unfold allowed_file in Hok. rewrite extension_tested in Hok by exact Hn.
  rewrite lower_ascii in Hok by exact Ha.
  assert (Hset : In (map ascii_lower ext) ALLOWED_EXTENSIONS)
    by (apply in_set_In; congruence).
  clear Hok.
  assert (Hext : In (dot :: map ascii_lower ext) [u ".png"; u ".jpg"; u ".jpeg"]).
  { destruct Hset as [E|[E|[E|[]]]]; rewrite <- E;
      [left | right; left | right; right; left]; reflexivity. }
  assert (Hsep : forall c, c = chr "/" \/ c = chr "\" ->
                           rfind c (stem ++ dot :: ext) < Z.of_nat (List.length stem)).
  { intros c Hc.
    rewrite rfind_app_notin.
    - apply rfind_lt_length.
    - intros [H|H].
      + destruct Hc as [->| ->]; vm_compute in H; discriminate.
      + now apply (image_extension_chars ext c Hset Hc). }
  assert (Hjpg : In (u ".jpg") [u ".png"; u ".jpg"; u ".jpeg"]) by (right; now left).
  unfold upload_ext, splitext.
  rewrite (rfind_app dot stem ext Hn).
  set (sepIndex := if W then Z.max (rfind (chr "\") (stem ++ dot :: ext))
                                   (rfind (chr "/") (stem ++ dot :: ext))
                   else rfind (chr "/") (stem ++ dot :: ext)).
  assert (Hlt : sepIndex < Z.of_nat (List.length stem)).
  { unfold sepIndex. destruct W.
    - apply Z.max_lub_lt; apply Hsep; auto.
    - apply Hsep; auto. }
  apply Z.ltb_lt in Hlt. rewrite Hlt. cbn [andb].
  destruct (existsb _ _); cbn [snd].
  - rewrite slice_from_app. rewrite lower_ascii by (simpl; exact Ha).
    cbn [map]. change (ascii_lower dot) with dot.
    split; [exact Hext | now left].
  - rewrite lower_ascii by reflexivity. cbn [map].
    split; [exact Hjpg | now right].
Qed.

Lemma stored_extension_is_whitelisted_witness :
  upload_ext (fun s => s) true (u "C:\fakepath\page 1.JPEG") = u ".jpeg"
  /\ upload_ext (fun s => s) false (u ".png") = u ".jpg".
Proof.
  split.
  - destruct (stored_extension_is_whitelisted (fun s => s) true
                (u "C:\fakepath\page 1") (u "JPEG")) as [_ [H|H]].
    + vm_compute. intuition discriminate.
    + reflexivity.
    + reflexivity.
    + exact H.
    + vm_compute in H. discriminate.
  - destruct (stored_extension_is_whitelisted (fun s => s) false [] (u "png"))
      as [_ [H|H]].
    + vm_compute. intuition discriminate.
    + reflexivity.
    + reflexivity.
    + vm_compute in H. discriminate.
    + exact H.
Defined.

Lemma heading_gives_rule_witness :
  scan_line sample_float (fun _ => false) []
            (u "一、填空题（每空1.5分，共15分）")
  = [ (u "填空", Fin (3 # 2)) ].
Proof.
  exact (heading_gives_rule sample_float (fun _ => false)
           (chr "一") [] (chr "、") (chr "填") (u "空题") (chr "（") [] (chr "空") []
           (chr "1") [] (u ".5") (u "，共15分）") []
           ltac:(repeat constructor) eq_refl eq_refl ltac:(repeat constructor) eq_refl
           ltac:(constructor) eq_refl ltac:(constructor) ltac:(repeat constructor)
           ltac:(right; exists (u "5"); split; [reflexivity | repeat constructor])).
Defined.

(** ** An answer indented with tabs *)

Lemma replace_char_app (a : char) (b s t : str) :
  replace_char a b (s ++ t) = replace_char a b s ++ replace_char a b t.
Proof.
  induction s as [|x s IH]; simpl; [reflexivity|].
  destruct (x =? a)%N; rewrite IH; [now rewrite app_assoc | reflexivity].
Qed.

Lemma replace_char_blank (ws : str) :
  Forall (fun c => json_blank c = true) ws -> replace_char 9%N (u "\t") ws = ws.
Proof.
  induction 1 as [|c ws Hc _ IH]; simpl; [reflexivity|].
  destruct (N.eqb_spec c 9) as [->|_]; [discriminate Hc | now rewrite IH].
Qed.

Lemma skip_ws_blank (ws : str) (c : char) (t : str) :
  Forall (fun x => json_blank x = true) ws -> Json.is_ws c = false ->
  Json.skip_ws (ws ++ c :: t) = c :: t.
Proof.
  intros Hws Hc. induction Hws as [|x ws Hx _ IH]; simpl.
  - now rewrite Hc.
  - assert (Hw : Json.is_ws x = true).
    { unfold Json.is_ws, json_blank in *.
      apply orb_true_iff in Hx as [Hx|Hx];
        [apply orb_true_iff in Hx as [Hx|Hx]|]; rewrite Hx;
        repeat rewrite orb_true_r; reflexivity. }
    now rewrite Hw.
Qed.

(** [try_parse] turns every tab into a backslash and a [t], also between
    the tokens, where the decoder then refuses the backslash. *)
Lemma try_parse_tab (ws tail : str) :
  Forall (fun c => json_blank c = true) ws ->
  try_parse (lbrace :: ws ++ tab :: tail) = PNone.
Proof.
  intros Hws. unfold try_parse.
  change (lbrace :: ws ++ tab :: tail) with ([lbrace] ++ ws ++ [tab] ++ tail).
  rewrite !replace_char_app, (replace_char_blank ws Hws).
  change (replace_char 9%N (u "\t") [lbrace]) with [lbrace].
  change (replace_char 9%N (u "\t") [tab]) with (u "\t").
  cbn [app]. unfold Json.loads.
  change ((lbrace =? 65279)%N) with false. cbv iota.
  cbn [Json.skip_ws]. change (Json.is_ws lbrace) with false. cbv iota.
  cbn [Json.parse_value]. change ((lbrace =? 34)%N) with false.
  change ((lbrace =? 123)%N) with true. cbv iota.
  change (u "\t" ++ replace_char 9%N (u "\t") tail)
    with (92%N :: 116%N :: replace_char 9%N (u "\t") tail).
  rewrite (skip_ws_blank ws _ _ Hws) by reflexivity.
  reflexivity.
Qed.

Lemma rstrip_app_keep (a b : str) : rstrip b <> [] -> rstrip (a ++ b) = a ++ rstrip b.
Proof.
  intros Hb. induction a as [|x a IH]; simpl; [reflexivity|].
  rewrite IH. destruct (a ++ rstrip b) eqn:E; [|reflexivity].
  apply app_eq_nil in E as [_ E]. contradiction.
Qed.

Lemma rstrip_app_drop (a b : str) : rstrip b = [] -> rstrip (a ++ b) = rstrip a.
Proof.
  intros Hb. induction a as [|x a IH]; simpl; [exact Hb|]. now rewrite IH.
Qed.

Lemma rstrip_blank (ws : str) :
  Forall (fun c => isspace c = true) ws -> rstrip ws = [].
Proof. induction 1 as [|c ws Hc _ IH]; simpl; [reflexivity|]. now rewrite IH, Hc. Qed.

Lemma json_blank_space (ws : str) :
  Forall (fun c => json_blank c = true) ws -> Forall (fun c => isspace c = true) ws.
Proof.
  apply Forall_impl. intros c H. unfold json_blank in H.
  apply orb_true_iff in H as [H|H]; [apply orb_true_iff in H as [H|H]|];
    apply N.eqb_eq in H; subst; reflexivity.
Qed.

Lemma json_blank_notin (ws : str) (c : char) :
  Forall (fun x => json_blank x = true) ws -> json_blank c = false -> ~ In c ws.
Proof.
  intros H Hc Hin. rewrite Forall_forall in H. apply H in Hin. congruence.
Qed.

Section TabFacts.

Variable float_of_str : str -> option pyfloat.
Variable clean_text : str -> str.

Lemma repaired_tab_object (ws tail : str) (max_score : pyfloat) :
  Forall (fun c => json_blank c = true) ws ->
  (if truthy (try_parse (repair ((lbrace :: ws ++ tab :: tail) ++ [rbrace])))
   then process_result float_of_str clean_text max_score
          (try_parse (repair ((lbrace :: ws ++ tab :: tail) ++ [rbrace])))
   else Ok PNone) = Ok PNone.
Proof.
  intros Hws.
  destruct (repair_shape ((lbrace :: ws ++ tab :: tail) ++ [rbrace])) as [t E].
  rewrite rstrip_ends_nonspace in E by reflexivity.
  assert (E2 : ((lbrace :: ws ++ tab :: tail) ++ [rbrace]) ++ t
               = lbrace :: ws ++ tab :: (tail ++ [rbrace] ++ t)).
  { simpl. f_equal. rewrite <- !app_assoc. reflexivity. }
  rewrite E, E2. now rewrite (try_parse_tab ws _ Hws).
Qed.

Lemma unclosed_tab_object (ws rest : str) (max_score : pyfloat) :
  Forall (fun c => json_blank c = true) ws ->
  (if truthy (try_parse (repair (lbrace :: ws ++ tab :: rest)))
   then process_result float_of_str clean_text max_score
          (try_parse (repair (lbrace :: ws ++ tab :: rest)))
   else Ok PNone) = Ok PNone.
Proof.
  intros Hws.
  destruct (rstrip rest) as [|x r] eqn:Er.
  - assert (Hr : rstrip (lbrace :: ws ++ tab :: rest) = [lbrace]).
    { change (lbrace :: ws ++ tab :: rest) with ([lbrace] ++ ws ++ [tab] ++ rest).
      rewrite !app_assoc. rewrite (rstrip_app_drop _ rest Er).
      rewrite <- app_assoc. simpl.
      rewrite rstrip_blank; [reflexivity|].
      apply Forall_app. split; [now apply json_blank_space | repeat constructor]. }
    unfold repair. rewrite Hr. vm_compute. reflexivity.
  - destruct (repair_shape (lbrace :: ws ++ tab :: rest)) as [t E].
    assert (Hr : rstrip (lbrace :: ws ++ tab :: rest) = lbrace :: ws ++ tab :: rstrip rest).
    { replace (lbrace :: ws ++ tab :: rest) with ((lbrace :: ws ++ [tab]) ++ rest)
        by (simpl; now rewrite <- app_assoc).
      rewrite rstrip_app_keep by (rewrite Er; discriminate).
      simpl. now rewrite <- app_assoc. }
    rewrite Hr in E.
    assert (E2 : (lbrace :: ws ++ tab :: rstrip rest) ++ t
                 = lbrace :: ws ++ tab :: (rstrip rest ++ t)).
    { simpl. f_equal. rewrite <- !app_assoc. reflexivity. }
    rewrite E, E2. now rewrite (try_parse_tab ws _ Hws).
Qed.

End TabFacts.

(** X20.  An answer that is a JSON object whose first member is indented with
    a tab (after the opening brace and any spaces and line breaks) is never
    parsed: [try_parse] rewrites the tab into a backslash and a [t] before
    decoding, the decoder refuses it, and no later step recovers the
    object.  The parser returns [None], whatever follows. *)
Theorem tab_indented_object_is_not_parsed :
  forall (float_of_str : str -> option pyfloat) (clean_text : str -> str)
         (ws rest : str) (max_score : pyfloat),
    Forall (fun c => json_blank c = true) ws ->
    ~ In backtick rest ->
    parse_grading_response float_of_str clean_text (lbrace :: ws ++ tab :: rest)
                           max_score
    = Ok PNone.
Proof.
  intros F C ws rest m Hws Hbt.
  assert (Hnb : ~ In backtick (lbrace :: ws ++ tab :: rest)).
  { intros [H|H]; [discriminate H|].
    apply in_app_or in H as [H|[H|H]]; [|discriminate H | contradiction].
    now apply (json_blank_notin ws backtick Hws). }
  unfold parse_grading_response, CodeBlocks.findall.
  rewrite (findall_no_backtick _ _ Hnb). simpl bind.
  unfold outer_braces.
  change (find lbrace (lbrace :: ws ++ tab :: rest)) with 0. cbn [Z.eqb negb].
  destruct (in_dec N.eq_dec rbrace rest) as [Hin|Hn].
  - destruct (last_occurrence rbrace rest Hin) as [a [b [-> Hb]]].
    assert (Et : lbrace :: ws ++ tab :: a ++ rbrace :: b
                 = (lbrace :: ws ++ tab :: a) ++ rbrace :: b).
    { simpl. f_equal. now rewrite <- app_assoc. }
    rewrite Et. rewrite (rfind_app rbrace _ b Hb).
    set (n := Z.of_nat (List.length (lbrace :: ws ++ tab :: a))).
    assert (Hn : 0 < n) by (unfold n; simpl List.length; lia).
    destruct (Z.eqb_spec n (-1)) as [E|_]; [lia|].
    apply Z.ltb_lt in Hn. rewrite Hn. cbn [negb andb].
    assert (Es : slice ((lbrace :: ws ++ tab :: a) ++ rbrace :: b) 0 (n + 1)
                 = (lbrace :: ws ++ tab :: a) ++ [rbrace]).
    { change (rbrace :: b) with ([rbrace] ++ b). rewrite app_assoc.
      replace (n + 1) with (Z.of_nat (List.length ((lbrace :: ws ++ tab :: a) ++ [rbrace])))
        by (unfold n; rewrite (length_app _ [rbrace]); simpl List.length; lia).
      apply slice_prefix. }
    rewrite Es.
    assert (Ep : try_parse ((lbrace :: ws ++ tab :: a) ++ [rbrace]) = PNone).
    { change ((lbrace :: ws ++ tab :: a) ++ [rbrace])
        with (lbrace :: (ws ++ tab :: a) ++ [rbrace]).
      rewrite <- app_assoc. apply (try_parse_tab ws _ Hws). }
    rewrite Ep. cbn [truthy]. cbv iota.
    apply repaired_tab_object. exact Hws.
  - assert (Hnr : ~ In rbrace (lbrace :: ws ++ tab :: rest)).
    { intros [H|H]; [discriminate H|].
      apply in_app_or in H as [H|[H|H]]; [|discriminate H | contradiction].
      now apply (json_blank_notin ws rbrace Hws). }
    rewrite (rfind_none rbrace _ Hnr). cbn [Z.eqb negb andb]. cbv iota.
    unfold slice_from. cbn [Z.to_nat skipn].
    apply unclosed_tab_object. exact Hws.
Qed.

Lemma tab_indented_object_is_not_parsed_witness :
  parse_grading_response no_float keep_text
    (lbrace :: u " " ++ tab :: jtext "'score': 8, 'is_correct': true }") (Fin 10)
  = Ok PNone.
Proof.
  apply (tab_indented_object_is_not_parsed no_float keep_text (u " ")
           (jtext "'score': 8, 'is_correct': true }") (Fin 10)).
  - repeat constructor.
  - vm_compute. intuition discriminate.
Defined.

(** ** Discovery with a Claude model *)

Lemma startswith_prefix (p s : str) :
  startswith p s = true -> exists rest, s = p ++ rest.
Proof.
  revert s. induction p as [|x p IH]; intros s H; [exists s; reflexivity|].
  destruct s as [|y s]; [discriminate|]. simpl in H.
  apply andb_true_iff in H as [Hx Hp]. apply N.eqb_eq in Hx. subst y.
  destruct (IH s Hp) as [rest ->]. now exists rest.
Qed.

(** X21.  [analyze_exam_structure] has no branch for the Claude models that
    [grade_with_model] can call: when the discovery is handed a configured
    model whose name starts with claude (the first selected provider), it
    reports the model as unsupported without any request, and with no
    question count the exam is graded as the ten questions "1" to "10". *)
Theorem claude_never_discovers :
  forall (float_of_str : str -> option pyfloat) (clean_text : str -> str)
         (exn_text : exn -> str) (repr_other : pyval -> str)
         (api_keys : dict str) (model_name : str) (env : structure_env)
         (text_scores : dict pyfloat),
    startswith (u "claude") model_name = true ->
    dict_mem model_name api_keys = true ->
    image_ok env = Ok tt ->
    analyze_exam_structure float_of_str clean_text exn_text api_keys
                           (Some model_name) env
    = Ok (structure_failure (u "不支持的模型: " ++ model_name))
    /\ questions_to_grade repr_other text_scores None
         (analyze_exam_structure float_of_str clean_text exn_text api_keys
                                 (Some model_name) env)
       = Ok ten_questions.
Proof.
  intros F C E R api_keys m env ts Hc Hm Himg.
  assert (Ha : analyze_exam_structure F C E api_keys (Some m) env
               = Ok (structure_failure (u "不支持的模型: " ++ m))).
  { destruct (startswith_prefix _ _ Hc) as [rest ->].
    unfold analyze_exam_structure.
    destruct (dict_keys api_keys) as [|first keys] eqn:Ek.
    - destruct api_keys; [discriminate Hm | discriminate Ek].
    - set (p := u "claude") in *. vm_compute in p. subst p. cbn [app] in Hm |- *.
      rewrite Hm. rewrite Himg. reflexivity. }
  split; [exact Ha|]. rewrite Ha. reflexivity.
Qed.

Lemma claude_never_discovers_witness :
  questions_to_grade some_repr [] None
    (analyze_exam_structure no_float keep_text some_text
       [ (u "claude", u "key-2") ] (Some (u "claude"))
       {| image_ok := Ok tt; s_reply := Reply (jtext "{'groups': []}") |})
  = Ok ten_questions.
Proof.
  apply (claude_never_discovers no_float keep_text some_text some_repr
           [ (u "claude", u "key-2") ] (u "claude")
           {| image_ok := Ok tt; s_reply := Reply (jtext "{'groups': []}") |} []);
    reflexivity.
Defined.

(** ** Credentials of the environment *)

Lemma keep_configured_keys (keys : dict (option str)) :
  incl (dict_keys (keep_configured keys)) (dict_keys keys).
Proof.
  intros k Hk. unfold dict_keys in *. apply in_map_iff in Hk as [[k' v] [<- Hin]].
  unfold keep_configured in Hin. apply in_flat_map in Hin as [[k0 o] [Hin Hx]].
  simpl in Hx. destruct o as [[|c s]|]; simpl in Hx; try contradiction.
  destruct Hx as [Hx|[]]. inversion Hx. subst.
  apply in_map_iff. eexists. split; [|eassumption]. reflexivity.
Qed.

Lemma dict_mem_keys {V : Type} (k : str) (d : dict V) :
  dict_mem k d = true -> In k (dict_keys d).
Proof.
  intros H. apply dict_mem_In in H as [v H].
  unfold dict_keys. apply in_map_iff. exists (k, v). now split.
Qed.

Lemma environment_keys (environ : dict str) :
  incl (dict_keys (init_api_keys [] environ)) environment_names.
Proof.
  unfold init_api_keys. intros k Hk. apply keep_configured_keys in Hk. exact Hk.
Qed.

Lemma filter_none {A : Type} (f : A -> bool) (l : list A) :
  (forall x, In x l -> f x = false) -> filter f l = [].
Proof.
  induction l as [|x l IH]; simpl; intros H; [reflexivity|].
  rewrite (H x) by now left. apply IH. intros y Hy. apply H. now right.
Qed.



(** ** A request that raises *)

(** X23.  What a configured provider's failed request gives depends on the
    family.  For Qwen, Claude and GLM the exception is reported in the
    result ("批改失败: ...") and the artifact is cleaned up.  The Gemini
    branch swallows it: the result is the one of an answer without JSON,
    the text of the exception is lost and the artifact stays. *)
Theorem failed_request_report :
  forall (float_of_str : str -> option pyfloat) (clean_text : str -> str)
         (exn_text : exn -> str) (api_keys : dict str) (model_name : str)
         (max_score : pyfloat) (env : call_env) (w : fs) (e : exn) (f : family),
    dict_mem model_name api_keys = true ->
    preprocess env = Ok tt ->
    family_of model_name = Some f ->
    reply env = CallRaises e ->
    grade_with_model float_of_str clean_text exn_text api_keys model_name max_score
                     env w
    = match f with
      | Gemini =>
        (failure_result (u "无法解析模型响应") (u "模型未返回有效的JSON格式结果"),
         write_temp w)
      | _ =>
        (failure_result (u "批改失败: " ++ exn_text e)
                        (u "模型调用异常: " ++ exn_text e),
         cleanup (removals env) (write_temp w))
      end.
Proof.
  intros F C E api_keys m max env w e f Hk Hp Hf Hr.
  unfold grade_with_model, grade_try. rewrite Hk, Hp, Hf, Hr.
  destruct f; reflexivity.
Qed.

Lemma failed_request_report_witness :
  grade_with_model no_float keep_text some_text gemini_only (u "gemini-3-pro")
                   (Fin 10) transport_error fs_init
  = (failure_result (u "无法解析模型响应") (u "模型未返回有效的JSON格式结果"),
     {| temp_exists := true; trace := [WriteTemp] |}).
Proof.
  apply (failed_request_report no_float keep_text some_text gemini_only
           (u "gemini-3-pro") (Fin 10) transport_error fs_init OSError Gemini);
    reflexivity.
Defined.

(** ** A run while no provider answers *)

Section Outage.

Variable float_of_str : str -> option pyfloat.
Variable clean_text : str -> str.
Variable exn_text : exn -> str.
Variable repr_other : pyval -> str.

Lemma raising_call_result api_keys model_name max env w e :
  reply env = CallRaises e ->
  exists error comment,
    fst (grade_with_model float_of_str clean_text exn_text api_keys model_name max
                          env w)
    = failure_result error comment.
Proof.
  intros Hr. unfold grade_with_model.
  destruct (dict_mem model_name api_keys); simpl; [|eauto].
  unfold grade_try. destruct (preprocess env); simpl; [|eauto].
  destruct (family_of model_name) as [f|]; simpl; [|eauto].
  rewrite Hr. destruct f; simpl; eauto.
Qed.

Lemma dict_set_values_Forall {V : Type} (P : V -> Prop) (k : str) (v : V) (d : dict V) :
  Forall P (dict_values d) -> P v -> Forall P (dict_values (dict_set k v d)).
Proof.
  intros Hd Hv. induction d as [|[k' v'] d IH]; simpl.
  - constructor; [exact Hv | constructor].
  - inversion Hd as [|? ? H1 H2]. subst.
    destruct (str_eqb k k'); simpl; constructor; auto.
Qed.

Lemma grade_one_raising api_keys max env model_name qr w e :
  reply env = CallRaises e ->
  Forall failed_entry (dict_values qr) ->
  exists qr' w',
    grade_one float_of_str clean_text exn_text api_keys max env model_name qr w
    = (Ok qr', w')
    /\ Forall failed_entry (dict_values qr').
Proof.
  intros Hr Hqr. unfold grade_one.
  destruct (raising_call_result api_keys model_name max env w e Hr)
    as [error [comment Hres]].
  destruct (grade_with_model float_of_str clean_text exn_text api_keys model_name max
                             env w) as [result w'].
  simpl in Hres. subst result.
  eexists. exists w'. split; [reflexivity|].
  apply dict_set_values_Forall; [exact Hqr|]. exists error. reflexivity.
Qed.

Lemma grade_models_raising api_keys max envs models :
  (forall j, exists e, reply (envs j) = CallRaises e) ->
  forall pos qr w,
    Forall failed_entry (dict_values qr) ->
    exists qr' w',
      grade_models float_of_str clean_text exn_text api_keys max envs models pos qr w
      = (Ok qr', w')
      /\ Forall failed_entry (dict_values qr').
Proof.
  intros Hout. induction models as [|m models IH]; intros pos qr w Hqr; simpl.
  - exists qr, w. now split.
  - destruct (Hout pos) as [e He].
    destruct (grade_one_raising api_keys max (envs pos) m qr w e He Hqr)
      as [qr1 [w1 [H1 Hq1]]].
    unfold bindM. rewrite H1. apply IH. exact Hq1.
Qed.

Lemma add_model_scores_failed (qr : dict (dict pyval)) :
  Forall failed_entry (dict_values qr) ->
  forall model_res, exists model_res', add_model_scores qr model_res = Ok model_res'.
Proof.
  unfold add_model_scores.
  induction qr as [|[k r] qr IH]; intros Hqr model_res; simpl.
  - eauto.
  - inversion Hqr as [|? ? [error ->] Hrest]. subst. simpl. apply IH. exact Hrest.
Qed.

Lemma grade_questions_raising api_keys models default_max w0 questions :
  (forall i j, exists e, reply (calls w0 i j) = CallRaises e) ->
  Forall (fun q => exists uid, unique_id_of q = Ok uid) questions ->
  forall index all_res model_res w,
    all_failed all_res ->
    exists index' all_res' model_res' w',
      for_eachM questions
        (grade_question float_of_str clean_text exn_text api_keys models default_max w0)
        (index, all_res, model_res) w
      = (Ok (index', all_res', model_res'), w')
      /\ all_failed all_res'.
Proof.
  intros Hout Hq. induction Hq as [|q questions [uid Hu] _ IH];
    intros index all_res model_res w Hall; simpl.
  - exists index, all_res, model_res, w. now split.
  - unfold bindM at 1. unfold grade_question. unfold bindM at 1. unfold liftM at 1.
    rewrite Hu.
    destruct (grade_models_raising api_keys
                (resolve_max_score float_of_str (get (u "score") q) default_max)
                (calls w0 index) models (Hout index) O [] w (Forall_nil _))
      as [qr [w1 [Hg Hqr]]].
    unfold bindM at 1. rewrite Hg.
    destruct (add_model_scores_failed qr Hqr model_res) as [mr Hmr].
    unfold bindM at 1. unfold liftM. rewrite Hmr. unfold retM.
    apply IH. apply dict_set_values_Forall; assumption.
Qed.


Lemma q_info_from (questions : list (dict pyval)) :
  forall (m : dict (dict pyval)) (k : str) (q : dict pyval),
    dict_get k (fold_left
                  (fun m q =>
                     match get (u "unique_id") q with
                     | PStr (c :: s) => dict_set (c :: s) q m
                     | _ => m
                     end) questions m) = Some q ->
    In q questions \/ dict_get k m = Some q.
Proof.
  induction questions as [|x questions IH]; intros m k q H; simpl in H; [now right|].
  apply IH in H as [H|H]; [left; now right|].
  destruct (get (u "unique_id") x) as [| | | |[|c s]| |]; try (now right).
  destruct (str_eqb k (c :: s)) eqn:Ek.
  - apply str_eqb_eq in Ek. subst k. rewrite dict_get_set_same in H.
    inversion H. left. now left.
  - apply str_eqb_neq in Ek. rewrite dict_get_set_other in H by exact Ek. now right.
Qed.

(** Numbered questions carry no point value of their own. *)
Lemma numbered_max_score (n : Z) (q_id : str) (default_max : pyfloat) :
  resolve_max_score float_of_str
    (get (u "score") match dict_get q_id (q_info_map (numbered_questions n)) with
                     | Some q => q
                     | None => []
                     end) default_max
  = default_max.
Proof.
  destruct (dict_get q_id (q_info_map (numbered_questions n))) as [q|] eqn:Eq;
    [|reflexivity].
  unfold q_info_map in Eq. apply q_info_from in Eq as [Hin|Hin]; [|discriminate].
  unfold numbered_questions in Hin. apply in_map_iff in Hin as [i [<- _]]. reflexivity.
Qed.

Lemma longest_comment_failed (results : list (dict pyval)) :
  Forall failed_entry results ->
  forall a, exists a', for_each results
                         (fun analysis r =>
                            let c := get (u "comment") r in
                            if truthy c then
                              lc <- py_len c ;;
                              la <- py_len analysis ;;
                              Ok (if (la <? lc)%nat then c else analysis)
                            else Ok analysis)
                         (PStr a) = Ok (PStr a').
Proof.
  induction 1 as [|r results [error ->] _ IH]; intros a; simpl; [eauto|].
  destruct error as [|c error]; simpl; [apply IH|].
  destruct (Nat.ltb _ _); [|apply IH].
  apply (IH (c :: error)).
Qed.

Lemma analysis_of_failed (results : list (dict pyval)) :
  Forall failed_entry results -> exists a, analysis_of results = Ok a.
Proof.
  intros H. unfold analysis_of.
  assert (Hf : first_analysis results = PStr []).
  { induction H as [|r results [error ->] _ IH]; simpl; [reflexivity | exact IH]. }
  rewrite Hf. simpl. unfold longest_comment.
  destruct (longest_comment_failed results H []) as [a' Ha]. eauto.
Qed.

Lemma final_score_failed (results : list (dict pyval)) (m : Q) :
  Forall failed_entry results ->
  exists f, final_score_of (map (get (u "score")) results) (Fin m) = Ok (Fin f)
            /\ (f == 0)%Q.
Proof.
  intros H. destruct results as [|r results].
  - exists 0%Q. split; reflexivity.
  - apply (final_score_all_zero _ (map (fun _ => 0%Q) (r :: results))).
    + discriminate.
    + induction H as [|r' rs [error ->] _ IH]; simpl; constructor;
        [reflexivity | exact IH].
    + apply Forall_map. apply Forall_forall. intros. reflexivity.
Qed.

Lemma combine_question_failed info default_max q_id qr (m : Q) :
  Forall failed_entry (dict_values qr) ->
  resolve_max_score float_of_str
    (get (u "score") match dict_get q_id info with Some q => q | None => [] end)
    default_max = Fin m ->
  (0 < m)%Q ->
  exists d, combine_question float_of_str info default_max q_id qr = Ok d
            /\ zero_detail m d.
Proof.
  intros Hqr Hmax Hm. unfold combine_question. rewrite Hmax.
  rewrite scores_of_all.
  2:{ eapply Forall_impl; [|exact Hqr]. intros r [error ->]. reflexivity. }
  simpl bind.
  destruct (final_score_failed (dict_values qr) m Hqr) as [f [Hf Hz]].
  rewrite Hf. simpl bind.
  destruct (analysis_of_failed (dict_values qr) Hqr) as [a Ha].
  rewrite Ha. simpl bind.
  destruct (split_unique_id q_id) as [g s].
  eexists. split; [reflexivity|].
  assert (H6 : Qle_bool (m * (6 # 10)) f = false).
  { destruct (Qle_bool (m * (6 # 10)) f) eqn:Eb; [|reflexivity].
    apply Qle_bool_iff in Eb. lra. }
  assert (H5 : Qle_bool (m * (5 # 10)) f = false).
  { destruct (Qle_bool (m * (5 # 10)) f) eqn:Eb; [|reflexivity].
    apply Qle_bool_iff in Eb. lra. }
  assert (H0 : Qle_bool f 0 = true) by (apply Qle_bool_iff; lra).
  unfold zero_detail. cbn [score max_score is_correct comment].
  split; [exists f; now split|]. split; [reflexivity|].
  unfold comment_of, is_correct_of, pf_mul, pf_leb, pf_ltb, pf_zero, Qltb.
  rewrite H6, H5. change (0 # 1)%Q with 0%Q. rewrite H0. now split.
Qed.

Lemma combine_loop_failed info default_max (m : Q) (all_res : dict (dict (dict pyval))) :
  (forall q_id,
      resolve_max_score float_of_str
        (get (u "score") match dict_get q_id info with Some q => q | None => [] end)
        default_max = Fin m) ->
  (0 < m)%Q ->
  all_failed all_res ->
  forall fr0 t0 mt0,
    Forall (zero_detail m) (dict_values fr0) -> (t0 == 0)%Q -> (0 <= mt0)%Q ->
    exists fr t mt,
      for_each all_res (combine_step float_of_str info default_max)
               (fr0, Fin t0, Fin mt0) = Ok (fr, Fin t, Fin mt)
      /\ Forall (zero_detail m) (dict_values fr) /\ (t == 0)%Q /\ (0 <= mt)%Q.
Proof.
  intros Hmax Hm Hall. unfold all_failed in Hall.
  induction all_res as [|[k qr] all_res IH]; intros fr0 t0 mt0 Hfr Ht Hmt; simpl.
  - exists fr0, t0, mt0. auto.
  - inversion Hall as [|? ? Hqr Hrest]. subst.
    destruct (combine_question_failed info default_max k qr m Hqr (Hmax k) Hm)
      as [d [Hd Hz]].
    unfold combine_step at 1. cbn [fst snd]. rewrite Hd. simpl bind.
    destruct Hz as [[s [Hs Hs0]] [Hdm [Hc Hcm]]]. rewrite Hs, Hdm. simpl pf_add.
    apply IH; [exact Hrest | | lra | lra].
    apply dict_set_values_Forall; [exact Hfr|].
    split; [exists s; now split|]. auto.
Qed.

Lemma filter_correct_none (m : Q) (ds : list detail) :
  Forall (zero_detail m) ds -> filter is_correct ds = [].
Proof.
  intros H. apply filter_none. intros d Hd.
  rewrite Forall_forall in H. now destruct (H d Hd) as [_ [_ [Hc _]]].
Qed.

Lemma combine_results_failed questions default_max (m : Q)
      (all_res : dict (dict (dict pyval))) :
  (forall q_id,
      resolve_max_score float_of_str
        (get (u "score") match dict_get q_id (q_info_map questions) with
                         | Some q => q
                         | None => []
                         end)
        default_max = Fin m) ->
  (0 < m)%Q ->
  all_failed all_res ->
  exists report,
    combine_results_v2 float_of_str all_res questions default_max = Ok report
    /\ Forall (zero_detail m) (dict_values (details report))
    /\ is_zero (total_score report)
    /\ is_zero (accuracy report)
    /\ correct_count report = O.
Proof.
  intros Hmax Hm Hall. unfold combine_results_v2.
  destruct (combine_loop_failed (q_info_map questions) default_max m all_res Hmax Hm
              Hall [] 0%Q 0%Q) as [fr [t [mt [Hloop [Hfr [Ht Hmt]]]]]];
    [constructor | reflexivity | lra |].
  cbv zeta. unfold pf_zero. change (0 # 1)%Q with 0%Q.
  unfold dict in Hloop |- *. rewrite Hloop. simpl bind.
  assert (Hacc : exists a,
             (if Qltb 0 mt
              then if Qeq_bool mt 0 then Raise ZeroDivisionError
                   else Ok (Fin (t / mt)%Q)
              else Ok (Fin 0%Q)) = Ok (Fin a) /\ (a == 0)%Q).
  { destruct (Qltb 0 mt) eqn:Eb.
    - apply Qltb_lt in Eb.
      destruct (Qeq_bool mt 0) eqn:Eq; [apply Qeq_bool_eq in Eq; lra|].
      exists (t / mt)%Q. split; [reflexivity|]. rewrite Ht. unfold Qdiv. lra.
    - exists 0%Q. split; reflexivity. }
  destruct Hacc as [a [Ha Ha0]]. rewrite Ha. simpl bind.
  eexists. split; [reflexivity|]. cbn [details total_score accuracy correct_count].
  split; [exact Hfr|]. split; [exists t; now split|]. split; [exists a; now split|].
  now rewrite (filter_correct_none m).
Qed.

Lemma set_boxes_zero (m : Q) (questions : list (dict pyval)) (report : exam_report) :
  Forall (zero_detail m) (dict_values (details report)) ->
  Forall (zero_detail m) (dict_values (details (set_boxes questions report))).
Proof.
  unfold set_boxes. cbn [details]. generalize (details report) as ds.
  induction questions as [|q questions IH]; intros ds Hds; simpl; [exact Hds|].
  apply IH.
  destruct (get (u "unique_id") q) as [| | | |uid| |]; try exact Hds.
  destruct (dict_get uid ds) as [d|] eqn:Ed; [|exact Hds].
  apply dict_set_values_Forall; [exact Hds|].
  assert (Hd : zero_detail m d).
  { apply dict_get_In in Ed. rewrite Forall_forall in Hds. apply Hds.
    unfold dict_values. apply in_map_iff. exists (uid, d). now split. }
  exact Hd.
Qed.

End Outage.

(** X24.  While no provider answers, a run with a given question count and a
    positive maximum score does not fail: whatever the providers' families,
    every request that raises is stored as a score of 0, and the run returns
    a report in which every question has the score 0, is not correct and
    carries the comment "错误", with total score 0, accuracy 0 and no
    correct question.  The texts of the errors are kept in the providers'
    entries only. *)
Theorem outage_gives_a_zero_report :
  forall (float_of_str : str -> option pyfloat) (clean_text : str -> str)
         (exn_text : exn -> str) (repr_other : pyval -> str)
         (api_keys : dict str) (n : Z) (max_score : option pyfloat)
         (selected_models : list str) (text_scores : dict pyfloat) (w0 : world)
         (w : fs) (m : Q) (marked : str),
    available_models api_keys selected_models <> [] ->
    (forall i j, exists e, reply (calls w0 i j) = CallRaises e) ->
    match max_score with Some x => x | None => pf_of_Z 10 end = Fin m ->
    (0 < m)%Q ->
    marked_image w0 = Ok marked ->
    exists r w',
      grade_exam_with_multiple_models float_of_str clean_text exn_text repr_other
        api_keys (Some n) max_score selected_models text_scores w0 w
      = (Ok (Graded r), w')
      /\ all_failed (all_results r)
      /\ Forall (zero_detail m) (dict_values (details (final_results r)))
      /\ is_zero (total_score (final_results r))
      /\ is_zero (accuracy (final_results r))
      /\ correct_count (final_results r) = O.
Proof.
  intros F C E R api_keys n ms sel ts w0 w m marked Hav Hout Hmax Hm Hmarked.
  unfold grade_exam_with_multiple_models.
  destruct (available_models api_keys sel) as [|first rest] eqn:Emodels;
    [contradiction|].
  unfold questions_to_grade. unfold bindM at 1. unfold liftM at 1.
  rewrite Hmax.
  destruct (grade_questions_raising F C E api_keys (first :: rest) (Fin m) w0
              (numbered_questions n) Hout) with (index := O) (all_res := @nil (str * dict (dict pyval)))
              (model_res := @nil (str * pyfloat)) (w := w)
    as [index' [all_res' [mr' [w' [Hloop Hall]]]]].
  { unfold numbered_questions. apply Forall_map. apply Forall_forall.
    intros i _. eexists. reflexivity. }
  { constructor. }
  unfold bindM at 1. unfold dict in Hloop |- *. rewrite Hloop.
  destruct (combine_results_failed F (numbered_questions n) (Fin m) m all_res')
    as [report [Hc [Hz [Ht [Ha Hcc]]]]];
    [intros q_id; apply numbered_max_score | exact Hm | exact Hall |].
  unfold bindM at 1. unfold liftM at 1. rewrite Hc.
  unfold bindM at 1. unfold liftM at 1. rewrite Hmarked. unfold retM.
  eexists. exists w'. split; [reflexivity|].
  cbn [all_results final_results].
  split; [exact Hall|]. split; [now apply set_boxes_zero|].
  unfold set_boxes. cbn [total_score accuracy correct_count]. auto.
Qed.

Lemma outage_gives_a_zero_report_witness :
  exists r w',
    grade_exam_with_multiple_models no_float keep_text some_text some_repr
      (init_api_keys [] dashscope_only) (Some 2) None [] [] outage_world fs_init
    = (Ok (Graded r), w')
    /\ correct_count (final_results r) = O.
Proof.
  destruct (outage_gives_a_zero_report no_float keep_text some_text some_repr
              (init_api_keys [] dashscope_only) 2 None [] [] outage_world fs_init
              10%Q (u "marked.jpg"))
    as [r [w' [H [_ [_ [_ [_ Hc]]]]]]].
  - vm_compute. discriminate.
  - intros i j. exists OSError. reflexivity.
  - reflexivity.
  - reflexivity.
  - reflexivity.
  - exists r, w'. split; assumption.
Defined.

(** ** The providers' totals *)

Lemma add_model_scores_spec (qr : dict (dict pyval)) :
  forall model_res model_res',
    NoDup (dict_keys qr) ->
    add_model_scores qr model_res = Ok model_res' ->
    (forall k, In k (dict_keys qr) ->
               dict_get k model_res'
               = Some (pf_add (total_so_far k model_res) (entry_score k qr)))
    /\ (forall k, ~ In k (dict_keys qr) -> dict_get k model_res' = dict_get k model_res).
Proof.
  unfold add_model_scores.
  induction qr as [|[k e] qr IH]; intros mr mr' Hnd H; simpl in H.
  - inversion H. subst. split; [intros k []|reflexivity].
  - bind_inv H. cbn [fst snd] in Ha.
    destruct (num_of (get_default (u "score") (PInt 0) e)) as [f|] eqn:Ef;
      [|discriminate].
    inversion Ha. subst a. clear Ha.
    inversion Hnd as [|? ? Hk Hnd']. subst.
    destruct (IH _ _ Hnd' H) as [Hin Hout].
    split.
    + intros k' Hk'. simpl in Hk'. destruct Hk' as [<-|Hk'].
      * rewrite (Hout k Hk). rewrite dict_get_set_same.
        unfold entry_score, total_so_far. simpl. rewrite str_eqb_refl, Ef. reflexivity.
      * assert (Hne : k' <> k) by (intros ->; contradiction).
        rewrite (Hin k' Hk'). unfold entry_score, total_so_far. simpl.
        rewrite dict_get_set_other by exact Hne.
        destruct (str_eqb k' k) eqn:Ek; [apply str_eqb_eq in Ek; contradiction|].
        reflexivity.
    + intros k' Hk'. simpl in Hk'.
      assert (Hne : k' <> k) by (intros ->; apply Hk'; now left).
      rewrite Hout by (intros Hx; apply Hk'; now right).
      now apply dict_get_set_other.
Qed.

Lemma pf_sum_app (l : list pyfloat) (x : pyfloat) :
  pf_sum (l ++ [x]) = pf_add (pf_sum l) x.
Proof. unfold pf_sum. now rewrite fold_left_app. Qed.

Section Totals.

Variable float_of_str : str -> option pyfloat.
Variable clean_text : str -> str.
Variable exn_text : exn -> str.

Lemma grade_questions_totals api_keys models default_max w0 questions :
  NoDup models ->
  forall uids index all_res model_res w index' all_res' model_res' w',
    Forall2 (fun q uid => unique_id_of q = Ok uid) questions uids ->
    NoDup (dict_keys all_res ++ uids) ->
    totals_agree models all_res model_res ->
    for_eachM questions
      (grade_question float_of_str clean_text exn_text api_keys models default_max w0)
      (index, all_res, model_res) w = (Ok (index', all_res', model_res'), w') ->
    totals_agree models all_res' model_res'
    /\ (all_res <> [] \/ questions <> [] -> all_res' <> []).
Proof.
  intros Hmodels uids index all_res model_res w index' all_res' model_res' w' HF.
  revert index all_res model_res w.
  induction HF as [|q uid questions uids Hu HF IH];
    intros index all_res model_res w Hnd Hagree H.
  - simpl in H. unfold retM in H. inversion H. subst. split; [exact Hagree|].
    intros [Hx|Hx]; [exact Hx | now contradiction Hx].
  - simpl in H. apply bindM_Ok in H as [[[i1 a1] m1] [w1 [Hq H]]].
    unfold grade_question in Hq.
    apply bindM_Ok in Hq as [uid' [w2 [Hu' Hq]]].
    apply bindM_Ok in Hq as [qr [w3 [Hg Hq]]].
    apply bindM_Ok in Hq as [mr [w4 [Hm Hq]]].
    unfold retM in Hq. inversion Hq. subst i1 a1 m1 w4. clear Hq.
    unfold liftM in Hu', Hm. inversion Hu' as [[Hu'' Hw2]]. inversion Hm as [[Hm' Hw3]].
    rewrite Hu in Hu''. inversion Hu''. subst uid' w2. clear Hu' Hu'' Hm.
    apply grade_models_entries in Hg; [|simpl; exact Hmodels].
    destruct Hg as [Hqr _]. simpl in Hqr.
    assert (Hkeys : dict_keys qr = models).
    { rewrite Hqr. unfold dict_keys. rewrite map_map. simpl. apply map_snd_indexed. }
    assert (Hfresh : ~ In uid (dict_keys all_res)).
    { intros Hin. apply NoDup_remove_2 in Hnd. apply Hnd. apply in_or_app. now left. }
    destruct (add_model_scores_spec qr model_res mr) as [Hin Hout];
      [rewrite Hkeys; exact Hmodels | exact Hm' |].
    rewrite Hkeys in Hin, Hout.
    assert (Hagree' : totals_agree models (dict_set uid qr all_res) mr).
    { destruct Hagree as [A1 [A2 A3]].
      rewrite (dict_set_fresh uid qr all_res Hfresh).
      split; [|split].
      - intros m Hm. unfold total_so_far at 1. rewrite (Hin m Hm).
        unfold provider_total. rewrite map_app. simpl. rewrite pf_sum_app.
        f_equal. apply A1. exact Hm.
      - intros _ m Hm. rewrite (Hin m Hm). discriminate.
      - intros k Hk. rewrite (Hout k Hk). apply A3. exact Hk. }
    apply IH in H; [| |exact Hagree'].
    + destruct H as [H1 H2]. split; [exact H1|]. intros _.
      apply H2. left. apply dict_set_not_nil.
    + rewrite (dict_set_keys_fresh uid qr all_res Hfresh). rewrite <- app_assoc.
      exact Hnd.
Qed.

End Totals.

(** X25.  In the report of a run over [n >= 1] numbered questions with
    distinct providers, [model_results] has exactly the providers as keys,
    and a provider's total is the sum, over the questions in their order, of
    the scores stored for it in [all_results]: the returned score where its
    call succeeded and 0 where it failed. *)
Theorem provider_totals_match_the_entries :
  forall (float_of_str : str -> option pyfloat) (clean_text : str -> str)
         (exn_text : exn -> str) (repr_other : pyval -> str)
         (api_keys : dict str) (n : Z) (max_score : option pyfloat)
         (selected_models : list str) (text_scores : dict pyfloat) (w0 : world)
         (w w' : fs) (r : grading_report),
    1 <= n ->
    NoDup (available_models api_keys selected_models) ->
    grade_exam_with_multiple_models float_of_str clean_text exn_text repr_other
      api_keys (Some n) max_score selected_models text_scores w0 w
    = (Ok (Graded r), w') ->
    (forall m, In m (available_models api_keys selected_models) ->
               dict_get m (model_results r) = Some (provider_total m (all_results r)))
    /\ (forall k, ~ In k (available_models api_keys selected_models) ->
                  dict_get k (model_results r) = None).
Proof.
  intros F C E R api_keys n ms sel ts w0 w w' r Hn Hnd H.
  unfold grade_exam_with_multiple_models in H.
  destruct (available_models api_keys sel) as [|first rest] eqn:Emodels;
    [unfold retM in H; discriminate|].
  apply bindM_Ok in H as [questions [w1 [Hq H]]].
  apply bindM_Ok in H as [[[index all_res] model_res] [w2 [Hloop H]]].
  apply bindM_Ok in H as [combined [w3 [Hc H]]].
  apply bindM_Ok in H as [marked [w4 [Hm H]]].
  unfold retM in H. inversion H. subst r. clear H. cbn [all_results model_results].
  unfold liftM in Hq. simpl in Hq. inversion Hq. subst questions w1. clear Hq.
  destruct (grade_questions_totals F C E api_keys (first :: rest)
              match ms with Some m => m | None => pf_of_Z 10 end w0
              (numbered_questions n) Hnd (map str_of_Z (py_range 1 (n + 1)))
              O [] [] w index all_res model_res w2) as [[A1 [A2 A3]] Hne].
  - apply numbered_questions_ids.
  - simpl. apply NoDup_map_inj; [apply str_of_Z_inj | apply py_range_NoDup].
  - split; [reflexivity|]. split; [intros Hx; now contradiction Hx | reflexivity].
  - exact Hloop.
  - assert (Hres : all_res <> []).
    { apply Hne. right. unfold numbered_questions, py_range.
      replace (Z.to_nat (n + 1 - 1)) with (S (Z.to_nat (n - 1))) by lia.
      simpl. discriminate. }
    split; [|exact A3].
    intros m Hin. specialize (A1 m Hin). specialize (A2 Hres m Hin).
    unfold total_so_far in A1. destruct (dict_get m model_res); [|contradiction].
    now rewrite A1.
Qed.

Lemma provider_totals_match_the_entries_witness :
  dict_get (u "qwen-vl-max") (model_results one_question_run)
  = Some (provider_total (u "qwen-vl-max") (all_results one_question_run)).
Proof.
  destruct (provider_totals_match_the_entries no_float keep_text some_text some_repr
              (init_api_keys [] dashscope_only) 1 (Some (Fin 10)) [] []
              full_marks_world fs_init
              {| temp_exists := true; trace := [WriteTemp] |} one_question_run)
    as [H _].
  - lia.
  - vm_compute. constructor; [intros [] | constructor].
  - vm_compute. reflexivity.
  - apply H. vm_compute. now left.
Defined.

(** ** The order of the questions in the Word report *)

Lemma rsplit1_last (c : char) (g i : str) :
  ~ In c i -> rsplit1 c (g ++ c :: i) = [g; i].
Proof.
  intros Hn. unfold rsplit1.
  rewrite (rfind_app c g i Hn).
  destruct (Z.eqb_spec (Z.of_nat (List.length g)) (-1)) as [Eq|_]; [lia|].
  rewrite slice_prefix.
  replace (Z.of_nat (List.length g) + 1) with (Z.of_nat (List.length (g ++ [c])))
    by (rewrite length_app; simpl; lia).
  change (g ++ c :: i) with (g ++ [c] ++ i). rewrite app_assoc.
  now rewrite slice_from_app.
Qed.

Lemma first_weight_range (f : str * Z -> bool) (l : list (str * Z)) :
  Forall (fun kw => 1 <= snd kw <= 999) l ->
  1 <= match List.find f l with Some kw => snd kw | None => 999 end <= 999.
Proof.
  induction 1 as [|kw l Hkw _ IH]; simpl; [lia|].
  destruct (f kw); [exact Hkw | exact IH].
Qed.

Lemma group_weight_range (g : str) : 1 <= group_weight g <= 999.
Proof.
  unfold group_weight. apply first_weight_range.
  unfold group_weights. repeat constructor; simpl; lia.
Qed.

Section ReportOrderFacts.

Variable int_of_str : str -> option Z.

Lemma sort_key_dashed (g i : str) :
  ~ In dash i ->
  sort_key int_of_str (g ++ dash :: i)
  = (pf_of_Z (group_weight g), g,
     match int_of_str i with Some z => pf_of_Z z | None => PInf end).
Proof.
  intros Hn. unfold sort_key. fold dash.
  assert (Hc : contains [dash] (g ++ dash :: i) = true).
  { apply contains_single. apply in_or_app. right. now left. }
  rewrite Hc, (rsplit1_last dash g i Hn). reflexivity.
Qed.

Lemma sort_key_dash (k : str) :
  In dash k ->
  exists g w n, sort_key int_of_str k = (Fin (inject_Z w), g, n) /\ 1 <= w <= 999.
Proof.
  intros Hin. destruct (last_occurrence dash k Hin) as [g [i [-> Hi]]].
  rewrite (sort_key_dashed g i Hi).
  exists g, (group_weight g). eexists. split; [reflexivity | apply group_weight_range].
Qed.

End ReportOrderFacts.

Lemma inject_Z_ltb (x y : Z) : Qltb (inject_Z x) (inject_Z y) = (x <? y).
Proof.
  unfold Qltb. destruct (Z.ltb_spec x y) as [H|H].
  - destruct (Qle_bool (inject_Z y) (inject_Z x)) eqn:Eb; [|reflexivity].
    apply Qle_bool_iff in Eb. rewrite <- Zle_Qle in Eb. lia.
  - assert (Hq : Qle_bool (inject_Z y) (inject_Z x) = true).
    { apply Qle_bool_iff. rewrite <- Zle_Qle. exact H. }
    now rewrite Hq.
Qed.

Lemma inject_Z_eqb (x y : Z) : Qeq_bool (inject_Z x) (inject_Z y) = (x =? y).
Proof.
  destruct (Z.eqb_spec x y) as [->|H].
  - apply Qeq_bool_iff. reflexivity.
  - destruct (Qeq_bool (inject_Z x) (inject_Z y)) eqn:Eb; [|reflexivity].
    apply Qeq_bool_iff in Eb. unfold Qeq in Eb. simpl in Eb. lia.
Qed.

(** X26.  The Word report lists the questions by [sort_key].  Within one
    section the questions follow their numbers as integers, not as text;
    a key without a dash that is a number comes before every key with a
    dash, and one that is no number after every key with a dash; and the
    weight of a section is that of the first key of [group_weights] its name
    contains, so a section whose name contains "一" (as "十一" does) comes
    before a section named with "二" only. *)
Theorem report_order :
  forall (int_of_str : str -> option Z),
    (forall g a b x y,
        ~ In dash a -> ~ In dash b ->
        int_of_str a = Some x -> int_of_str b = Some y ->
        key_ltb (sort_key int_of_str (g ++ dash :: a))
                (sort_key int_of_str (g ++ dash :: b)) = (x <? y))
    /\ (forall k k' x,
           ~ In dash k -> int_of_str k = Some x -> In dash k' ->
           key_ltb (sort_key int_of_str k) (sort_key int_of_str k') = true
           /\ key_ltb (sort_key int_of_str k') (sort_key int_of_str k) = false)
    /\ (forall k k',
           ~ In dash k -> int_of_str k = None -> In dash k' ->
           key_ltb (sort_key int_of_str k') (sort_key int_of_str k) = true
           /\ key_ltb (sort_key int_of_str k) (sort_key int_of_str k') = false)
    /\ (forall g1 g2 a b,
           contains (u "一") g1 = true ->
           contains (u "一") g2 = false -> contains (u "二") g2 = true ->
           ~ In dash a -> ~ In dash b ->
           key_ltb (sort_key int_of_str (g1 ++ dash :: a))
                   (sort_key int_of_str (g2 ++ dash :: b)) = true).
Proof.
  intros I. split; [|split; [|split]].
  - intros g a b x y Ha Hb Hx Hy.
    rewrite (sort_key_dashed I g a Ha), (sort_key_dashed I g b Hb), Hx, Hy.
    unfold key_ltb, pf_of_Z, pf_eqb, pf_ltb.
    rewrite inject_Z_eqb, Z.eqb_refl, str_eqb_refl. simpl. apply inject_Z_ltb.
  - intros k k' x Hk Hx Hk'.
    destruct (sort_key_dash I k' Hk') as [g [w [n [-> Hw]]]].
    unfold sort_key. fold dash. rewrite (contains_single_false dash k Hk), Hx.
    unfold key_ltb, pf_zero, pf_eqb, pf_ltb.
    change (0 # 1)%Q with (inject_Z 0).
    rewrite !inject_Z_eqb, !inject_Z_ltb.
    destruct (Z.eqb_spec 0 w); [lia|]. destruct (Z.eqb_spec w 0); [lia|]. simpl.
    split; [apply Z.ltb_lt | apply Z.ltb_ge]; lia.
  - intros k k' Hk Hx Hk'.
    destruct (sort_key_dash I k' Hk') as [g [w [n [-> Hw]]]].
    unfold sort_key. fold dash. rewrite (contains_single_false dash k Hk), Hx.
    split; reflexivity.
  - intros g1 g2 a b H1 H2 H3 Ha Hb.
    rewrite (sort_key_dashed I g1 a Ha), (sort_key_dashed I g2 b Hb).
    assert (W1 : group_weight g1 = 1).
    { unfold group_weight, group_weights. cbn [List.find fst snd]. now rewrite H1. }
    assert (W2 : group_weight g2 = 2).
    { unfold group_weight, group_weights. cbn [List.find fst snd]. now rewrite H2, H3. }
    rewrite W1, W2. reflexivity.
Qed.

Lemma report_order_witness :
  key_ltb (sort_key digits_int (u "一、填空题-2"))
          (sort_key digits_int (u "一、填空题-10")) = true.
Proof.
  destruct (report_order digits_int) as [H _].
  change (u "一、填空题-2") with (u "一、填空题" ++ dash :: u "2").
  change (u "一、填空题-10") with (u "一、填空题" ++ dash :: u "10").
  rewrite (H (u "一、填空题") (u "2") (u "10") 2 10).
  - reflexivity.
  - intros Hin. vm_compute in Hin. intuition discriminate.
  - intros Hin. vm_compute in Hin. intuition discriminate.
  - vm_compute. reflexivity.
  - vm_compute. reflexivity.
Defined.

(** ** The analysis shown for a question *)

Lemma first_analysis_found (pre post : list (dict pyval)) (r : dict pyval) :
  Forall no_analysis pre -> truthy (get (u "analysis") r) = true ->
  first_analysis (pre ++ r :: post) = get (u "analysis") r.
Proof.
  intros Hpre Hr. induction Hpre as [|x pre Hx _ IH]; simpl.
  - now rewrite Hr.
  - unfold no_analysis in Hx. now rewrite Hx.
Qed.

Lemma first_analysis_none (results : list (dict pyval)) :
  Forall no_analysis results -> first_analysis results = PStr [].
Proof.
  induction 1 as [|x results Hx _ IH]; simpl; [reflexivity|].
  unfold no_analysis in Hx. now rewrite Hx.
Qed.

Lemma comment_text_falsy (r : dict pyval) :
  truthy (get (u "comment") r) = false -> comment_text r = [].
Proof.
  unfold comment_text. destruct (get (u "comment") r) as [| | | |[|c s]| |];
    try reflexivity. discriminate.
Qed.

(** The loop that looks for the longest comment, from any text so far. *)
Lemma longest_comment_from (results : list (dict pyval)) :
  Forall text_comment results ->
  forall a0,
  exists a,
    for_each results
      (fun analysis r =>
         let c := get (u "comment") r in
         if truthy c then
           lc <- py_len c ;;
           la <- py_len analysis ;;
           Ok (if (la <? lc)%nat then c else analysis)
         else Ok analysis)
      (PStr a0) = Ok (PStr a)
    /\ (List.length a0 <= List.length a)%nat
    /\ Forall (fun r => List.length (comment_text r) <= List.length a)%nat results
    /\ (a = a0
        \/ exists pre r post,
             results = pre ++ r :: post
             /\ get (u "comment") r = PStr a
             /\ (List.length a0 < List.length a)%nat
             /\ Forall (fun r' => List.length (comment_text r') < List.length a)%nat
                       pre).
Proof.
  induction 1 as [|r results Hr _ IH]; intros a0.
  - exists a0. simpl. repeat split; auto.
  - cbn [for_each]. cbv zeta.
    destruct (truthy (get (u "comment") r)) eqn:Ht.
    + destruct (Hr Ht) as [c Hc]. rewrite Hc. cbn [py_len bind].
      assert (Hct : comment_text r = c) by (unfold comment_text; now rewrite Hc).
      destruct (Nat.ltb_spec (List.length a0) (List.length c)) as [Hlt|Hge].
      * destruct (IH c) as [a [Hrun [Hle [Hall Hwho]]]].
        exists a. split; [exact Hrun|]. split; [lia|].
        split; [constructor; [rewrite Hct; exact Hle | exact Hall]|].
        right. destruct Hwho as [->|[pre [r' [post [-> [Hc' [Hlt' Hpre]]]]]]].
        -- exists [], r, results. repeat split; auto.
        -- exists (r :: pre), r', post. repeat split; auto; [lia|].
           constructor; [rewrite Hct; lia | exact Hpre].
      * destruct (IH a0) as [a [Hrun [Hle [Hall Hwho]]]].
        exists a. split; [exact Hrun|]. split; [exact Hle|].
        split; [constructor; [rewrite Hct; lia | exact Hall]|].
        destruct Hwho as [->|[pre [r' [post [-> [Hc' [Hlt' Hpre]]]]]]];
          [now left|].
        right. exists (r :: pre), r', post. repeat split; auto.
        constructor; [rewrite Hct; lia | exact Hpre].
    + cbn [bind].
      destruct (IH a0) as [a [Hrun [Hle [Hall Hwho]]]].
      exists a. split; [exact Hrun|]. split; [exact Hle|].
      split; [constructor; [rewrite (comment_text_falsy r Ht); simpl; lia | exact Hall]|].
      destruct Hwho as [->|[pre [r' [post [-> [Hc' [Hlt' Hpre]]]]]]];
        [now left|].
      right. exists (r :: pre), r', post. repeat split; auto.
      constructor; [rewrite (comment_text_falsy r Ht); simpl; lia | exact Hpre].
Qed.

(** X27.  The analysis shown for a question is the analysis of the first
    provider that gives one.  When no provider gives one and the comments
    are texts, it is the longest comment, the one of the earliest provider
    among the longest, and the empty text when there is no comment. *)
Theorem analysis_is_first_or_longest_comment :
  forall (results : list (dict pyval)),
    (forall pre r post,
        results = pre ++ r :: post ->
        Forall no_analysis pre -> truthy (get (u "analysis") r) = true ->
        analysis_of results = Ok (get (u "analysis") r))
    /\ (Forall no_analysis results -> Forall text_comment results ->
        exists a,
          analysis_of results = Ok (PStr a)
          /\ Forall (fun r => List.length (comment_text r) <= List.length a)%nat results
          /\ (a = []
              \/ exists pre r post,
                   results = pre ++ r :: post
                   /\ get (u "comment") r = PStr a
                   /\ Forall (fun r' => List.length (comment_text r') < List.length a)%nat
                             pre)).
Proof.
  intros results. split.
  - intros pre r post -> Hpre Hr. unfold analysis_of.
    rewrite (first_analysis_found pre post r Hpre Hr). now rewrite Hr.
  - intros Hno Htext. unfold analysis_of.
    rewrite (first_analysis_none results Hno). cbn [truthy]. unfold longest_comment.
    destruct (longest_comment_from results Htext []) as [a [Hrun [_ [Hall Hwho]]]].
    exists a. split; [exact Hrun|]. split; [exact Hall|].
    destruct Hwho as [->|[pre [r [post [-> [Hc [_ Hpre]]]]]]]; [now left|].
    right. exists pre, r, post. auto.
Qed.

Lemma analysis_is_first_or_longest_comment_witness :
  analysis_of sample_entries = Ok (PStr (u "good")).
Proof.
  destruct (analysis_is_first_or_longest_comment sample_entries) as [_ H].
  destruct H as [a [Ha _]].
  - repeat constructor.
  - repeat constructor; intros _; eexists; reflexivity.
  - rewrite Ha. vm_compute in Ha. inversion Ha. reflexivity.
Defined.

(** ** A comment that is a number *)

Lemma for_each_steps {A S : Type} (body : S -> A -> res S) (l : list A) :
  forall s s', for_each l body s = Ok s' ->
               forall x, In x l -> exists s1 s2, body s1 x = Ok s2.
Proof.
  induction l as [|y l IH]; intros s s' H x Hx; [contradiction|].
  simpl in H. bind_inv H. destruct Hx as [->|Hx]; [eauto|].
  eapply IH; eassumption.
Qed.

Lemma longest_comment_lengths (results : list (dict pyval)) :
  forall a0 a,
    for_each results
      (fun analysis r =>
         let c := get (u "comment") r in
         if truthy c then
           lc <- py_len c ;;
           la <- py_len analysis ;;
           Ok (if (la <? lc)%nat then c else analysis)
         else Ok analysis)
      a0 = Ok a ->
    forall r, In r results -> truthy (get (u "comment") r) = true ->
              exists n, py_len (get (u "comment") r) = Ok n.
Proof.
  intros a0 a H r Hr Ht.
  destruct (for_each_steps _ results a0 a H r Hr) as [s1 [s2 Hstep]].
  cbv zeta in Hstep. rewrite Ht in Hstep. bind_inv Hstep. eauto.
Qed.

Lemma process_result_keeps_comment (float_of_str : str -> option pyfloat)
      (clean_text : str -> str) (max_score : pyfloat) (r : pyval) (d' : dict pyval) :
  process_result float_of_str clean_text max_score r = Ok (PDict d') ->
  exists d, r = PDict d /\ get (u "comment") d' = get (u "comment") d.
Proof.
  assert (N1 : u "comment" <> u "score") by (intros H; vm_compute in H; discriminate).
  assert (N2 : u "comment" <> u "analysis") by (intros H; vm_compute in H; discriminate).
  unfold process_result. destruct (truthy r); simpl; [|discriminate].
  destruct r as [| | | | | |d]; try discriminate.
  intros H. exists d. split; [reflexivity|].
  set (d1 := if dict_mem (u "score") d
             then match py_float float_of_str (get (u "score") d) with
                  | Ok score => dict_set (u "score") (clamp_score score max_score) d
                  | Raise _ => dict_set (u "score") (PInt 0) d
                  end
             else d) in *.
  assert (H1 : get (u "comment") d1 = get (u "comment") d).
  { unfold d1. destruct (dict_mem (u "score") d); [|reflexivity].
    destruct (py_float float_of_str (get (u "score") d)); unfold get;
      now rewrite dict_get_set_other by exact N1. }
  rewrite <- H1. destruct (dict_mem (u "analysis") d1).
  - bind_inv H. inversion H. unfold get. now rewrite dict_get_set_other by exact N2.
  - now inversion H.
Qed.

(** X28.  A decoded answer keeps its comment through [process_result]
    whatever its type, so a provider may hand on a comment that is a number
    or [true].  When no provider of a question gives an analysis,
    [combine_results_v2] takes the length of every comment, and such a
    comment makes it raise: no report is returned for the whole exam. *)
Theorem numeric_comment_breaks_the_report :
  forall (float_of_str : str -> option pyfloat) (clean_text : str -> str),
    (forall (max_score : pyfloat) (r : pyval) (d' : dict pyval),
        process_result float_of_str clean_text max_score r = Ok (PDict d') ->
        exists d, r = PDict d /\ get (u "comment") d' = get (u "comment") d)
    /\ (forall (all_res : dict (dict (dict pyval))) (questions : list (dict pyval))
               (default_max : pyfloat) (q_id : str) (qr : dict (dict pyval))
               (r : dict pyval),
           In (q_id, qr) all_res ->
           In r (dict_values qr) ->
           Forall no_analysis (dict_values qr) ->
           truthy (get (u "comment") r) = true ->
           num_of (get (u "comment") r) <> None ->
           exists e,
             combine_results_v2 float_of_str all_res questions default_max = Raise e).
Proof.
  intros F C. split; [apply process_result_keeps_comment|].
  intros all_res questions default_max q_id qr r Hq Hr Hno Ht Hnum.
  destruct (combine_results_v2 F all_res questions default_max) as [report|e] eqn:Hc;
    [|eauto].
  exfalso. unfold combine_results_v2 in Hc.
  apply bind_Ok in Hc as [st [Hloop _]].
  destruct (for_each_steps _ all_res _ _ Hloop (q_id, qr) Hq)
    as [[[fr t] mt] [s2 Hstep]].
  unfold combine_step in Hstep. apply bind_Ok in Hstep as [d [Hd _]].
  cbn [fst snd] in Hd. unfold combine_question in Hd.
  apply bind_Ok in Hd as [scores [_ Hd]].
  apply bind_Ok in Hd as [final [_ Hd]].
  apply bind_Ok in Hd as [an [Han _]].
  unfold analysis_of in Han. rewrite (first_analysis_none _ Hno) in Han.
  cbn [truthy] in Han. unfold longest_comment in Han.
  destruct (longest_comment_lengths _ _ _ Han r Hr Ht) as [n Hn].
  destruct (get (u "comment") r); simpl in Hn, Hnum; try discriminate;
    now contradiction Hnum.
Qed.

Lemma numeric_comment_breaks_the_report_witness :
  exists e, combine_results_v2 no_float numeric_comment_results [] (Fin 10) = Raise e.
Proof.
  destruct (numeric_comment_breaks_the_report no_float keep_text) as [_ H].
  apply (H numeric_comment_results [] (Fin 10) (u "1")
           [ (u "qwen-vl-max",
              [ (u "score", PInt 1); (u "comment", PInt 5);
                (u "success", PBool true) ]) ]
           [ (u "score", PInt 1); (u "comment", PInt 5); (u "success", PBool true) ]).
  - now left.
  - now left.
  - repeat constructor.
  - reflexivity.
  - discriminate.
Defined.

(** ** An answer without a score *)

Section MissingScore.

Variable float_of_str : str -> option pyfloat.
Variable clean_text : str -> str.
Variable exn_text : exn -> str.
Variable repr_other : pyval -> str.

Lemma grade_one_missing_field api_keys max env model_name qr w :
  let r := fst (grade_with_model float_of_str clean_text exn_text api_keys model_name
                                 max env fs_init) in
  succeeded r = true ->
  dict_mem (u "score") r = false \/ dict_mem (u "is_correct") r = false ->
  fst (grade_one float_of_str clean_text exn_text api_keys max env model_name qr w)
  = Raise KeyError.
Proof.
  intros r Hs Hm. unfold grade_one.
  pose proof (grade_with_model_result float_of_str clean_text exn_text api_keys
                model_name max env w) as Hres.
  fold r in Hres.
  destruct (grade_with_model float_of_str clean_text exn_text api_keys model_name max
                             env w) as [result w'].
  simpl in Hres. subst result. simpl.
  unfold succeeded, get in Hs. unfold subscript, dict_mem in *.
  destruct (dict_get (u "success") r) as [sv|]; [|discriminate]. simpl. rewrite Hs.
  destruct (dict_get (u "score") r); simpl; [|reflexivity].
  destruct Hm as [Hm|Hm]; [discriminate|].
  destruct (dict_get (u "is_correct") r); [discriminate | reflexivity].
Qed.

Lemma grade_models_raises api_keys max envs models :
  forall j pos model_name qr w,
    nth_error models j = Some model_name ->
    (forall qr' w',
        fst (grade_one float_of_str clean_text exn_text api_keys max
                       (envs (pos + j)%nat) model_name qr' w') = Raise KeyError) ->
    exists e w',
      grade_models float_of_str clean_text exn_text api_keys max envs models pos qr w
      = (Raise e, w').
Proof.
  induction models as [|m models IH]; intros j pos model_name qr w Hj Hraise.
  - destruct j; discriminate.
  - simpl. unfold bindM.
    destruct (grade_one float_of_str clean_text exn_text api_keys max (envs pos) m qr w)
      as [[qr1|e] w1] eqn:E1; cbv beta iota; [|eauto].
    destruct j as [|j].
    + simpl in Hj. inversion Hj. subst m.
      specialize (Hraise qr w). rewrite Nat.add_0_r, E1 in Hraise. discriminate.
    + simpl in Hj. apply (IH j (S pos) model_name qr1 w1 Hj).
      intros qr' w'. replace (S pos + j)%nat with (pos + S j)%nat by lia.
      apply Hraise.
Qed.

Lemma grade_questions_raise api_keys models default_max w0 questions :
  forall i index q all_res model_res w,
    nth_error questions i = Some q ->
    (forall qr w,
        exists e w',
          grade_models float_of_str clean_text exn_text api_keys
            (resolve_max_score float_of_str (get (u "score") q) default_max)
            (calls w0 (index + i)%nat) models O qr w = (Raise e, w')) ->
    exists e w',
      for_eachM questions
        (grade_question float_of_str clean_text exn_text api_keys models default_max w0)
        (index, all_res, model_res) w = (Raise e, w').
Proof.
  induction questions as [|q0 questions IH];
    intros i index q all_res model_res w Hi Hraise.
  - destruct i; discriminate.
  - simpl. unfold bindM at 1.
    match goal with
    | |- context [match ?c with pair _ _ => _ end] =>
      destruct c as [[[[i1 a1] m1]|e] w1] eqn:E1
    end; [|eauto].
    destruct i as [|i].
    + simpl in Hi. inversion Hi. subst q0. exfalso.
      unfold grade_question in E1.
      apply bindM_Ok in E1 as [uid [w2 [Hu E1]]].
      apply bindM_Ok in E1 as [qr [w3 [Hg _]]].
      destruct (Hraise [] w2) as [e [w' Hr]]. rewrite Nat.add_0_r in Hr.
      rewrite Hr in Hg. discriminate.
    + simpl in Hi.
      assert (Hi1 : i1 = S index).
      { apply grade_question_entry in E1 as [uid [qr [mr [_ Hst]]]]. now inversion Hst. }
      subst i1. apply (IH i (S index) q a1 m1 w1 Hi).
      intros qr w'. replace (S index + i)%nat with (index + S i)%nat by lia.
      apply Hraise.
Qed.

End MissingScore.

(** X29.  An answer that is parsed but carries no score (or no verdict) is
    not counted as a failed call: the loop over the providers reads both
    fields of a successful result, so one such answer, for any question and
    any provider, makes the whole run raise; no report is returned and the
    other questions are lost. *)
Theorem answer_without_score_fails_the_run :
  forall (float_of_str : str -> option pyfloat) (clean_text : str -> str)
         (exn_text : exn -> str) (repr_other : pyval -> str)
         (api_keys : dict str) (n : Z) (max_score : option pyfloat)
         (selected_models : list str) (text_scores : dict pyfloat) (w0 : world)
         (w : fs) (i j : nat) (model_name : str),
    (i < Z.to_nat n)%nat ->
    nth_error (available_models api_keys selected_models) j = Some model_name ->
    let r := fst (grade_with_model float_of_str clean_text exn_text api_keys model_name
                    match max_score with Some x => x | None => pf_of_Z 10 end
                    (calls w0 i j) fs_init) in
    succeeded r = true ->
    dict_mem (u "score") r = false \/ dict_mem (u "is_correct") r = false ->
    exists e w',
      grade_exam_with_multiple_models float_of_str clean_text exn_text repr_other
        api_keys (Some n) max_score selected_models text_scores w0 w
      = (Raise e, w').
Proof.
  intros F C E R api_keys n ms sel ts w0 w i j m Hi Hj r Hs Hm.
  unfold grade_exam_with_multiple_models.
  destruct (available_models api_keys sel) as [|first rest] eqn:Emodels;
    [destruct j; discriminate|].
  unfold questions_to_grade. unfold bindM at 1. unfold liftM at 1.
  assert (Hq : exists q, nth_error (numbered_questions n) i = Some q
                         /\ get (u "score") q = PNone).
  { unfold numbered_questions.
    destruct (nth_error (py_range 1 (n + 1)) i) as [z|] eqn:Ez.
    - exists (numbered_question (str_of_Z z)). split; [|reflexivity].
      apply (map_nth_error (fun i : Z => numbered_question (str_of_Z i))). exact Ez.
    - apply nth_error_None in Ez. unfold py_range in Ez.
      rewrite length_map, length_seq in Ez. lia. }
  destruct Hq as [q [Hq Hsc]].
  destruct (grade_questions_raise F C E api_keys (first :: rest)
              match ms with Some x => x | None => pf_of_Z 10 end w0
              (numbered_questions n) i O q [] [] w Hq) as [e [w' Hloop]].
  { intros qr w1. rewrite Hsc. cbn [resolve_max_score is_none]. simpl Nat.add.
    apply (grade_models_raises F C E api_keys _ (calls w0 i) (first :: rest) j O m qr w1
             Hj).
    intros qr' w2. simpl Nat.add. now apply grade_one_missing_field. }
  unfold bindM at 1. unfold dict in Hloop |- *. rewrite Hloop. eauto.
Qed.

Lemma answer_without_score_fails_the_run_witness :
  exists e w',
    grade_exam_with_multiple_models no_float keep_text some_text some_repr
      (init_api_keys [] dashscope_only) (Some 1) (Some (Fin 10)) [] [] no_score_world
      fs_init
    = (Raise e, w').
Proof.
  apply (answer_without_score_fails_the_run no_float keep_text some_text some_repr
           (init_api_keys [] dashscope_only) 1 (Some (Fin 10)) [] [] no_score_world
           fs_init O O (u "qwen-vl-max")).
  - simpl. lia.
  - reflexivity.
  - vm_compute. reflexivity.
  - left. vm_compute. reflexivity.
Defined.
